(** * Rule-expression evaluation of Pacemaker (lib/common/rules.c)

    A shallow embedding of the date-expression evaluator, the date
    specification matcher, the duration calculator, the typed comparison and
    the submatch expansion of [lib/common/rules.c], with the properties its
    specification states about them.

    Conventions of the embedding:
    - a [const char *] that may be [NULL] is an [option string];
    - a [crm_time_t *] that may be [NULL] is an [option] of an instant;
    - a function that writes through a pointer returns the new content
      together with its return code;
    - library routines that live in other files of libcrmcommon
      (iso8601.c, strings.c, xml.c) are either operations of the interfaces
      [Iso8601] and [Strings] below or small definitions modelled from the
      specification, each marked as such. *)

From Stdlib Require Import ZArith String Ascii List Bool Lia.
From stdpp Require Import base option list strings gmap.

Local Open Scope string_scope.
Local Open Scope Z_scope.

(** ** Return codes *)

(** Modelled from the spec: the return codes are declared in results.h.
    The specification calls the verdicts a closed enumeration, with a
    distinct invalid-argument signal; the evaluator only tests codes for
    equality, so they are an enumeration here.  [EINVAL] and [ERANGE] are
    the errno values of the same name. *)
Inductive pcmk_rc : Type :=
| pcmk_rc_ok
| pcmk_rc_within_range
| pcmk_rc_before_range
| pcmk_rc_after_range
| pcmk_rc_undetermined
| pcmk_rc_unpack_error
| pcmk_rc_bad_input
| EINVAL
| ERANGE.

#[global] Instance pcmk_rc_eq_dec : EqDecision pcmk_rc.
Proof. solve_decision. Defined.

(** What a call comes to: it returns a value, or its behaviour is undefined
    in C (nothing is known of what it does, and it need not return). *)
Inductive outcome (A : Type) : Type :=
| Returns (a : A)
| Undefined.

Arguments Returns {A} a.
Arguments Undefined {A}.

(** The verdicts of the specification: [ok], [within_range], [before_range],
    [after_range], [undetermined]. *)
Definition is_verdict (rc : pcmk_rc) : bool :=
  match rc with
  | pcmk_rc_ok | pcmk_rc_within_range | pcmk_rc_before_range
  | pcmk_rc_after_range | pcmk_rc_undetermined => true
  | _ => false
  end.

(** ** Time instants *)

(** Modelled from the spec: [crm_time_t] is declared in iso8601.c, which the
    evaluator treats as opaque.  The specification gives an instant a
    comparison and the addition of a whole number of seconds; an instant
    is its position in seconds on the time line. *)
Abbreviation crm_time_t := Z (only parsing).

(** Modelled from the spec: comparison of two instants ([<], [=], [>]),
    returned the way [crm_time_compare] does, as a negative, zero or positive
    integer. *)
Definition crm_time_compare (a b : crm_time_t) : Z :=
  match a ?= b with
  | Lt => -1
  | Eq => 0
  | Gt => 1
  end.

(** Modelled from the spec: addition of a whole number of seconds. *)
Definition crm_time_add_seconds (t : crm_time_t) (extra : Z) : crm_time_t :=
  t + extra.

(** A next-change hint is a [crm_time_t] object owned by the caller.  The
    pointer to it may be [NULL] (outer [None]); the object itself may hold no
    instant yet (inner [None], [crm_time_is_defined] false). *)
Abbreviation next_change_t := (option (option Z)) (only parsing).

(** Modelled from the spec: [pcmk__set_time_if_earlier] (iso8601.c) merges a
    candidate into the hint only if it is earlier than the current value or
    the current value is unset.  Nothing happens without a hint object or
    without a candidate. *)
Definition pcmk__set_time_if_earlier (target : next_change_t)
    (source : option crm_time_t) : next_change_t :=
  match target, source with
  | Some None, Some s => Some (Some s)
  | Some (Some cur), Some s =>
      if crm_time_compare s cur <? 0 then Some (Some s) else target
  | _, _ => target
  end.

(** The components of a duration ([enum pcmk__time_component]). *)
Inductive pcmk__time_component : Type :=
| pcmk__time_years
| pcmk__time_months
| pcmk__time_weeks
| pcmk__time_days
| pcmk__time_hours
| pcmk__time_minutes
| pcmk__time_seconds.

#[global] Instance pcmk__time_component_eq_dec : EqDecision pcmk__time_component.
Proof. solve_decision. Defined.

(** The part of iso8601.c the evaluator calls and the specification leaves
    to "an external time-arithmetic routine": parsing an instant, its
    calendar decompositions, and calendar addition of one duration
    component. *)
Class Iso8601 : Type := {
  (** [crm_time_new]: parse a date/time string, [None] when it is invalid *)
  crm_time_new : string -> option Z;
  (** year, month, day of month *)
  crm_time_get_gregorian : Z -> Z * Z * Z;
  (** hour, minute, second *)
  crm_time_get_timeofday : Z -> Z * Z * Z;
  (** year, day of year *)
  crm_time_get_ordinal : Z -> Z * Z;
  (** week year, week of week year, day of week *)
  crm_time_get_isoweek : Z -> Z * Z * Z;
  (** [crm_time_add_years] and its siblings, selected by component *)
  crm_time_add : pcmk__time_component -> Z -> Z -> Z
}.

(** ** Strings *)

Definition char_code (c : ascii) : Z := Z.of_N (N_of_ascii c).

Definition isdigit (c : ascii) : bool :=
  (48 <=? char_code c) && (char_code c <=? 57).

Definition tolower (c : ascii) : Z :=
  let n := char_code c in
  if (65 <=? n) && (n <=? 90) then n + 32 else n.

(** [strcasecmp] of the C library, as glibc and musl implement it: the
    strings are compared byte by byte after [tolower], and the result is
    the difference of the first pair of bytes that differ (the terminating
    NUL counts as 0). *)
Fixpoint strcasecmp (s1 s2 : string) : Z :=
  match s1, s2 with
  | EmptyString, EmptyString => 0
  | EmptyString, String c2 _ => 0 - tolower c2
  | String c1 _, EmptyString => tolower c1
  | String c1 r1, String c2 r2 =>
      let d := tolower c1 - tolower c2 in
      if d =? 0 then strcasecmp r1 r2 else d
  end.

(** The flags of [pcmk__str_eq] that the evaluator passes. *)
Inductive pcmk__str_flags : Type :=
| pcmk__str_casei
| pcmk__str_null_matches.

#[global] Instance pcmk__str_flags_eq_dec : EqDecision pcmk__str_flags.
Proof. solve_decision. Defined.

Definition pcmk_is_set (flags : list pcmk__str_flags) (f : pcmk__str_flags) : bool :=
  bool_decide (f ∈ flags).

(** Modelled from the spec: [pcmk__str_eq] (strings.c).  With
    [pcmk__str_null_matches] an absent string matches anything; otherwise two
    absent strings are equal and an absent string differs from a present
    one; present strings are compared ignoring case under
    [pcmk__str_casei]. *)
Definition pcmk__str_eq (s1 s2 : option string) (flags : list pcmk__str_flags) : bool :=
  match s1, s2 with
  | Some a, Some b =>
      if pcmk_is_set flags pcmk__str_casei then strcasecmp a b =? 0
      else bool_decide (a = b)
  | None, None => true
  | _, _ => pcmk_is_set flags pcmk__str_null_matches
  end.

(** [pcmk__str_empty]: the string is [NULL] or has no characters. *)
Definition pcmk__str_empty (s : option string) : bool :=
  match s with
  | None => true
  | Some EmptyString => true
  | Some _ => false
  end.

(** The part of strings.c the evaluator calls: the string-to-number
    scanners, the range parser and the version comparison.  [double] stands
    for the C type of the same name with its order. *)
Class Strings : Type := {
  (** [pcmk__scan_ll text &result default]: return code and scanned value *)
  pcmk__scan_ll : option string -> Z -> pcmk_rc * Z;
  (** [pcmk__parse_ll_range]: low and high bound, [-1] for an open side;
      [None] when the string is not a valid range *)
  pcmk__parse_ll_range : string -> option (Z * Z);
  double : Type;
  double_lt : double -> double -> bool;
  (** [pcmk__scan_double text &result NULL NULL] *)
  pcmk__scan_double : string -> pcmk_rc * double;
  (** [compare_version]: -1, 0 or 1 *)
  compare_version : string -> string -> Z
}.

(** ** Configuration XML *)

(** An XML element as the evaluator sees it (libxml2's [xmlNode]): its tag
    name, its attributes, its parent and its child elements in document
    order. *)
#[warnings="-register-all"]
Inductive xmlNode : Type := XmlNode {
  xml_name : string;
  xml_properties : gmap string string;
  xml_parent : option xmlNode;
  xml_children : list xmlNode
}.

(** [crm_element_value]: the value of an attribute, [None] when unset. *)
Definition crm_element_value (data : xmlNode) (name : string) : option string :=
  xml_properties data !! name.

(** Modelled from the spec: the macros that name elements, attributes and
    attribute values are defined in xml_names.h and options.h, outside of
    rules.c.  The strings are those of Pacemaker's XML vocabulary for the
    fields the specification lists; the properties below only need them to
    be distinct from each other. *)
Definition PCMK_XA_ID : string := "id".
Definition PCMK_XA_OPERATION : string := "operation".
Definition PCMK_XA_START : string := "start".
Definition PCMK_XA_END : string := "end".
Definition PCMK_XA_YEARS : string := "years".
Definition PCMK_XA_MONTHS : string := "months".
Definition PCMK_XA_MONTHDAYS : string := "monthdays".
Definition PCMK_XA_HOURS : string := "hours".
Definition PCMK_XA_MINUTES : string := "minutes".
Definition PCMK_XA_SECONDS : string := "seconds".
Definition PCMK_XA_YEARDAYS : string := "yeardays".
Definition PCMK_XA_WEEKYEARS : string := "weekyears".
Definition PCMK_XA_WEEKS : string := "weeks".
Definition PCMK_XA_WEEKDAYS : string := "weekdays".
Definition PCMK__XA_MOON : string := "moon".
Definition PCMK_XA_DAYS : string := "days".
Definition PCMK_XE_DURATION : string := "duration".
Definition PCMK_XE_DATE_SPEC : string := "date_spec".
Definition PCMK_VALUE_IN_RANGE : string := "in_range".
Definition PCMK_VALUE_DATE_SPEC : string := "date_spec".
Definition PCMK_VALUE_GT : string := "gt".
Definition PCMK_VALUE_LT : string := "lt".

(** [pcmk__xe_id]: the element's XML ID. *)
Definition pcmk__xe_id (xml : xmlNode) : option string :=
  crm_element_value xml PCMK_XA_ID.

(** The ID used in log messages: ["without ID"] when the element has
    none. *)
Definition loggable_id (xml : xmlNode) : string :=
  let id := pcmk__xe_id xml in
  if pcmk__str_empty id then "without ID" else default "" id.

(** [first_named_child]: the first child element with the given tag. *)
Definition first_named_child (parent : xmlNode) (name : string) : option xmlNode :=
  List.find (fun child => bool_decide (xml_name child = name)) (xml_children parent).

(** [loggable_parent_id]: the parent's ID for log messages, never absent. *)
Definition loggable_parent_id (xml : option xmlNode) : string :=
  match xml with
  | Some x =>
      match xml_parent x with
      | Some parent =>
          match pcmk__xe_id parent with
          | Some parent_id => parent_id
          | None => "without ID"
          end
      | None => "implied"
      end
  | None => "implied"
  end.

(** ** Date specifications *)

Definition u32 (x : Z) : Z := x mod 2 ^ 32.

(** [phase_of_the_moon]: 0 is the new moon and 7 the full moon.  The
    arithmetic is on [uint32_t]. *)
Definition phase_of_the_moon `{iso : Iso8601} (now : crm_time_t) : Z :=
  let '(y, diy) := crm_time_get_ordinal now in
  let y := u32 y in
  let diy := u32 diy in
  let goldn := u32 ((y mod 19) + 1) in
  let epact := u32 (11 * goldn + 18) mod 30 in
  let epact :=
    if ((epact =? 25) && (goldn >? 11)) || (epact =? 24)
    then u32 (epact + 1) else epact in
  Z.land ((u32 (u32 (u32 (diy + epact) * 6) + 11) mod 177) / 22) 7.

(** [check_range]: compare a value with the range in attribute [attr].  An
    attribute that is not set, or whose value is not a valid range, gives
    [pcmk_rc_ok] so that the caller goes on with the next attribute.  [id]
    only appears in log messages. *)
Definition check_range `{strs : Strings} (date_spec : xmlNode) (id : string)
    (attr : string) (value : Z) : pcmk_rc :=
  match crm_element_value date_spec attr with
  | None => pcmk_rc_ok
  | Some range =>
      match pcmk__parse_ll_range range with
      | None => pcmk_rc_ok
      | Some (low, high) =>
          if negb (low =? -1) && (value <? low) then pcmk_rc_before_range
          else if negb (high =? -1) && (value >? high) then pcmk_rc_after_range
          else pcmk_rc_ok
      end
  end.

(** One entry of the local array [ranges] of [pcmk__evaluate_date_spec]. *)
Record range : Type := Range { attr : string; value : Z }.

(** The array [ranges] once the components of [now] are stored in it.  The
    year of the ordinal date overwrites the year of the Gregorian date. *)
Definition date_spec_ranges `{iso : Iso8601} (now : crm_time_t) : list range :=
  let '(year, month, day) := crm_time_get_gregorian now in
  let '(hour, minute, second) := crm_time_get_timeofday now in
  let '(year, yearday) := crm_time_get_ordinal now in
  let '(weekyear, week, weekday) := crm_time_get_isoweek now in
  [ Range PCMK_XA_YEARS (u32 year);
    Range PCMK_XA_MONTHS (u32 month);
    Range PCMK_XA_MONTHDAYS (u32 day);
    Range PCMK_XA_HOURS (u32 hour);
    Range PCMK_XA_MINUTES (u32 minute);
    Range PCMK_XA_SECONDS (u32 second);
    Range PCMK_XA_YEARDAYS (u32 yearday);
    Range PCMK_XA_WEEKYEARS (u32 weekyear);
    Range PCMK_XA_WEEKS (u32 week);
    Range PCMK_XA_WEEKDAYS (u32 weekday);
    Range PCMK__XA_MOON (u32 (phase_of_the_moon now)) ].

(** The loop over [ranges]: return at the first check that is not
    [pcmk_rc_ok]. *)
Fixpoint check_ranges `{strs : Strings} (date_spec : xmlNode) (id : string)
    (ranges : list range) : pcmk_rc :=
  match ranges with
  | [] => pcmk_rc_ok
  | r :: rest =>
      let rc := check_range date_spec id (attr r) (value r) in
      if bool_decide (rc <> pcmk_rc_ok) then rc
      else check_ranges date_spec id rest
  end.

(** [pcmk__evaluate_date_spec] *)
Definition pcmk__evaluate_date_spec `{iso : Iso8601} `{strs : Strings}
    (date_spec : option xmlNode) (now : option crm_time_t) : pcmk_rc :=
  match date_spec, now with
  | Some date_spec, Some now =>
      let id := loggable_id date_spec in
      check_ranges date_spec id (date_spec_ranges now)
  | _, _ => EINVAL
  end.

(** ** Durations *)

(** [pcmk__time_component_attr]: the attribute holding a component. *)
Definition pcmk__time_component_attr (component : pcmk__time_component) : string :=
  match component with
  | pcmk__time_years => PCMK_XA_YEARS
  | pcmk__time_months => PCMK_XA_MONTHS
  | pcmk__time_weeks => PCMK_XA_WEEKS
  | pcmk__time_days => PCMK_XA_DAYS
  | pcmk__time_hours => PCMK_XA_HOURS
  | pcmk__time_minutes => PCMK_XA_MINUTES
  | pcmk__time_seconds => PCMK_XA_SECONDS
  end.

Definition INT_MIN : Z := - 2 ^ 31.
Definition INT_MAX : Z := 2 ^ 31 - 1.

(** Modelled from the spec: [pcmk__add_time_from_xml] (iso8601.c) adds the
    duration component stored in the attribute of that name to an instant.
    A component is a signed integer; "an invalid or out-of-range component
    is recorded as an error and skipped": the instant is returned unchanged
    with an error code.  An attribute that is not set scans as the default
    0. *)
Definition pcmk__add_time_from_xml `{iso : Iso8601} `{strs : Strings} (t : crm_time_t)
    (component : pcmk__time_component) (xml : xmlNode) : pcmk_rc * crm_time_t :=
  let '(rc, value) :=
    pcmk__scan_ll (crm_element_value xml (pcmk__time_component_attr component)) 0 in
  if bool_decide (rc <> pcmk_rc_ok) then (pcmk_rc_unpack_error, t)
  else if (value <? INT_MIN) || (value >? INT_MAX) then (ERANGE, t)
  else (pcmk_rc_ok, crm_time_add component t value).

(** The configuration warnings of [pcmk__unpack_duration], in the order
    [pcmk__config_warn] is called. *)
Inductive config_warning : Type :=
| warn_duration_without_id (parent_id : string)
| warn_ignoring_component (attr : string) (id : string).

(** The state a run of [pcmk__unpack_duration] threads through its
    statements: the local [rc], the instant [*end] and the warnings logged
    so far. *)
Record duration_state : Type := DurationState {
  ds_rc : pcmk_rc;
  ds_end : crm_time_t;
  ds_log : list config_warning
}.

(** The macro [ADD_COMPONENT]. *)
Definition ADD_COMPONENT `{iso : Iso8601} `{strs : Strings} (duration : xmlNode) (id : string)
    (component : pcmk__time_component) (st : duration_state) : duration_state :=
  let '(sub_rc, end') := pcmk__add_time_from_xml (ds_end st) component duration in
  if bool_decide (sub_rc <> pcmk_rc_ok)
  then DurationState sub_rc end'
         (ds_log st ++ [warn_ignoring_component (pcmk__time_component_attr component) id])
  else DurationState (ds_rc st) end' (ds_log st).

(** [pcmk__unpack_duration].  [end_] is the argument [end]: [None] for a
    [NULL] pointer, [Some None] when [*end] is [NULL] as required.  The
    result is the return code, the content of [*end] afterwards and the
    warnings logged. *)
Definition pcmk__unpack_duration `{iso : Iso8601} `{strs : Strings} (duration : option xmlNode)
    (start : option crm_time_t) (end_ : option (option crm_time_t))
    : pcmk_rc * option (option crm_time_t) * list config_warning :=
  match start, duration, end_ with
  | Some start, Some duration, Some None =>
      let parent_id := loggable_parent_id (Some duration) in
      let id := loggable_id duration in
      let log :=
        if pcmk__str_empty (pcmk__xe_id duration)
        then [warn_duration_without_id parent_id] else [] in
      let st := DurationState pcmk_rc_ok start log in
      let st := ADD_COMPONENT duration id pcmk__time_years st in
      let st := ADD_COMPONENT duration id pcmk__time_months st in
      let st := ADD_COMPONENT duration id pcmk__time_weeks st in
      let st := ADD_COMPONENT duration id pcmk__time_days st in
      let st := ADD_COMPONENT duration id pcmk__time_hours st in
      let st := ADD_COMPONENT duration id pcmk__time_minutes st in
      let st := ADD_COMPONENT duration id pcmk__time_seconds st in
      (ds_rc st, Some (Some (ds_end st)), ds_log st)
  | _, _, _ => (EINVAL, end_, [])
  end.

(** ** Date expressions *)

(** Modelled from the spec: [pcmk__xe_get_datetime] reads an instant from
    an attribute.  An attribute that is not set is no error and gives no
    instant ("absent"); a value that does not parse is an unpack error
    ("invalid") and gives no instant either. *)
Definition pcmk__xe_get_datetime `{iso : Iso8601} (xml : xmlNode) (attr : string)
    : pcmk_rc * option crm_time_t :=
  match crm_element_value xml attr with
  | None => (pcmk_rc_ok, None)
  | Some value =>
      match crm_time_new value with
      | Some t => (pcmk_rc_ok, Some t)
      | None => (pcmk_rc_unpack_error, None)
      end
  end.

(** [evaluate_in_range].  The diagnostics of the evaluators do not influence
    their results and are left out; [id] only appears in them.  The result
    is the return code and the content of [next_change] afterwards. *)
Definition evaluate_in_range `{iso : Iso8601} `{strs : Strings} (date_expression : xmlNode)
    (id : string) (now : crm_time_t) (next_change : next_change_t)
    : pcmk_rc * next_change_t :=
  let '(_, start) := pcmk__xe_get_datetime date_expression PCMK_XA_START in
  let '(_, end_) := pcmk__xe_get_datetime date_expression PCMK_XA_END in
  match start, end_ with
  | None, None => (pcmk_rc_undetermined, next_change)
  | _, _ =>
      let end_ :=
        match end_ with
        | None =>
            match first_named_child date_expression PCMK_XE_DURATION with
            | Some duration =>
                let '(_, end', _) :=
                  pcmk__unpack_duration (Some duration) start (Some end_) in
                default None end'
            | None => end_
            end
        | Some _ => end_
        end in
      if match start with
         | Some s => crm_time_compare now s <? 0
         | None => false
         end
      then (pcmk_rc_before_range, pcmk__set_time_if_earlier next_change start)
      else
        match end_ with
        | Some e =>
            if crm_time_compare now e >? 0 then (pcmk_rc_after_range, next_change)
            else
              match next_change with
              | Some _ =>
                  let e := crm_time_add_seconds e 1 in
                  (pcmk_rc_within_range, pcmk__set_time_if_earlier next_change (Some e))
              | None => (pcmk_rc_within_range, next_change)
              end
        | None => (pcmk_rc_within_range, next_change)
        end
  end.

(** [evaluate_gt] *)
Definition evaluate_gt `{iso : Iso8601} (date_expression : xmlNode) (id : string)
    (now : crm_time_t) (next_change : next_change_t) : pcmk_rc * next_change_t :=
  let '(rc, start) := pcmk__xe_get_datetime date_expression PCMK_XA_START in
  if bool_decide (rc <> pcmk_rc_ok) then (pcmk_rc_undetermined, next_change)
  else
    match start with
    | None => (pcmk_rc_undetermined, next_change)
    | Some start =>
        if crm_time_compare now start >? 0 then (pcmk_rc_within_range, next_change)
        else
          let start := crm_time_add_seconds start 1 in
          (pcmk_rc_before_range, pcmk__set_time_if_earlier next_change (Some start))
    end.

(** [evaluate_lt] *)
Definition evaluate_lt `{iso : Iso8601} (date_expression : xmlNode) (id : string)
    (now : crm_time_t) (next_change : next_change_t) : pcmk_rc * next_change_t :=
  let '(rc, end_) := pcmk__xe_get_datetime date_expression PCMK_XA_END in
  if bool_decide (rc <> pcmk_rc_ok) then (pcmk_rc_undetermined, next_change)
  else
    match end_ with
    | None => (pcmk_rc_undetermined, next_change)
    | Some e =>
        if crm_time_compare now e <? 0
        then (pcmk_rc_within_range, pcmk__set_time_if_earlier next_change (Some e))
        else (pcmk_rc_after_range, next_change)
    end.

(** The return code of an evaluation that returns. *)
Definition verdict_of (o : outcome (pcmk_rc * option (option Z))) : outcome pcmk_rc :=
  match o with
  | Returns r => Returns (fst r)
  | Undefined => Undefined
  end.

(** The content of [next_change] after an evaluation that returns. *)
Definition hint_of (o : outcome (pcmk_rc * option (option Z)))
    : outcome (option (option Z)) :=
  match o with
  | Returns r => Returns (snd r)
  | Undefined => Undefined
  end.

(** [pcmk__evaluate_date_expression].  In the last branch, for an operation
    that is none of the four, the C code calls [pcmk__config_warn] with a
    format of two [%s] conversions and the single argument [op]: the call
    reads an argument that was not passed, which is undefined behaviour.
    The other branches return [rc]. *)
Definition pcmk__evaluate_date_expression `{iso : Iso8601} `{strs : Strings}
    (date_expression : option xmlNode) (now : option crm_time_t)
    (next_change : next_change_t) : outcome (pcmk_rc * next_change_t) :=
  match date_expression, now with
  | Some date_expression, Some now =>
      let id := loggable_id date_expression in
      let op := crm_element_value date_expression PCMK_XA_OPERATION in
      if pcmk__str_eq op (Some PCMK_VALUE_IN_RANGE)
           [pcmk__str_null_matches; pcmk__str_casei]
      then Returns (evaluate_in_range date_expression id now next_change)
      else if pcmk__str_eq op (Some PCMK_VALUE_DATE_SPEC) [pcmk__str_casei] then
        match first_named_child date_expression PCMK_XE_DATE_SPEC with
        | None => Returns (pcmk_rc_undetermined, next_change)
        | Some date_spec =>
            Returns (pcmk__evaluate_date_spec (Some date_spec) (Some now),
                     next_change)
        end
      else if pcmk__str_eq op (Some PCMK_VALUE_GT) [pcmk__str_casei]
      then Returns (evaluate_gt date_expression id now next_change)
      else if pcmk__str_eq op (Some PCMK_VALUE_LT) [pcmk__str_casei]
      then Returns (evaluate_lt date_expression id now next_change)
      else Undefined
  | _, _ => Returns (EINVAL, next_change)
  end.

(** ** Typed comparison *)

(** [enum pcmk__type] *)
Inductive pcmk__type : Type :=
| pcmk__type_unknown
| pcmk__type_string
| pcmk__type_integer
| pcmk__type_number
| pcmk__type_version.

(** [pcmk__cmp_by_type].  On a parse error the C function calls itself with
    [pcmk__type_string]; both values are present there, so that call is the
    string case, [as_string] below. *)
Definition pcmk__cmp_by_type `{strs : Strings} (l_val r_val : option string)
    (type : pcmk__type) : Z :=
  match l_val, r_val with
  | Some l, Some r =>
      let as_string := strcasecmp l r in
      match type with
      | pcmk__type_string => as_string
      | pcmk__type_integer =>
          let '(rc1, l_val_num) := pcmk__scan_ll (Some l) 0 in
          let '(rc2, r_val_num) := pcmk__scan_ll (Some r) 0 in
          if bool_decide (rc1 = pcmk_rc_ok) && bool_decide (rc2 = pcmk_rc_ok) then
            if l_val_num <? r_val_num then -1
            else if l_val_num >? r_val_num then 1
            else 0
          else as_string
      | pcmk__type_number =>
          let '(rc1, l_val_num) := pcmk__scan_double l in
          let '(rc2, r_val_num) := pcmk__scan_double r in
          if bool_decide (rc1 = pcmk_rc_ok) && bool_decide (rc2 = pcmk_rc_ok) then
            if double_lt l_val_num r_val_num then -1
            else if double_lt r_val_num l_val_num then 1
            else 0
          else as_string
      | pcmk__type_version => compare_version l r
      | pcmk__type_unknown => 0
      end
  | None, None => 0
  | Some _, None => 1
  | None, Some _ => -1
  end.

(** ** Submatch expansion *)

(** [regmatch_t]: the offsets of one submatch in the matched string;
    [rm_so] is -1 for a group that did not take part in the match. *)
Record regmatch_t : Type := Regmatch { rm_so : Z; rm_eo : Z }.

(** [submatches[submatch]].  The array has [nmatches] entries and is only
    read below that index; the default stands for memory outside of it. *)
Definition submatch_at (submatches : list regmatch_t) (submatch : Z) : regmatch_t :=
  nth (Z.to_nat submatch) submatches (Regmatch (-1) (-1)).

(** What one pass of [process_submatches] has computed so far: the flag
    [expanded], the bytes written to [expansion] and the count [*nbytes].
    The C function leaves out the outputs whose pointer is [NULL]; the
    embedding computes both and each caller reads the one it asked for. *)
Record submatch_pass : Type := SubmatchPass {
  expanded : bool;
  expansion : string;
  nbytes : Z
}.

(** The [while] loop of [process_submatches], by recursion on what is left
    of the source string.  [memcpy] copies [match_len] bytes of the matched
    string from offset [rm_so]; regexec() leaves both offsets inside that
    string. *)
Fixpoint process_submatches_loop (src : string) (matched : string)
    (submatches : list regmatch_t) (nmatches : Z) (st : submatch_pass)
    : submatch_pass :=
  match src with
  | EmptyString => st
  | String c rest =>
      let as_is :=
        process_submatches_loop rest matched submatches nmatches
          (SubmatchPass (expanded st) (expansion st +:+ String c "") (nbytes st + 1)) in
      if bool_decide (c = "%"%char) then
        match rest with
        | String d rest' =>
            if isdigit d then
              let submatch := char_code d - char_code "0" in
              let m := submatch_at submatches submatch in
              if (nmatches <=? submatch) || (rm_so m <? 0) || (rm_eo m <=? rm_so m)
              then
                process_submatches_loop rest' matched submatches nmatches
                  (SubmatchPass true (expansion st) (nbytes st))
              else
                let match_len := rm_eo m - rm_so m in
                process_submatches_loop rest' matched submatches nmatches
                  (SubmatchPass true
                     (expansion st +:+
                        substring (Z.to_nat (rm_so m)) (Z.to_nat match_len) matched)
                     (nbytes st + match_len))
            else as_is
        | EmptyString => as_is
        end
      else as_is
  end.

(** [process_submatches]: [*nbytes] starts at 1 for the terminator. *)
Definition process_submatches (str : string) (matched : string)
    (submatches : list regmatch_t) (nmatches : Z) : submatch_pass :=
  process_submatches_loop str matched submatches nmatches (SubmatchPass false "" 1).

(** [pcmk__replace_submatches]: [None] is the [NULL] result.  The first pass
    gives the flag and the size of the buffer, the second pass fills the
    buffer; the result is the string written (it fits the buffer, see
    [process_submatches_nbytes]). *)
Definition pcmk__replace_submatches (str : option string) (matched : string)
    (submatches : list regmatch_t) (nmatches : Z) : option string :=
  if pcmk__str_empty str then None
  else
    let str := default "" str in
    if negb (expanded (process_submatches str matched submatches nmatches)) then None
    else Some (expansion (process_submatches str matched submatches nmatches)).

(** ** Expression types *)

(** [enum expression_type] *)
Inductive expression_type : Type :=
| pcmk__subexpr_unknown
| pcmk__subexpr_rule
| pcmk__subexpr_attribute
| pcmk__subexpr_location
| pcmk__subexpr_datetime
| pcmk__subexpr_resource
| pcmk__subexpr_operation.

(** Modelled from the spec: the element names of rule subexpressions, the
    attribute that names a node attribute and the reserved node attributes
    (node name, node-state kind, node id) are macros of xml_names.h and
    crm.h; the strings are those of Pacemaker's XML vocabulary. *)
Definition PCMK_XE_DATE_EXPRESSION : string := "date_expression".
Definition PCMK_XE_RSC_EXPRESSION : string := "rsc_expression".
Definition PCMK_XE_OP_EXPRESSION : string := "op_expression".
Definition PCMK_XE_RULE : string := "rule".
Definition PCMK_XE_EXPRESSION : string := "expression".
Definition PCMK_XA_ATTRIBUTE : string := "attribute".
Definition CRM_ATTR_UNAME : string := "#uname".
Definition CRM_ATTR_KIND : string := "#kind".
Definition CRM_ATTR_ID : string := "#id".

(** Modelled from the spec: [pcmk__xe_is] (xml.c) tells whether an element
    has the given tag; no element has none. *)
Definition pcmk__xe_is (xml : option xmlNode) (name : string) : bool :=
  match xml with
  | Some x => bool_decide (xml_name x = name)
  | None => false
  end.

(** Modelled from the spec: [pcmk__str_any_of] (strings.c) tells whether a
    string is one of the listed strings, compared exactly; an absent string
    is none of them. *)
Definition pcmk__str_any_of (s : option string) (candidates : list string) : bool :=
  match s with
  | Some v => bool_decide (v ∈ candidates)
  | None => false
  end.

(** [pcmk__expression_type] *)
Definition pcmk__expression_type (expr : option xmlNode) : expression_type :=
  if pcmk__xe_is expr PCMK_XE_DATE_EXPRESSION then pcmk__subexpr_datetime
  else if pcmk__xe_is expr PCMK_XE_RSC_EXPRESSION then pcmk__subexpr_resource
  else if pcmk__xe_is expr PCMK_XE_OP_EXPRESSION then pcmk__subexpr_operation
  else if pcmk__xe_is expr PCMK_XE_RULE then pcmk__subexpr_rule
  else if negb (pcmk__xe_is expr PCMK_XE_EXPRESSION) then pcmk__subexpr_unknown
  else
    let name := expr ≫= (fun e => crm_element_value e PCMK_XA_ATTRIBUTE) in
    if pcmk__str_any_of name [CRM_ATTR_UNAME; CRM_ATTR_KIND; CRM_ATTR_ID]
    then pcmk__subexpr_location
    else pcmk__subexpr_attribute.

(** ** Comparison operators and value types *)

(** [enum pcmk__comparison] *)
Inductive pcmk__comparison : Type :=
| pcmk__comparison_unknown
| pcmk__comparison_defined
| pcmk__comparison_undefined
| pcmk__comparison_eq
| pcmk__comparison_ne
| pcmk__comparison_lt
| pcmk__comparison_lte
| pcmk__comparison_gt
| pcmk__comparison_gte.

#[global] Instance pcmk__comparison_eq_dec : EqDecision pcmk__comparison.
Proof. solve_decision. Defined.

(** Modelled from the spec: the operator and type vocabulary (options.h). *)
Definition PCMK_VALUE_DEFINED : string := "defined".
Definition PCMK_VALUE_NOT_DEFINED : string := "not_defined".
Definition PCMK_VALUE_EQ : string := "eq".
Definition PCMK_VALUE_NE : string := "ne".
Definition PCMK_VALUE_LTE : string := "lte".
Definition PCMK_VALUE_GTE : string := "gte".
Definition PCMK_VALUE_STRING : string := "string".
Definition PCMK_VALUE_INTEGER : string := "integer".
Definition PCMK_VALUE_NUMBER : string := "number".
Definition PCMK_VALUE_VERSION : string := "version".

(** [pcmk__parse_comparison] *)
Definition pcmk__parse_comparison (op : option string) : pcmk__comparison :=
  if pcmk__str_eq op (Some PCMK_VALUE_DEFINED) [pcmk__str_casei]
  then pcmk__comparison_defined
  else if pcmk__str_eq op (Some PCMK_VALUE_NOT_DEFINED) [pcmk__str_casei]
  then pcmk__comparison_undefined
  else if pcmk__str_eq op (Some PCMK_VALUE_EQ) [pcmk__str_casei]
  then pcmk__comparison_eq
  else if pcmk__str_eq op (Some PCMK_VALUE_NE) [pcmk__str_casei]
  then pcmk__comparison_ne
  else if pcmk__str_eq op (Some PCMK_VALUE_LT) [pcmk__str_casei]
  then pcmk__comparison_lt
  else if pcmk__str_eq op (Some PCMK_VALUE_LTE) [pcmk__str_casei]
  then pcmk__comparison_lte
  else if pcmk__str_eq op (Some PCMK_VALUE_GT) [pcmk__str_casei]
  then pcmk__comparison_gt
  else if pcmk__str_eq op (Some PCMK_VALUE_GTE) [pcmk__str_casei]
  then pcmk__comparison_gte
  else pcmk__comparison_unknown.

(** [strchr(s, c) != NULL]: the character occurs in the string. *)
Fixpoint strchr (s : string) (c : ascii) : bool :=
  match s with
  | String x rest => bool_decide (x = c) || strchr rest c
  | EmptyString => false
  end.

(** [pcmk__parse_type] *)
Definition pcmk__parse_type (type : option string) (op : pcmk__comparison)
    (value1 value2 : option string) : pcmk__type :=
  match type with
  | None =>
      match op with
      | pcmk__comparison_lt | pcmk__comparison_lte
      | pcmk__comparison_gt | pcmk__comparison_gte =>
          if match value1 with Some v => strchr v "." | None => false end
             || match value2 with Some v => strchr v "." | None => false end
          then pcmk__type_number
          else pcmk__type_integer
      | _ => pcmk__type_string
      end
  | Some _ =>
      if pcmk__str_eq type (Some PCMK_VALUE_STRING) [pcmk__str_casei]
      then pcmk__type_string
      else if pcmk__str_eq type (Some PCMK_VALUE_INTEGER) [pcmk__str_casei]
      then pcmk__type_integer
      else if pcmk__str_eq type (Some PCMK_VALUE_NUMBER) [pcmk__str_casei]
      then pcmk__type_number
      else if pcmk__str_eq type (Some PCMK_VALUE_VERSION) [pcmk__str_casei]
      then pcmk__type_version
      else pcmk__type_unknown
  end.

(** * The resource-agent metadata cache (daemons/controld/controld_metadata.c)

    The cache maps the key of a resource agent to the record built from the
    agent's metadata.  A [GHashTable *] that may be [NULL] is an [option] of
    a finite map; a function that changes the table returns the new table.
    Memory allocation is taken to succeed: the branches for a failed
    [calloc] or [strdup] are left out.  Log messages are left out;
    [check_ra_ocf_version] only logs. *)
Module Metadata.

(** [lrmd_rsc_info_t]: the fields the cache reads. *)
Record lrmd_rsc_info_t : Type := RscInfo {
  rsc_standard : string;
  rsc_provider : option string;
  rsc_type : string
}.

(** The library routines the cache calls. *)
Class AgentLib : Type := {
  (** [crm_generate_ra_key standard provider type], [None] for [NULL] *)
  crm_generate_ra_key : string -> option string -> string -> option string;
  (** [string2xml]: parse a document, [None] when it is not valid XML *)
  string2xml : string -> option xmlNode;
  (** [crm_is_true]: the text of a boolean attribute *)
  crm_is_true : option string -> bool
}.

(** Modelled from the spec: the flag values of [enum ra_flags_e] and
    [enum ra_param_flags_e] (controld_metadata.h): supported-action flags
    and, per parameter, a unique flag and a private flag, one bit each. *)
Definition ra_supports_reload : Z := 1.
Definition ra_param_unique : Z := 1.
Definition ra_param_private : Z := 2.

(** [pcmk_is_set(g, f)], that is [pcmk_all_flags_set]: all bits of [f] are
    set in [g]. *)
Definition pcmk_all_flags_set (flag_group flags : Z) : bool :=
  Z.land flag_group flags =? flags.

(** [struct ra_param_s] *)
Record ra_param_s : Type := RaParam {
  rap_name : string;
  rap_flags : Z
}.

(** [struct ra_metadata_s] *)
Record ra_metadata_s : Type := RaMetadata {
  ra_version : option string;
  ra_params : list ra_param_s;
  ra_flags : Z
}.

(** [controld_set_ra_param_flags] and [controld_set_ra_flags]: set the bits
    of [flags_to_set]. *)
Definition controld_set_ra_param_flags (p : ra_param_s) (flags_to_set : Z)
    : ra_param_s :=
  RaParam (rap_name p) (Z.lor (rap_flags p) flags_to_set).

Definition controld_set_ra_flags (md : ra_metadata_s) (flags_to_set : Z)
    : ra_metadata_s :=
  RaMetadata (ra_version md) (ra_params md) (Z.lor (ra_flags md) flags_to_set).

(** The metadata cache. *)
Abbreviation cache := (gmap string ra_metadata_s) (only parsing).

(** [metadata_cache_new] *)
Definition metadata_cache_new : cache := ∅.

(** [metadata_cache_reset] *)
Definition metadata_cache_reset (mdc : option cache) : option cache :=
  match mdc with
  | Some _ => Some ∅
  | None => None
  end.

Definition XML_ATTR_VERSION : string := "version".
Definition PCMK_DEFAULT_AGENT_VERSION : string := "0.1".

(** The regular expression [^[[:digit:]]+([.][[:digit:]]+)*$] of
    [valid_version_format], read from left to right: [in_number] tells
    whether the character before was a digit. *)
Fixpoint matches_version_format (s : string) (in_number : bool) : bool :=
  match s with
  | EmptyString => in_number
  | String c rest =>
      if isdigit c then matches_version_format rest true
      else if bool_decide (c = "."%char)
      then in_number && matches_version_format rest false
      else false
  end.

(** [valid_version_format] *)
Definition valid_version_format (version : option string) : bool :=
  match version with
  | None => false
  | Some v => matches_version_format v false
  end.

(** [ra_version_from_xml] *)
Definition ra_version_from_xml (metadata_xml : xmlNode) : string :=
  let version := crm_element_value metadata_xml XML_ATTR_VERSION in
  match version with
  | None => PCMK_DEFAULT_AGENT_VERSION
  | Some v =>
      if negb (valid_version_format version) then PCMK_DEFAULT_AGENT_VERSION
      else v
  end.

(** [ra_param_from_xml].  The caller passes a parameter with a name;
    [None] stands for the call on a parameter without name, which the C
    code does not make. *)
Definition ra_param_from_xml `{lib : AgentLib} (param_xml : xmlNode)
    : option ra_param_s :=
  match crm_element_value param_xml "name" with
  | None => None
  | Some param_name =>
      let p := RaParam param_name 0 in
      let p :=
        if crm_is_true (crm_element_value param_xml "unique")
        then controld_set_ra_param_flags p ra_param_unique else p in
      let p :=
        if crm_is_true (crm_element_value param_xml "private")
        then controld_set_ra_param_flags p ra_param_private else p in
      Some p
  end.

(** The elements a loop [for (match = first_named_child(parent, name);
    match != NULL; match = crm_next_same_xml(match))] visits: the children
    of [parent] with that tag, in document order; none for a [NULL]
    parent. *)
Definition named_children (parent : option xmlNode) (name : string) : list xmlNode :=
  match parent with
  | Some p => filter (fun child => xml_name child = name) (xml_children p)
  | None => []
  end.

(** The loop over the actions: set the reload flag at the first action
    named [reload] and stop. *)
Fixpoint check_actions (actions : list xmlNode) (md : ra_metadata_s)
    : ra_metadata_s :=
  match actions with
  | [] => md
  | action :: rest =>
      if pcmk__str_eq (crm_element_value action "name") (Some "reload"%string)
           [pcmk__str_casei]
      then controld_set_ra_flags md ra_supports_reload
      else check_actions rest md
  end.

(** The loop over the parameters: the list built so far and the flag
    [any_private_params]; [None] is the jump to [err]. *)
Fixpoint build_params `{lib : AgentLib} (params : list xmlNode)
    (ra_params : list ra_param_s) (any_private_params : bool)
    : option (list ra_param_s * bool) :=
  match params with
  | [] => Some (ra_params, any_private_params)
  | param :: rest =>
      match crm_element_value param "name" with
      | None => build_params rest ra_params any_private_params
      | Some _ =>
          match ra_param_from_xml param with
          | None => None
          | Some p =>
              build_params rest (p :: ra_params)
                (if pcmk_all_flags_set (rap_flags p) ra_param_private
                 then true else any_private_params)
          end
      end
  end.

(** The loop that marks the common names of sensitive parameters. *)
Definition mark_common_private (ra_params : list ra_param_s) : list ra_param_s :=
  map (fun p =>
         if pcmk__str_any_of (Some (rap_name p))
              ["password"%string; "passwd"%string; "user"%string]
         then controld_set_ra_param_flags p ra_param_private else p)
      ra_params.

(** [metadata_cache_update].  [versioned] is the build option
    [ENABLE_VERSIONED_ATTRS].  The result is the record returned ([None] for
    [NULL]) and the table afterwards. *)
Definition metadata_cache_update `{lib : AgentLib} (versioned : bool)
    (mdc : option cache) (rsc : option lrmd_rsc_info_t)
    (metadata_str : option string) : option ra_metadata_s * option cache :=
  match mdc, rsc, metadata_str with
  | Some table, Some rsc, Some metadata_str =>
      match crm_generate_ra_key (rsc_standard rsc) (rsc_provider rsc) (rsc_type rsc) with
      | None => (None, mdc)
      | Some key =>
          match string2xml metadata_str with
          | None => (None, mdc)
          | Some metadata =>
              let md := RaMetadata None [] 0 in
              let md :=
                if versioned
                then RaMetadata (Some (ra_version_from_xml metadata))
                       (ra_params md) (ra_flags md)
                else md in
              let md :=
                check_actions
                  (named_children (first_named_child metadata "actions") "action")
                  md in
              match build_params
                      (named_children (first_named_child metadata "parameters")
                         "parameter")
                      (ra_params md) false with
              | None => (None, mdc)
              | Some (params, any_private_params) =>
                  let params :=
                    if negb any_private_params then mark_common_private params
                    else params in
                  let md := RaMetadata (ra_version md) params (ra_flags md) in
                  (Some md, Some (<[key := md]> table))
              end
          end
      end
  | _, _, _ => (None, mdc)
  end.

(** [metadata_cache_get] *)
Definition metadata_cache_get `{lib : AgentLib} (mdc : option cache)
    (rsc : option lrmd_rsc_info_t) : option ra_metadata_s :=
  match mdc, rsc with
  | Some table, Some rsc =>
      match crm_generate_ra_key (rsc_standard rsc) (rsc_provider rsc) (rsc_type rsc) with
      | Some key => table !! key
      | None => None
      end
  | _, _ => None
  end.

End Metadata.

(** ** A concrete library for examples

    The properties below hold for every implementation of [Iso8601] and
    [Strings].  The examples run the evaluator on one concrete
    implementation: instants are written as a decimal count of seconds since
    1970-01-01 00:00:00 UTC and decomposed with the proleptic Gregorian
    calendar, numbers are decimal numerals, ranges follow the range syntax of
    the specification. *)
Module Fixture.

(** Scan an unsigned decimal numeral at the start of [s]: its value and
    what follows it. *)
Fixpoint scan_digits (s : string) (acc : Z) : Z * string :=
  match s with
  | String c rest =>
      if isdigit c then scan_digits rest (10 * acc + (char_code c - 48))
      else (acc, s)
  | EmptyString => (acc, s)
  end.

Definition starts_with_digit (s : string) : bool :=
  match s with
  | String c _ => isdigit c
  | EmptyString => false
  end.

(** An optionally signed decimal numeral at the start of [s]. *)
Definition scan_signed (s : string) : option (Z * string) :=
  match s with
  | String "-" rest =>
      if starts_with_digit rest
      then let '(v, tail) := scan_digits rest 0 in Some (- v, tail)
      else None
  | String "+" rest =>
      if starts_with_digit rest then Some (scan_digits rest 0) else None
  | _ => if starts_with_digit s then Some (scan_digits s 0) else None
  end.

Definition LLONG_MIN : Z := - 2 ^ 63.
Definition LLONG_MAX : Z := 2 ^ 63 - 1.

(** Modelled from the spec: scanning a signed 64-bit integer.  A string
    that is not set gives the default; a string without digits or a value
    outside of the 64-bit range is an error. *)
Definition scan_ll (text : option string) (default_value : Z) : pcmk_rc * Z :=
  match text with
  | None => (pcmk_rc_ok, default_value)
  | Some s =>
      match scan_signed s with
      | None => (EINVAL, default_value)
      | Some (v, _) =>
          if v <? LLONG_MIN then (ERANGE, LLONG_MIN)
          else if v >? LLONG_MAX then (ERANGE, LLONG_MAX)
          else (pcmk_rc_ok, v)
      end
  end.

(** Modelled from the spec: "a single integer N (low=high=N); a bounded
    pair N-M; an open-low -M or open-high N- (unbounded side accepts any
    value)"; a pair needs low <= high; anything else is malformed. *)
Definition parse_ll_range (srcstring : string) : option (Z * Z) :=
  match srcstring with
  | EmptyString => None
  | String "-" rest =>
      if starts_with_digit rest then
        match scan_digits rest 0 with
        | (high, EmptyString) => Some (-1, high)
        | _ => None
        end
      else None
  | _ =>
      if starts_with_digit srcstring then
        match scan_digits srcstring 0 with
        | (low, EmptyString) => Some (low, low)
        | (low, String "-" EmptyString) => Some (low, -1)
        | (low, String "-" more) =>
            if starts_with_digit more then
              match scan_digits more 0 with
              | (high, EmptyString) =>
                  if low <=? high then Some (low, high) else None
              | _ => None
              end
            else None
        | _ => None
        end
      else None
  end.

(** Dotted-numeric versions, component by component, a missing trailing
    component counting as zero. *)
Fixpoint version_components (fuel : nat) (s : string) : list Z :=
  match fuel with
  | O => []
  | S fuel' =>
      match scan_digits s 0 with
      | (v, String "." rest) => v :: version_components fuel' rest
      | (v, _) => [v]
      end
  end.

Fixpoint compare_components (l r : list Z) {struct l} : Z :=
  match l, r with
  | [], _ => if existsb (Z.ltb 0) r then -1 else 0
  | _ :: _, [] => if existsb (Z.ltb 0) l then 1 else 0
  | x :: l', y :: r' =>
      if x <? y then -1 else if y <? x then 1 else compare_components l' r'
  end.

Definition version_cmp (l r : string) : Z :=
  compare_components (version_components (S (String.length l)) l)
                     (version_components (S (String.length r)) r).

(** Days since 1970-01-01 of a date of the proleptic Gregorian calendar,
    and back. *)
Definition days_from_civil (y m d : Z) : Z :=
  let y := if m <=? 2 then y - 1 else y in
  let era := y / 400 in
  let yoe := y - era * 400 in
  let mp := if m >? 2 then m - 3 else m + 9 in
  let doy := (153 * mp + 2) / 5 + d - 1 in
  let doe := yoe * 365 + yoe / 4 - yoe / 100 + doy in
  era * 146097 + doe - 719468.

Definition civil_from_days (z : Z) : Z * Z * Z :=
  let z := z + 719468 in
  let era := z / 146097 in
  let doe := z - era * 146097 in
  let yoe := (doe - doe / 1460 + doe / 36524 - doe / 146096) / 365 in
  let doy := doe - (365 * yoe + yoe / 4 - yoe / 100) in
  let mp := (5 * doy + 2) / 153 in
  let d := doy - (153 * mp + 2) / 5 + 1 in
  let m := if mp <? 10 then mp + 3 else mp - 9 in
  let y := yoe + era * 400 in
  (if m <=? 2 then y + 1 else y, m, d).

Definition gregorian (t : Z) : Z * Z * Z := civil_from_days (t / 86400).

Definition timeofday (t : Z) : Z * Z * Z :=
  let s := t mod 86400 in (s / 3600, (s mod 3600) / 60, s mod 60).

Definition ordinal (t : Z) : Z * Z :=
  let days := t / 86400 in
  let '(y, _, _) := civil_from_days days in
  (y, days - days_from_civil y 1 1 + 1).

Definition weeks_in_year (y : Z) : Z :=
  let p := fun y => (y + y / 4 - y / 100 + y / 400) mod 7 in
  if (p y =? 4) || (p (y - 1) =? 3) then 53 else 52.

(** ISO 8601 week date: Monday is day 1. *)
Definition isoweek (t : Z) : Z * Z * Z :=
  let days := t / 86400 in
  let '(y, yd) := ordinal t in
  let wd := (days + 3) mod 7 + 1 in
  let w := (yd - wd + 10) / 7 in
  if w <? 1 then (y - 1, weeks_in_year (y - 1), wd)
  else if w >? weeks_in_year y then (y + 1, 1, wd)
  else (y, w, wd).

Definition days_in_month (y m : Z) : Z :=
  let '(y', m') := if m =? 12 then (y + 1, 1) else (y, m + 1) in
  days_from_civil y' m' 1 - days_from_civil y m 1.

(** Adding months keeps the day of the month, or takes the last day of a
    shorter month. *)
Definition add_months (t : Z) (months : Z) : Z :=
  let '(y, m, d) := gregorian t in
  let total := y * 12 + (m - 1) + months in
  let y' := total / 12 in
  let m' := total mod 12 + 1 in
  let d' := Z.min d (days_in_month y' m') in
  days_from_civil y' m' d' * 86400 + t mod 86400.

Definition add (component : pcmk__time_component) (t value : Z) : Z :=
  match component with
  | pcmk__time_years => add_months t (12 * value)
  | pcmk__time_months => add_months t value
  | pcmk__time_weeks => t + 604800 * value
  | pcmk__time_days => t + 86400 * value
  | pcmk__time_hours => t + 3600 * value
  | pcmk__time_minutes => t + 60 * value
  | pcmk__time_seconds => t + value
  end.

(** An instant written as seconds since the epoch. *)
Definition time_new (s : string) : option Z :=
  match scan_signed s with
  | Some (t, EmptyString) => Some t
  | _ => None
  end.

Definition iso8601 : Iso8601 := {|
  crm_time_new := time_new;
  crm_time_get_gregorian := gregorian;
  crm_time_get_timeofday := timeofday;
  crm_time_get_ordinal := ordinal;
  crm_time_get_isoweek := isoweek;
  crm_time_add := add
|}.

(** Numbers of the fixture are whole: [double] is [Z]. *)
Definition strings : Strings := {|
  pcmk__scan_ll := scan_ll;
  pcmk__parse_ll_range := parse_ll_range;
  double := Z;
  double_lt := Z.ltb;
  pcmk__scan_double := fun s => scan_ll (Some s) 0;
  compare_version := version_cmp
|}.

(** An element without parent and children. *)
Definition element (name : string) (attrs : list (string * string)) : xmlNode :=
  XmlNode name (list_to_map attrs) None [].

(** 2024-06-15 12:30:45 UTC, a Saturday. *)
Definition june_15 : Z := 1718454645.

(** The submatches of "db-prod" for a pattern with one group that
    captured "prod". *)
Definition db_prod_submatches : list regmatch_t := [Regmatch 0 7; Regmatch 3 7].

(** A duration of one year and two hours whose months and minutes are
    not numbers. *)
Definition year_and_hours : xmlNode :=
  element "duration"
    [("id", "d1"); ("years", "1"); ("months", "many"); ("hours", "2");
     ("minutes", "few")].

(** A date specification whose months are malformed and whose hours
    start after [june_15]. *)
Definition bad_months_late_hours : xmlNode :=
  element "date_spec" [("id", "ds"); ("months", "x-y"); ("hours", "13-17")].

(** Date expressions with start 1000 and nothing else: [gt], [in_range],
    and one without operation. *)
Definition in_range_1000 : xmlNode :=
  element "date_expression"
    [("id", "e-in"); ("operation", "in_range"); ("start", "1000")].

Definition no_op_1000 : xmlNode :=
  element "date_expression" [("id", "e-none"); ("start", "1000")].

Definition gt_1000 : xmlNode :=
  element "date_expression" [("id", "e-gt"); ("operation", "gt"); ("start", "1000")].

End Fixture.

(** ** Notions of the specification *)

(** "A component may only lower a caller-supplied hint, never raise it":
    [after] is the hint [before] or an earlier instant; an unset hint may
    become any instant; a hint object neither appears nor disappears. *)
Definition hint_not_raised (before after : next_change_t) : bool :=
  match before, after with
  | Some (Some h), Some (Some h') => h' <=? h
  | Some None, Some _ => true
  | None, None => true
  | _, _ => false
  end.

(** [crm_xml_add] on the operation attribute: the same element with its
    operation set to [op]. *)
Definition with_operation (expr : xmlNode) (op : string) : xmlNode :=
  XmlNode (xml_name expr) (<[PCMK_XA_OPERATION := op]> (xml_properties expr))
          (xml_parent expr) (xml_children expr).

(** The operation of the element is set and is none of [in_range],
    [date_spec], [gt], [lt] in any case of the letters. *)
Definition unrecognized_operation (expr : xmlNode) : bool :=
  let op := crm_element_value expr PCMK_XA_OPERATION in
  negb (pcmk__str_eq op (Some PCMK_VALUE_IN_RANGE)
          [pcmk__str_null_matches; pcmk__str_casei])
  && negb (pcmk__str_eq op (Some PCMK_VALUE_DATE_SPEC) [pcmk__str_casei])
  && negb (pcmk__str_eq op (Some PCMK_VALUE_GT) [pcmk__str_casei])
  && negb (pcmk__str_eq op (Some PCMK_VALUE_LT) [pcmk__str_casei]).

(** One evaluation after the other, the second on the hint the first
    left. *)
Definition then_evaluate (first : outcome (pcmk_rc * option (option Z)))
    (second : option (option Z) -> outcome (pcmk_rc * option (option Z)))
    : outcome (pcmk_rc * option (option Z)) :=
  match first with
  | Returns r => second (snd r)
  | Undefined => Undefined
  end.

(** The component of an instant a field of a date specification is about:
    years, the year (of the ordinal date, which the source notes is the
    Gregorian year once more); months and month-days, the month and the day
    of the Gregorian date; hours, minutes and seconds, the time of day;
    year-days, the day of the ordinal date; week-years, weeks and week-days,
    the ISO week date; moon, the phase of the moon.  Components are
    [uint32_t]. *)
Definition now_component `{iso : Iso8601} (now : crm_time_t) (field : string) : Z :=
  if bool_decide (field = PCMK_XA_YEARS) then u32 (fst (crm_time_get_ordinal now))
  else if bool_decide (field = PCMK_XA_MONTHS)
  then u32 (snd (fst (crm_time_get_gregorian now)))
  else if bool_decide (field = PCMK_XA_MONTHDAYS)
  then u32 (snd (crm_time_get_gregorian now))
  else if bool_decide (field = PCMK_XA_HOURS)
  then u32 (fst (fst (crm_time_get_timeofday now)))
  else if bool_decide (field = PCMK_XA_MINUTES)
  then u32 (snd (fst (crm_time_get_timeofday now)))
  else if bool_decide (field = PCMK_XA_SECONDS)
  then u32 (snd (crm_time_get_timeofday now))
  else if bool_decide (field = PCMK_XA_YEARDAYS)
  then u32 (snd (crm_time_get_ordinal now))
  else if bool_decide (field = PCMK_XA_WEEKYEARS)
  then u32 (fst (fst (crm_time_get_isoweek now)))
  else if bool_decide (field = PCMK_XA_WEEKS)
  then u32 (snd (fst (crm_time_get_isoweek now)))
  else if bool_decide (field = PCMK_XA_WEEKDAYS)
  then u32 (snd (crm_time_get_isoweek now))
  else if bool_decide (field = PCMK__XA_MOON) then u32 (phase_of_the_moon now)
  else 0.

(** The fields of a date specification in the order the specification
    gives for their evaluation. *)
Definition date_spec_fields : list string :=
  [ PCMK_XA_YEARS; PCMK_XA_MONTHS; PCMK_XA_MONTHDAYS; PCMK_XA_HOURS;
    PCMK_XA_MINUTES; PCMK_XA_SECONDS; PCMK_XA_YEARDAYS; PCMK_XA_WEEKYEARS;
    PCMK_XA_WEEKS; PCMK_XA_WEEKDAYS; PCMK__XA_MOON ].

(** "Range: (low, high), each an optional non-negative integer; absence
    means unbounded on that side": the range of a field, when the field is
    present and its syntax is valid. *)
Definition field_range `{strs : Strings} (date_spec : xmlNode) (field : string)
    : option (option Z * option Z) :=
  match crm_element_value date_spec field with
  | Some text =>
      match pcmk__parse_ll_range text with
      | Some (low, high) =>
          Some (if low =? -1 then None else Some low,
                if high =? -1 then None else Some high)
      | None => None
      end
  | None => None
  end.

(** "Value below a present low: before_range; value above a present high:
    after_range; otherwise continue."  [None] when the field is absent, its
    range is malformed, or the value is inside the range. *)
Definition field_violation `{strs : Strings} (date_spec : xmlNode) (r : range)
    : option pcmk_rc :=
  match field_range date_spec (attr r) with
  | Some (low, high) =>
      if match low with Some l => value r <? l | None => false end
      then Some pcmk_rc_before_range
      else if match high with Some h => h <? value r | None => false end
      then Some pcmk_rc_after_range
      else None
  | None => None
  end.

(** The verdict of the first present-and-violated field, [ok] without
    one. *)
Definition first_violation `{strs : Strings} (date_spec : xmlNode) (fields : list range)
    : pcmk_rc :=
  default pcmk_rc_ok (head (omap (field_violation date_spec) fields)).

(** The entry of [ranges] for one field. *)
Definition date_spec_field `{iso : Iso8601} (now : crm_time_t) (field : string) : range :=
  default (Range field 0)
    (List.find (fun r => bool_decide (attr r = field)) (date_spec_ranges now)).

(** The template holds a placeholder: a [%] directly followed by a
    digit. *)
Fixpoint has_placeholder (template : string) : bool :=
  match template with
  | String c rest =>
      match rest with
      | String d _ =>
          (bool_decide (c = "%"%char) && isdigit d) || has_placeholder rest
      | EmptyString => false
      end
  | EmptyString => false
  end.

(** The text group [k] contributes: "a placeholder whose group index is at
    least group_count, or whose group did not participate in the match, or
    whose captured range is empty, expands to nothing"; any other group
    contributes the captured part of the matched string. *)
Definition group_text (matched : string) (submatches : list regmatch_t)
    (nmatches : Z) (k : Z) : string :=
  let m := submatch_at submatches k in
  if (nmatches <=? k) || (rm_so m <? 0) || (rm_eo m <=? rm_so m) then ""
  else substring (Z.to_nat (rm_so m)) (Z.to_nat (rm_eo m - rm_so m)) matched.

(** The expansion the specification describes: a placeholder becomes the
    text of its group, every other character is copied. *)
Fixpoint expand_template (template matched : string)
    (submatches : list regmatch_t) (nmatches : Z) : string :=
  match template with
  | String c rest =>
      match rest with
      | String d rest' =>
          if bool_decide (c = "%"%char) && isdigit d
          then group_text matched submatches nmatches (char_code d - char_code "0")
               +:+ expand_template rest' matched submatches nmatches
          else String c (expand_template rest matched submatches nmatches)
      | EmptyString => String c ""
      end
  | EmptyString => ""
  end.

(** The components of a duration, largest unit first. *)
Definition duration_components : list pcmk__time_component :=
  [ pcmk__time_years; pcmk__time_months; pcmk__time_weeks; pcmk__time_days;
    pcmk__time_hours; pcmk__time_minutes; pcmk__time_seconds ].

(** The value a duration gives to a component, or the error that makes the
    component invalid: it does not scan as an integer, or it lies outside of
    the range of [int]. *)
Definition component_value `{strs : Strings} (duration : xmlNode)
    (component : pcmk__time_component) : pcmk_rc + Z :=
  let '(rc, v) :=
    pcmk__scan_ll (crm_element_value duration (pcmk__time_component_attr component)) 0 in
  if bool_decide (rc = pcmk_rc_ok) then
    if (INT_MIN <=? v) && (v <=? INT_MAX) then inr v else inl ERANGE
  else inl pcmk_rc_unpack_error.

(** The best-effort end: the valid components of the list added one after
    the other, the invalid ones skipped. *)
Definition best_effort_end `{iso : Iso8601} `{strs : Strings} (duration : xmlNode)
    (components : list pcmk__time_component) (start : crm_time_t) : crm_time_t :=
  fold_left
    (fun t component =>
       match component_value duration component with
       | inr v => crm_time_add component t v
       | inl _ => t
       end)
    components start.

(** The invalid components of the list with their errors, in order. *)
Definition component_errors `{strs : Strings} (duration : xmlNode)
    (components : list pcmk__time_component)
    : list (pcmk__time_component * pcmk_rc) :=
  omap
    (fun component =>
       match component_value duration component with
       | inl e => Some (component, e)
       | inr _ => None
       end)
    components.

(** The bytes of a C string in lower case: what [strcasecmp] looks at.  The
    string ends at its first NUL byte. *)
Fixpoint c_str_lower (s : string) : list Z :=
  match s with
  | EmptyString => []
  | String c rest =>
      if char_code c =? 0 then [] else tolower c :: c_str_lower rest
  end.

(** The string holds a NUL byte (no C string does). *)
Fixpoint has_nul (s : string) : bool :=
  match s with
  | EmptyString => false
  | String c rest => (char_code c =? 0) || has_nul rest
  end.

(** The text of a comparison operator; [pcmk__comparison_unknown] has
    none. *)
Definition comparison_name (c : pcmk__comparison) : option string :=
  match c with
  | pcmk__comparison_unknown => None
  | pcmk__comparison_defined => Some PCMK_VALUE_DEFINED
  | pcmk__comparison_undefined => Some PCMK_VALUE_NOT_DEFINED
  | pcmk__comparison_eq => Some PCMK_VALUE_EQ
  | pcmk__comparison_ne => Some PCMK_VALUE_NE
  | pcmk__comparison_lt => Some PCMK_VALUE_LT
  | pcmk__comparison_lte => Some PCMK_VALUE_LTE
  | pcmk__comparison_gt => Some PCMK_VALUE_GT
  | pcmk__comparison_gte => Some PCMK_VALUE_GTE
  end.

(** The text of a value type; [pcmk__type_unknown] has none. *)
Definition type_name (t : pcmk__type) : option string :=
  match t with
  | pcmk__type_unknown => None
  | pcmk__type_string => Some PCMK_VALUE_STRING
  | pcmk__type_integer => Some PCMK_VALUE_INTEGER
  | pcmk__type_number => Some PCMK_VALUE_NUMBER
  | pcmk__type_version => Some PCMK_VALUE_VERSION
  end.

(** The ordering operators. *)
Definition is_ordering (op : pcmk__comparison) : bool :=
  match op with
  | pcmk__comparison_lt | pcmk__comparison_lte
  | pcmk__comparison_gt | pcmk__comparison_gte => true
  | _ => false
  end.

(** The last character of the string is [%]. *)
Fixpoint ends_with_percent (s : string) : bool :=
  match s with
  | EmptyString => false
  | String c EmptyString => bool_decide (c = "%"%char)
  | String _ rest => ends_with_percent rest
  end.

(** The first character of the string is a digit. *)
Definition begins_with_digit (s : string) : bool :=
  match s with
  | String c _ => isdigit c
  | EmptyString => false
  end.

(** Examples for the metadata cache: keys of the form
    standard:provider:type, boolean texts [true] and [1], and a parser that
    knows one document, the metadata of an agent with a reload action and
    the parameters [ip] (unique), [password] and one without name. *)
Module AgentFixture.

Definition ra_key (standard : string) (provider : option string) (type : string)
    : option string :=
  Some (standard +:+ match provider with
                     | Some p => ":" +:+ p
                     | None => ""
                     end +:+ ":" +:+ type).

Definition is_true (s : option string) : bool :=
  match s with
  | Some v => (strcasecmp v "true" =? 0) || (strcasecmp v "1" =? 0)
  | None => false
  end.

Definition leaf (name : string) (attrs : list (string * string)) : xmlNode :=
  XmlNode name (list_to_map attrs) None [].

Definition agent_metadata : xmlNode :=
  XmlNode "resource-agent" (list_to_map [("name", "IPaddr2"); ("version", "1.0")]) None
    [ XmlNode "parameters" ∅ None
        [ leaf "parameter" [("name", "ip"); ("unique", "1")];
          leaf "parameter" [("unique", "1")];
          leaf "parameter" [("name", "password")] ];
      XmlNode "actions" ∅ None
        [ leaf "action" [("name", "start")];
          leaf "action" [("name", "Reload")] ] ].

Definition agent_metadata_text : string := "<resource-agent name=IPaddr2>".

Definition parse (text : string) : option xmlNode :=
  if bool_decide (text = agent_metadata_text) then Some agent_metadata else None.

Definition lib : Metadata.AgentLib := {|
  Metadata.crm_generate_ra_key := ra_key;
  Metadata.string2xml := parse;
  Metadata.crm_is_true := is_true
|}.

Definition ipaddr2 : Metadata.lrmd_rsc_info_t :=
  Metadata.RscInfo "ocf" (Some "heartbeat"%string) "IPaddr2".

Definition dummy : Metadata.lrmd_rsc_info_t :=
  Metadata.RscInfo "ocf" (Some "pacemaker"%string) "Dummy".

(** The record of [agent_metadata]: version 1.0, the parameters in
    reverse order with [password] marked private, reload supported. *)
Definition ipaddr2_record : Metadata.ra_metadata_s :=
  Metadata.RaMetadata (Some "1.0"%string)
    [Metadata.RaParam "password" 2; Metadata.RaParam "ip" 1] 1.

End AgentFixture.

(** The notions used to describe a cache record: the parameter and action
    elements of the metadata, the parameters the metadata declares (those
    with a name), the record built from them. *)
Definition parameter_elements (metadata : xmlNode) : list xmlNode :=
  Metadata.named_children (first_named_child metadata "parameters") "parameter".

Definition action_elements (metadata : xmlNode) : list xmlNode :=
  Metadata.named_children (first_named_child metadata "actions") "action".

Definition declared_params `{lib : Metadata.AgentLib} (metadata : xmlNode)
    : list Metadata.ra_param_s :=
  omap Metadata.ra_param_from_xml (parameter_elements metadata).

Definition is_private (p : Metadata.ra_param_s) : bool :=
  Metadata.pcmk_all_flags_set (Metadata.rap_flags p) Metadata.ra_param_private.

Definition is_unique (p : Metadata.ra_param_s) : bool :=
  Metadata.pcmk_all_flags_set (Metadata.rap_flags p) Metadata.ra_param_unique.

Definition names_reload (action : xmlNode) : bool :=
  pcmk__str_eq (crm_element_value action "name") (Some "reload"%string)
    [pcmk__str_casei].

Definition agent_record `{lib : Metadata.AgentLib} (versioned : bool)
    (metadata : xmlNode) : Metadata.ra_metadata_s :=
  Metadata.RaMetadata
    (if versioned then Some (Metadata.ra_version_from_xml metadata) else None)
    (if existsb is_private (declared_params metadata)
     then reverse (declared_params metadata)
     else Metadata.mark_common_private (reverse (declared_params metadata)))
    (if existsb names_reload (action_elements metadata)
     then Metadata.ra_supports_reload else 0).

(** More date expressions for the examples. *)
Module Fixture2.

Definition window_1000_2000 : xmlNode :=
  Fixture.element "date_expression"
    [("id", "e-win"); ("operation", "in_range"); ("start", "1000"); ("end", "2000")].

Definition until_2000 : xmlNode :=
  Fixture.element "date_expression"
    [("id", "e-until"); ("operation", "in_range"); ("end", "2000")].

Definition lt_2000 : xmlNode :=
  Fixture.element "date_expression"
    [("id", "e-lt"); ("operation", "lt"); ("end", "2000")].

Definition upper_gt_1000 : xmlNode :=
  Fixture.element "date_expression"
    [("id", "e-GT"); ("operation", "GT"); ("start", "1000")].

Definition between_1000_2000 : xmlNode :=
  Fixture.element "date_expression"
    [("id", "e-btw"); ("operation", "between"); ("start", "1000"); ("end", "2000")].

Definition gt_without_start : xmlNode :=
  Fixture.element "date_expression" [("id", "e-gt0"); ("operation", "gt")].

Definition duration_only : xmlNode :=
  XmlNode "date_expression"
    (list_to_map [("id", "e-dur"); ("operation", "in_range")]) None
    [Fixture.year_and_hours].

(** Start 1000 (1970-01-01 00:16:40), an end that is no instant, and a
    duration of one year and two hours with two invalid components. *)
Definition start_and_duration : xmlNode :=
  XmlNode "date_expression"
    (list_to_map [("id", "e-sd"); ("operation", "in_range"); ("start", "1000");
                  ("end", "tomorrow")]) None
    [Fixture.year_and_hours].

(** Only months "6-8". *)
Definition summer : xmlNode :=
  Fixture.element "date_spec" [("id", "summer"); ("months", "6-8")].

End Fixture2.

(** * Properties *)

(** ** The fixture computes *)

Example fixture_gregorian : Fixture.gregorian Fixture.june_15 = (2024, 6, 15).
Proof. reflexivity. Qed.
Example fixture_timeofday : Fixture.timeofday Fixture.june_15 = (12, 30, 45).
Proof. reflexivity. Qed.
Example fixture_ordinal : Fixture.ordinal Fixture.june_15 = (2024, 167).
Proof. reflexivity. Qed.
Example fixture_isoweek : Fixture.isoweek Fixture.june_15 = (2024, 24, 6).
Proof. reflexivity. Qed.
Example fixture_add_month :
  Fixture.gregorian (Fixture.add_months (Fixture.days_from_civil 2023 1 31 * 86400) 1)
  = (2023, 2, 28).
Proof. reflexivity. Qed.
Example fixture_ranges :
  map Fixture.parse_ll_range ["6-8"; "7"; "-5"; "9-"; "8-6"; "x"; "-"; ""]
  = [Some (6, 8); Some (7, 7); Some (-1, 5); Some (9, -1); None; None; None; None].
Proof. reflexivity. Qed.
Example fixture_version : Fixture.version_cmp "1.2" "1.2.0" = 0
  /\ Fixture.version_cmp "1.10" "1.9" = 1.
Proof. split; reflexivity. Qed.

(** ** Helper facts *)

Lemma crm_time_compare_gt (a b : Z) : (crm_time_compare a b >? 0) = (b <? a).
Proof.
  unfold crm_time_compare. destruct (Z.compare_spec a b); simpl; symmetry.
  - apply Z.ltb_ge. lia.
  - apply Z.ltb_ge. lia.
  - apply Z.ltb_lt. lia.
Qed.

Lemma crm_time_compare_lt (a b : Z) : (crm_time_compare a b <? 0) = (a <? b).
Proof.
  unfold crm_time_compare. destruct (Z.compare_spec a b); simpl; symmetry.
  - apply Z.ltb_ge. lia.
  - apply Z.ltb_lt. lia.
  - apply Z.ltb_ge. lia.
Qed.

(** ** Date expressions: [gt] *)

Section GreaterThan.
Context `{iso : Iso8601} `{strs : Strings}.

(** [evaluate_gt] once the start instant is known. *)
Lemma evaluate_gt_start expr id now nc (start : Z) :
  pcmk__xe_get_datetime expr PCMK_XA_START = (pcmk_rc_ok, Some start) ->
  evaluate_gt expr id now nc =
    if start <? now then (pcmk_rc_within_range, nc)
    else (pcmk_rc_before_range,
          pcmk__set_time_if_earlier nc (Some (crm_time_add_seconds start 1))).
Proof.
  intros Hstart. unfold evaluate_gt. rewrite Hstart. simpl.
  rewrite crm_time_compare_gt. reflexivity.
Qed.

(** The dispatch on an operation attribute that reads [gt]. *)
Lemma date_expression_gt expr now nc :
  crm_element_value expr PCMK_XA_OPERATION = Some PCMK_VALUE_GT ->
  pcmk__evaluate_date_expression (Some expr) (Some now) nc
  = Returns (evaluate_gt expr (loggable_id expr) now nc).
Proof.
  intros Hop. unfold pcmk__evaluate_date_expression. rewrite Hop. reflexivity.
Qed.

(** C1: a [gt] expression with a valid start instant [start] is within range
    exactly when [now] is strictly after [start]; otherwise it is before range
    and [start] plus one second is the candidate merged into the next-change
    hint.  At [now = start] with an unset hint the result is before range with
    hint [start + 1]; at [now = start + 1] it is within range. *)
Theorem gt_strictly_after_start expr now nc (start : Z) :
  crm_element_value expr PCMK_XA_OPERATION = Some PCMK_VALUE_GT ->
  pcmk__xe_get_datetime expr PCMK_XA_START = (pcmk_rc_ok, Some start) ->
  (verdict_of (pcmk__evaluate_date_expression (Some expr) (Some now) nc)
     = Returns pcmk_rc_within_range <-> start < now)
  /\ (start < now ->
      pcmk__evaluate_date_expression (Some expr) (Some now) nc
      = Returns (pcmk_rc_within_range, nc))
  /\ (now <= start ->
      pcmk__evaluate_date_expression (Some expr) (Some now) nc
      = Returns (pcmk_rc_before_range,
                 pcmk__set_time_if_earlier nc (Some (crm_time_add_seconds start 1))))
  /\ pcmk__evaluate_date_expression (Some expr) (Some start) (Some None)
     = Returns (pcmk_rc_before_range, Some (Some (crm_time_add_seconds start 1)))
  /\ verdict_of (pcmk__evaluate_date_expression (Some expr)
                   (Some (crm_time_add_seconds start 1)) nc)
     = Returns pcmk_rc_within_range.
Proof.
  intros Hop Hstart.
  assert (Heval : forall t h,
    pcmk__evaluate_date_expression (Some expr) (Some t) h =
      Returns
        (if start <? t then (pcmk_rc_within_range, h)
         else (pcmk_rc_before_range,
               pcmk__set_time_if_earlier h (Some (crm_time_add_seconds start 1))))).
  { intros t h. rewrite (date_expression_gt _ _ _ Hop). f_equal.
    apply evaluate_gt_start. exact Hstart. }
  repeat split.
  - rewrite Heval. destruct (Z.ltb_spec start now); simpl; [lia | discriminate].
  - intros Hlt. rewrite Heval. apply Z.ltb_lt in Hlt. rewrite Hlt. reflexivity.
  - intros Hlt. rewrite Heval. apply Z.ltb_lt in Hlt. rewrite Hlt. reflexivity.
  - intros Hle. rewrite Heval. apply Z.ltb_ge in Hle. rewrite Hle. reflexivity.
  - rewrite Heval, Z.ltb_irrefl. reflexivity.
  - rewrite Heval. unfold crm_time_add_seconds.
    replace (start <? start + 1) with true by (symmetry; apply Z.ltb_lt; lia).
    reflexivity.
Qed.

End GreaterThan.

Lemma gt_strictly_after_start_witness :
  pcmk__evaluate_date_expression (iso := Fixture.iso8601) (strs := Fixture.strings)
    (Some Fixture.gt_1000) (Some 1000) (Some None)
  = Returns (pcmk_rc_before_range, Some (Some 1001))
  /\ verdict_of (pcmk__evaluate_date_expression (iso := Fixture.iso8601)
                   (strs := Fixture.strings)
                   (Some Fixture.gt_1000) (Some 1001) (Some None))
     = Returns pcmk_rc_within_range.
Proof.
  pose proof (@gt_strictly_after_start Fixture.iso8601 Fixture.strings
                Fixture.gt_1000 1000 (Some None) 1000 eq_refl eq_refl)
    as (_ & _ & _ & Hat & Hnext).
  split; [exact Hat | exact Hnext].
Defined.

(** ** Date expressions: [in_range] with only a start *)

Section InRangeStartOnly.
Context `{iso : Iso8601} `{strs : Strings}.

Lemma date_expression_in_range expr now nc :
  crm_element_value expr PCMK_XA_OPERATION = Some PCMK_VALUE_IN_RANGE ->
  pcmk__evaluate_date_expression (Some expr) (Some now) nc
  = Returns (evaluate_in_range expr (loggable_id expr) now nc).
Proof.
  intros Hop. unfold pcmk__evaluate_date_expression. rewrite Hop. reflexivity.
Qed.

Lemma xe_get_datetime_unset expr attr :
  crm_element_value expr attr = None ->
  pcmk__xe_get_datetime expr attr = (pcmk_rc_ok, None).
Proof. intros Hunset. unfold pcmk__xe_get_datetime. rewrite Hunset. reflexivity. Qed.

(** With a start, no end and no duration, only the lower bound is
    tested, and it belongs to the range. *)
Lemma evaluate_in_range_start_only expr id now nc (start : Z) :
  pcmk__xe_get_datetime expr PCMK_XA_START = (pcmk_rc_ok, Some start) ->
  crm_element_value expr PCMK_XA_END = None ->
  first_named_child expr PCMK_XE_DURATION = None ->
  evaluate_in_range expr id now nc =
    if now <? start
    then (pcmk_rc_before_range, pcmk__set_time_if_earlier nc (Some start))
    else (pcmk_rc_within_range, nc).
Proof.
  intros Hstart Hend Hduration. unfold evaluate_in_range.
  rewrite Hstart, (xe_get_datetime_unset _ _ Hend), Hduration.
  rewrite crm_time_compare_lt. reflexivity.
Qed.

(** C3 (amended): an [in_range] expression with a valid start [start] and
    neither an end nor a duration is before range when [now < start] and
    within range from [start] on.  Its verdict is that of the [gt]
    expression with the same start at every [now] other than [start]; at
    [now = start] it is within range where [gt] is before range.  It is
    never after range. *)
Theorem in_range_start_only_vs_gt e_in e_gt now nc (start : Z) :
  crm_element_value e_in PCMK_XA_OPERATION = Some PCMK_VALUE_IN_RANGE ->
  pcmk__xe_get_datetime e_in PCMK_XA_START = (pcmk_rc_ok, Some start) ->
  crm_element_value e_in PCMK_XA_END = None ->
  first_named_child e_in PCMK_XE_DURATION = None ->
  crm_element_value e_gt PCMK_XA_OPERATION = Some PCMK_VALUE_GT ->
  pcmk__xe_get_datetime e_gt PCMK_XA_START = (pcmk_rc_ok, Some start) ->
  verdict_of (pcmk__evaluate_date_expression (Some e_in) (Some now) nc)
    = Returns (if now <? start then pcmk_rc_before_range else pcmk_rc_within_range)
  /\ (now <> start ->
      verdict_of (pcmk__evaluate_date_expression (Some e_in) (Some now) nc)
      = verdict_of (pcmk__evaluate_date_expression (Some e_gt) (Some now) nc))
  /\ verdict_of (pcmk__evaluate_date_expression (Some e_in) (Some start) nc)
     = Returns pcmk_rc_within_range
  /\ verdict_of (pcmk__evaluate_date_expression (Some e_gt) (Some start) nc)
     = Returns pcmk_rc_before_range
  /\ verdict_of (pcmk__evaluate_date_expression (Some e_in) (Some now) nc)
     <> Returns pcmk_rc_after_range.
Proof.
  intros Hop_in Hstart_in Hend Hduration Hop_gt Hstart_gt.
  assert (Hin : forall t,
    verdict_of (pcmk__evaluate_date_expression (Some e_in) (Some t) nc)
    = Returns (if t <? start then pcmk_rc_before_range else pcmk_rc_within_range)).
  { intros t. rewrite (date_expression_in_range _ _ _ Hop_in).
    rewrite (evaluate_in_range_start_only _ _ _ _ _ Hstart_in Hend Hduration).
    destruct (t <? start); reflexivity. }
  assert (Hgt : forall t,
    verdict_of (pcmk__evaluate_date_expression (Some e_gt) (Some t) nc)
    = Returns (if start <? t then pcmk_rc_within_range else pcmk_rc_before_range)).
  { intros t. rewrite (date_expression_gt _ _ _ Hop_gt).
    rewrite (evaluate_gt_start _ _ _ _ _ Hstart_gt).
    destruct (start <? t); reflexivity. }
  repeat split.
  - apply Hin.
  - intros Hne. rewrite Hin, Hgt.
    destruct (Z.ltb_spec now start), (Z.ltb_spec start now); try reflexivity; lia.
  - rewrite Hin, Z.ltb_irrefl. reflexivity.
  - rewrite Hgt, Z.ltb_irrefl. reflexivity.
  - rewrite Hin. destruct (now <? start); discriminate.
Qed.

End InRangeStartOnly.

Lemma in_range_start_only_vs_gt_witness :
  verdict_of (pcmk__evaluate_date_expression (iso := Fixture.iso8601)
                (strs := Fixture.strings)
                (Some Fixture.in_range_1000) (Some 999) (Some None))
  = verdict_of (pcmk__evaluate_date_expression (iso := Fixture.iso8601)
                  (strs := Fixture.strings)
                  (Some Fixture.gt_1000) (Some 999) (Some None)).
Proof.
  pose proof (@in_range_start_only_vs_gt Fixture.iso8601 Fixture.strings
                Fixture.in_range_1000 Fixture.gt_1000 999 (Some None) 1000
                eq_refl eq_refl eq_refl eq_refl eq_refl eq_refl)
    as (_ & Hsame & _).
  apply Hsame. lia.
Defined.

(** C3 as stated fails at the lower bound itself: with start 1000 and
    [now = 1000], the [in_range] expression (no end, no duration) is within
    range and the [gt] expression with the same start is before range. *)
Lemma in_range_differs_from_gt_at_start :
  pcmk__xe_get_datetime (iso := Fixture.iso8601) Fixture.in_range_1000 PCMK_XA_START
    = (pcmk_rc_ok, Some 1000)
  /\ crm_element_value Fixture.in_range_1000 PCMK_XA_END = None
  /\ first_named_child Fixture.in_range_1000 PCMK_XE_DURATION = None
  /\ pcmk__xe_get_datetime (iso := Fixture.iso8601) Fixture.gt_1000 PCMK_XA_START
    = (pcmk_rc_ok, Some 1000)
  /\ verdict_of (pcmk__evaluate_date_expression (iso := Fixture.iso8601)
                   (strs := Fixture.strings)
                   (Some Fixture.in_range_1000) (Some 1000) (Some None))
     = Returns pcmk_rc_within_range
  /\ verdict_of (pcmk__evaluate_date_expression (iso := Fixture.iso8601)
                   (strs := Fixture.strings)
                   (Some Fixture.gt_1000) (Some 1000) (Some None))
     = Returns pcmk_rc_before_range
  /\ verdict_of (pcmk__evaluate_date_expression (iso := Fixture.iso8601)
                   (strs := Fixture.strings)
                   (Some Fixture.in_range_1000) (Some 1000) (Some None))
     <> verdict_of (pcmk__evaluate_date_expression (iso := Fixture.iso8601)
                      (strs := Fixture.strings)
                      (Some Fixture.gt_1000) (Some 1000) (Some None)).
Proof. repeat split; try reflexivity. vm_compute. discriminate. Qed.

(** ** The next-change hint *)

Lemma hint_not_raised_refl (nc : option (option Z)) : hint_not_raised nc nc = true.
Proof. destruct nc as [[h|]|]; simpl; try reflexivity. apply Z.leb_refl. Qed.

(** The merge keeps the hint or replaces it by an earlier candidate. *)
Lemma set_time_if_earlier_not_raised (nc : option (option Z)) (candidate : option Z) :
  hint_not_raised nc (pcmk__set_time_if_earlier nc candidate) = true.
Proof.
  destruct nc as [[h|]|], candidate as [c|]; simpl; try reflexivity;
    try apply Z.leb_refl.
  rewrite crm_time_compare_lt.
  destruct (Z.ltb_spec c h); simpl; apply Z.leb_le; lia.
Qed.

Lemma set_time_if_earlier_cases (cur : option Z) (candidate : Z) :
  pcmk__set_time_if_earlier (Some cur) (Some candidate) =
    match cur with
    | None => Some (Some candidate)
    | Some h => if candidate <? h then Some (Some candidate) else Some (Some h)
    end.
Proof. destruct cur as [h|]; simpl; [rewrite crm_time_compare_lt|]; reflexivity. Qed.

Create HintDb hints.
#[local] Hint Resolve hint_not_raised_refl set_time_if_earlier_not_raised : hints.

Section NextChange.
Context `{iso : Iso8601} `{strs : Strings}.

Lemma evaluate_in_range_hint expr id now nc :
  hint_not_raised nc (snd (evaluate_in_range expr id now nc)) = true.
Proof.
  unfold evaluate_in_range.
  repeat case_match; subst; cbn [snd]; auto with hints.
Qed.

Lemma evaluate_gt_hint expr id now nc :
  hint_not_raised nc (snd (evaluate_gt expr id now nc)) = true.
Proof.
  unfold evaluate_gt. repeat case_match; subst; cbn [snd]; auto with hints.
Qed.

Lemma evaluate_lt_hint expr id now nc :
  hint_not_raised nc (snd (evaluate_lt expr id now nc)) = true.
Proof.
  unfold evaluate_lt. repeat case_match; subst; cbn [snd]; auto with hints.
Qed.

(** C4: evaluating a date expression never raises the next-change hint:
    for [in_range], [gt] and [lt], and for every evaluation of a date
    expression that returns (all do but the one of an unrecognized
    operation), the hint afterwards is the hint before or an earlier
    instant (any instant if the hint was unset), because a candidate is
    merged only if the hint is unset or the candidate is earlier. *)
Theorem next_change_never_raised expr id now nc (h candidate : Z) :
  hint_not_raised nc (snd (evaluate_in_range expr id now nc)) = true
  /\ hint_not_raised nc (snd (evaluate_gt expr id now nc)) = true
  /\ hint_not_raised nc (snd (evaluate_lt expr id now nc)) = true
  /\ (forall e t,
        match pcmk__evaluate_date_expression e t nc with
        | Returns r => hint_not_raised nc (snd r) = true
        | Undefined => exists x, e = Some x /\ unrecognized_operation x = true
        end)
  /\ pcmk__set_time_if_earlier (Some None) (Some candidate) = Some (Some candidate)
  /\ pcmk__set_time_if_earlier (Some (Some h)) (Some candidate)
     = Some (Some (if candidate <? h then candidate else h))
  /\ (exists h', snd (evaluate_in_range expr id now (Some (Some h))) = Some (Some h')
                 /\ h' <= h)
  /\ (exists h', snd (evaluate_gt expr id now (Some (Some h))) = Some (Some h')
                 /\ h' <= h)
  /\ (exists h', snd (evaluate_lt expr id now (Some (Some h))) = Some (Some h')
                 /\ h' <= h).
Proof.
  assert (Hexists : forall after,
    hint_not_raised (Some (Some h)) after = true ->
    exists h', after = Some (Some h') /\ h' <= h).
  { intros [[h'|]|] Hle; simpl in Hle; try discriminate.
    exists h'. split; [reflexivity | apply Z.leb_le; exact Hle]. }
  repeat split.
  - apply evaluate_in_range_hint.
  - apply evaluate_gt_hint.
  - apply evaluate_lt_hint.
  - intros e t. unfold pcmk__evaluate_date_expression.
    destruct e as [x|], t as [t|]; try apply hint_not_raised_refl.
    cbv zeta.
    destruct (pcmk__str_eq _ (Some PCMK_VALUE_IN_RANGE) _) eqn:Hin;
      [apply evaluate_in_range_hint |].
    destruct (pcmk__str_eq _ (Some PCMK_VALUE_DATE_SPEC) _) eqn:Hspec;
      [destruct (first_named_child x PCMK_XE_DATE_SPEC);
       apply hint_not_raised_refl |].
    destruct (pcmk__str_eq _ (Some PCMK_VALUE_GT) _) eqn:Hgt;
      [apply evaluate_gt_hint |].
    destruct (pcmk__str_eq _ (Some PCMK_VALUE_LT) _) eqn:Hlt;
      [apply evaluate_lt_hint |].
    exists x. split; [reflexivity |].
    unfold unrecognized_operation. rewrite Hin, Hspec, Hgt, Hlt. reflexivity.
  - rewrite set_time_if_earlier_cases. destruct (candidate <? h); reflexivity.
  - apply Hexists, evaluate_in_range_hint.
  - apply Hexists, evaluate_gt_hint.
  - apply Hexists, evaluate_lt_hint.
Qed.

End NextChange.

(** ** Contract violations and verdicts *)

Section Verdicts.
Context `{iso : Iso8601} `{strs : Strings}.

Lemma check_range_cases date_spec id a v :
  check_range date_spec id a v = pcmk_rc_ok
  \/ check_range date_spec id a v = pcmk_rc_before_range
  \/ check_range date_spec id a v = pcmk_rc_after_range.
Proof. unfold check_range. repeat case_match; auto. Qed.

Lemma check_ranges_cases date_spec id ranges :
  check_ranges date_spec id ranges = pcmk_rc_ok
  \/ check_ranges date_spec id ranges = pcmk_rc_before_range
  \/ check_ranges date_spec id ranges = pcmk_rc_after_range.
Proof.
  induction ranges as [|r rest IH]; simpl; [auto|].
  case_bool_decide; [apply check_range_cases | exact IH].
Qed.

Lemma evaluate_date_spec_verdict date_spec now :
  is_verdict (pcmk__evaluate_date_spec (Some date_spec) (Some now)) = true.
Proof.
  simpl. destruct (check_ranges_cases date_spec (loggable_id date_spec)
                     (date_spec_ranges now)) as [-> | [-> | ->]]; reflexivity.
Qed.

Lemma evaluate_in_range_verdict expr id now nc :
  is_verdict (fst (evaluate_in_range expr id now nc)) = true.
Proof. unfold evaluate_in_range. repeat case_match; reflexivity. Qed.

Lemma evaluate_gt_verdict expr id now nc :
  is_verdict (fst (evaluate_gt expr id now nc)) = true.
Proof. unfold evaluate_gt. repeat case_match; reflexivity. Qed.

Lemma evaluate_lt_verdict expr id now nc :
  is_verdict (fst (evaluate_lt expr id now nc)) = true.
Proof. unfold evaluate_lt. repeat case_match; reflexivity. Qed.

(** Every evaluation with both arguments returns a verdict, but the one
    of an unrecognized operation, whose behaviour is undefined. *)
Lemma date_expression_verdict_or_undefined expr now nc :
  match pcmk__evaluate_date_expression (Some expr) (Some now) nc with
  | Returns r => is_verdict (fst r) = true /\ unrecognized_operation expr = false
  | Undefined => unrecognized_operation expr = true
  end.
Proof.
  unfold pcmk__evaluate_date_expression, unrecognized_operation. cbv zeta.
  destruct (pcmk__str_eq _ (Some PCMK_VALUE_IN_RANGE) _);
    [split; [apply evaluate_in_range_verdict | reflexivity] |].
  destruct (pcmk__str_eq _ (Some PCMK_VALUE_DATE_SPEC) _).
  { destruct (first_named_child expr PCMK_XE_DATE_SPEC);
      (split; [| reflexivity]); [apply evaluate_date_spec_verdict | reflexivity]. }
  destruct (pcmk__str_eq _ (Some PCMK_VALUE_GT) _);
    [split; [apply evaluate_gt_verdict | reflexivity] |].
  destruct (pcmk__str_eq _ (Some PCMK_VALUE_LT) _);
    [split; [apply evaluate_lt_verdict | reflexivity] |].
  reflexivity.
Qed.

(** C9: without an expression or without [now] the evaluation of a date
    expression returns [EINVAL], which is none of the verdicts [ok],
    [within_range], [before_range], [after_range], [undetermined], and
    with both arguments every evaluation that returns gives one of these
    verdicts and never [EINVAL].  But not every evaluation returns: for a
    date expression whose operation is none of the four (here [between])
    the code does not return [undetermined], it reaches a
    [pcmk__config_warn] call that lacks an argument, and its behaviour is
    undefined. *)
Theorem unrecognized_operation_undefined :
  pcmk__evaluate_date_expression (iso := Fixture.iso8601) (strs := Fixture.strings)
    (Some Fixture2.between_1000_2000) (Some 1500) (Some None)
  = Undefined
  /\ (forall now nc, pcmk__evaluate_date_expression None now nc = Returns (EINVAL, nc))
  /\ (forall expr nc, pcmk__evaluate_date_expression expr None nc = Returns (EINVAL, nc))
  /\ is_verdict EINVAL = false
  /\ (forall rc, is_verdict rc = true <->
        rc = pcmk_rc_ok \/ rc = pcmk_rc_within_range \/ rc = pcmk_rc_before_range
        \/ rc = pcmk_rc_after_range \/ rc = pcmk_rc_undetermined)
  /\ (forall expr now nc,
        match pcmk__evaluate_date_expression (Some expr) (Some now) nc with
        | Returns r => is_verdict (fst r) = true /\ fst r <> EINVAL
        | Undefined => unrecognized_operation expr = true
        end).
Proof.
  split; [| split; [| split; [| split; [| split]]]].
  - reflexivity.
  - reflexivity.
  - intros [expr|] nc; reflexivity.
  - reflexivity.
  - intros rc. split.
    + destruct rc; simpl; intros Hv; try discriminate; auto 6.
    + intros [-> | [-> | [-> | [-> | ->]]]]; reflexivity.
  - intros expr now nc.
    pose proof (date_expression_verdict_or_undefined expr now nc) as Hverdict.
    destruct (pcmk__evaluate_date_expression (Some expr) (Some now) nc) as [r|];
      [| exact Hverdict].
    destruct Hverdict as [Hverdict _]. split; [exact Hverdict |].
    intros Heq. rewrite Heq in Hverdict. discriminate.
Qed.

End Verdicts.

(** ** A date expression without operation *)

Section DefaultOperation.
Context `{iso : Iso8601} `{strs : Strings}.

Lemma with_operation_value expr op attr :
  attr <> PCMK_XA_OPERATION ->
  crm_element_value (with_operation expr op) attr = crm_element_value expr attr.
Proof.
  intros Hne. unfold crm_element_value, with_operation. simpl.
  apply lookup_insert_ne. congruence.
Qed.

Lemma with_operation_in_range expr op id now nc :
  evaluate_in_range (with_operation expr op) id now nc
  = evaluate_in_range expr id now nc.
Proof.
  unfold evaluate_in_range, pcmk__xe_get_datetime.
  rewrite !with_operation_value by discriminate. reflexivity.
Qed.

(** C10: a date expression whose operation attribute is not set is
    evaluated by the [in_range] branch, with the result and the hint the
    same element gives once its operation is set to [in_range]; it is not
    reported as an unrecognized operation. *)
Theorem missing_operation_is_in_range expr now nc :
  crm_element_value expr PCMK_XA_OPERATION = None ->
  pcmk__evaluate_date_expression (Some expr) (Some now) nc
    = Returns (evaluate_in_range expr (loggable_id expr) now nc)
  /\ (forall t,
      pcmk__evaluate_date_expression (Some expr) t nc
      = pcmk__evaluate_date_expression
          (Some (with_operation expr PCMK_VALUE_IN_RANGE)) t nc).
Proof.
  intros Hop. split.
  - unfold pcmk__evaluate_date_expression. rewrite Hop. reflexivity.
  - intros [t|]; [| reflexivity].
    unfold pcmk__evaluate_date_expression. rewrite Hop.
    assert (Hset : crm_element_value (with_operation expr PCMK_VALUE_IN_RANGE)
                     PCMK_XA_OPERATION = Some PCMK_VALUE_IN_RANGE).
    { unfold crm_element_value, with_operation. simpl. apply lookup_insert_eq. }
    rewrite Hset.
    change (pcmk__str_eq None (Some PCMK_VALUE_IN_RANGE)
              [pcmk__str_null_matches; pcmk__str_casei]) with true.
    change (pcmk__str_eq (Some PCMK_VALUE_IN_RANGE) (Some PCMK_VALUE_IN_RANGE)
              [pcmk__str_null_matches; pcmk__str_casei]) with true.
    cbn iota. rewrite with_operation_in_range.
    unfold loggable_id, pcmk__xe_id.
    rewrite with_operation_value by discriminate. reflexivity.
Qed.

End DefaultOperation.

Lemma missing_operation_is_in_range_witness :
  pcmk__evaluate_date_expression (iso := Fixture.iso8601) (strs := Fixture.strings)
    (Some Fixture.no_op_1000) (Some 999) (Some None)
  = pcmk__evaluate_date_expression (iso := Fixture.iso8601) (strs := Fixture.strings)
      (Some Fixture.in_range_1000) (Some 999) (Some None)
  /\ pcmk__evaluate_date_expression (iso := Fixture.iso8601) (strs := Fixture.strings)
       (Some Fixture.no_op_1000) (Some 999) (Some None)
     = Returns (pcmk_rc_before_range, Some (Some 1000)).
Proof.
  pose proof (@missing_operation_is_in_range Fixture.iso8601 Fixture.strings
                Fixture.no_op_1000 999 (Some None) eq_refl) as [Hbranch _].
  split; [rewrite Hbranch; reflexivity | rewrite Hbranch; reflexivity].
Defined.

(** ** Date specifications *)

Section DateSpec.
Context `{iso : Iso8601} `{strs : Strings}.

(** [check_range] reports exactly the violation of the field. *)
Lemma check_range_violation date_spec id r :
  check_range date_spec id (attr r) (value r)
  = default pcmk_rc_ok (field_violation date_spec r).
Proof.
  unfold check_range, field_violation, field_range.
  destruct (crm_element_value date_spec (attr r)) as [text|]; [| reflexivity].
  destruct (pcmk__parse_ll_range text) as [[low high]|]; [| reflexivity].
  rewrite Z.gtb_ltb.
  destruct (low =? -1), (high =? -1), (value r <? low), (high <? value r);
    reflexivity.
Qed.

Lemma field_violation_cases date_spec r v :
  field_violation date_spec r = Some v ->
  v = pcmk_rc_before_range \/ v = pcmk_rc_after_range.
Proof.
  unfold field_violation. intros Hv.
  repeat case_match; simplify_eq; auto.
Qed.

(** The loop returns the first violation. *)
Lemma check_ranges_first_violation date_spec id ranges :
  check_ranges date_spec id ranges = first_violation date_spec ranges.
Proof.
  unfold first_violation.
  induction ranges as [|r rest IH]; [reflexivity|].
  cbn [check_ranges omap list_omap]. rewrite check_range_violation.
  destruct (field_violation date_spec r) as [v|] eqn:Hv; simpl.
  - destruct (field_violation_cases _ _ _ Hv) as [-> | ->]; reflexivity.
  - exact IH.
Qed.

Lemma first_violation_passed date_spec pre rest :
  Forall (fun f => field_violation date_spec f = None) pre ->
  first_violation date_spec (pre ++ rest)%list = first_violation date_spec rest.
Proof.
  unfold first_violation. induction 1 as [|f pre Hf _ IH]; [reflexivity|].
  cbn [app omap list_omap]. rewrite Hf. exact IH.
Qed.

Lemma date_spec_ranges_shape now :
  exists vy vmo vd vh vmi vs vyd vwy vw vwd vmoon,
    date_spec_ranges now =
      [ Range PCMK_XA_YEARS vy; Range PCMK_XA_MONTHS vmo;
        Range PCMK_XA_MONTHDAYS vd; Range PCMK_XA_HOURS vh;
        Range PCMK_XA_MINUTES vmi; Range PCMK_XA_SECONDS vs;
        Range PCMK_XA_YEARDAYS vyd; Range PCMK_XA_WEEKYEARS vwy;
        Range PCMK_XA_WEEKS vw; Range PCMK_XA_WEEKDAYS vwd;
        Range PCMK__XA_MOON vmoon ].
Proof.
  unfold date_spec_ranges.
  destruct (crm_time_get_gregorian now) as [[? ?] ?].
  destruct (crm_time_get_timeofday now) as [[? ?] ?].
  destruct (crm_time_get_ordinal now) as [? ?].
  destruct (crm_time_get_isoweek now) as [[? ?] ?].
  repeat eexists.
Qed.

(** Each entry of [ranges] holds the component of [now] its field is
    about. *)
Lemma date_spec_ranges_components now :
  date_spec_ranges now
  = map (fun field => Range field (now_component now field)) date_spec_fields.
Proof.
  unfold date_spec_ranges, now_component.
  destruct (crm_time_get_gregorian now) as [[? ?] ?].
  destruct (crm_time_get_timeofday now) as [[? ?] ?].
  destruct (crm_time_get_ordinal now) as [? ?].
  destruct (crm_time_get_isoweek now) as [[? ?] ?].
  reflexivity.
Qed.

Lemma date_spec_field_component now field :
  field ∈ date_spec_fields ->
  date_spec_field now field = Range field (now_component now field).
Proof.
  intros Hin. unfold date_spec_field. rewrite date_spec_ranges_components.
  unfold date_spec_fields in Hin.
  repeat (apply elem_of_cons in Hin as [-> | Hin]; [reflexivity |]).
  inversion Hin.
Qed.

(** The check of one field, on the text of its range. *)
Lemma field_violation_bounds date_spec field text (low high v : Z) :
  crm_element_value date_spec field = Some text ->
  pcmk__parse_ll_range text = Some (low, high) ->
  field_violation date_spec (Range field v)
  = if negb (low =? -1) && (v <? low) then Some pcmk_rc_before_range
    else if negb (high =? -1) && (high <? v) then Some pcmk_rc_after_range
    else None.
Proof.
  intros Htext Hparse. unfold field_violation, field_range. cbn [attr value].
  rewrite Htext, Hparse.
  destruct (low =? -1), (high =? -1), (v <? low), (high <? v); reflexivity.
Qed.

(** C2: the date specification matcher tests the fields in the order
    years, months, month-days, hours, minutes, seconds, year-days,
    week-years, weeks, week-days, moon-phase and returns the before-range
    or after-range verdict of the first field that is present and
    violated, whatever the later fields hold; a field whose range does not
    parse counts as absent; without a violated field the result is [ok].
    In particular, with a malformed months range and a violated hours
    range (years and month-days passing), the hours violation is
    reported.  The value a field is tested with is the component of [now]
    the field is about ([now_component]): the year, the month and the day
    of the month, the hour, minute and second, the day of the year, the
    ISO week-year, week and week-day, the phase of the moon; with a
    malformed months range, years and month-days unset and an hours range
    [low]-[high], the result is before range when the hour of [now] is
    below [low] and after range when it is above [high]. *)
Theorem date_spec_first_violation date_spec now :
  map attr (date_spec_ranges now) = date_spec_fields
  /\ pcmk__evaluate_date_spec (Some date_spec) (Some now)
     = first_violation date_spec (date_spec_ranges now)
  /\ (forall pre r post v,
        date_spec_ranges now = (pre ++ r :: post)%list ->
        Forall (fun f => field_violation date_spec f = None) pre ->
        field_violation date_spec r = Some v ->
        pcmk__evaluate_date_spec (Some date_spec) (Some now) = v
        /\ (v = pcmk_rc_before_range \/ v = pcmk_rc_after_range))
  /\ (Forall (fun f => field_violation date_spec f = None) (date_spec_ranges now) ->
      pcmk__evaluate_date_spec (Some date_spec) (Some now) = pcmk_rc_ok)
  /\ (forall r text,
        crm_element_value date_spec (attr r) = Some text ->
        pcmk__parse_ll_range text = None ->
        field_violation date_spec r = None)
  /\ (forall r,
        crm_element_value date_spec (attr r) = None ->
        field_violation date_spec r = None)
  /\ (forall months v,
        crm_element_value date_spec PCMK_XA_MONTHS = Some months ->
        pcmk__parse_ll_range months = None ->
        field_violation date_spec (date_spec_field now PCMK_XA_YEARS) = None ->
        field_violation date_spec (date_spec_field now PCMK_XA_MONTHDAYS) = None ->
        field_violation date_spec (date_spec_field now PCMK_XA_HOURS) = Some v ->
        pcmk__evaluate_date_spec (Some date_spec) (Some now) = v)
  /\ date_spec_ranges now
     = map (fun field => Range field (now_component now field)) date_spec_fields
  /\ (forall pre field post v,
        date_spec_fields = (pre ++ field :: post)%list ->
        Forall (fun f => field_violation date_spec (Range f (now_component now f))
                         = None) pre ->
        field_violation date_spec (Range field (now_component now field)) = Some v ->
        pcmk__evaluate_date_spec (Some date_spec) (Some now) = v)
  /\ (forall months hours low high,
        crm_element_value date_spec PCMK_XA_YEARS = None ->
        crm_element_value date_spec PCMK_XA_MONTHS = Some months ->
        pcmk__parse_ll_range months = None ->
        crm_element_value date_spec PCMK_XA_MONTHDAYS = None ->
        crm_element_value date_spec PCMK_XA_HOURS = Some hours ->
        pcmk__parse_ll_range hours = Some (low, high) ->
        let hour := u32 (fst (fst (crm_time_get_timeofday now))) in
        now_component now PCMK_XA_HOURS = hour
        /\ (low <> -1 -> hour < low ->
            pcmk__evaluate_date_spec (Some date_spec) (Some now)
            = pcmk_rc_before_range)
        /\ (high <> -1 -> low = -1 \/ low <= hour -> high < hour ->
            pcmk__evaluate_date_spec (Some date_spec) (Some now)
            = pcmk_rc_after_range)).
Proof.
  assert (Heval : pcmk__evaluate_date_spec (Some date_spec) (Some now)
                  = first_violation date_spec (date_spec_ranges now)).
  { apply check_ranges_first_violation. }
  assert (Hmalformed : forall r text,
    crm_element_value date_spec (attr r) = Some text ->
    pcmk__parse_ll_range text = None ->
    field_violation date_spec r = None).
  { intros r text Hattr Hparse. unfold field_violation, field_range.
    rewrite Hattr, Hparse. reflexivity. }
  assert (Hfirst : forall pre r post v,
    date_spec_ranges now = (pre ++ r :: post)%list ->
    Forall (fun f => field_violation date_spec f = None) pre ->
    field_violation date_spec r = Some v ->
    pcmk__evaluate_date_spec (Some date_spec) (Some now) = v).
  { intros pre r post v Hranges Hpre Hv.
    rewrite Heval, Hranges, (first_violation_passed _ _ _ Hpre).
    unfold first_violation. cbn [omap list_omap]. rewrite Hv. reflexivity. }
  assert (Hunset : forall r,
    crm_element_value date_spec (attr r) = None ->
    field_violation date_spec r = None).
  { intros r Hattr. unfold field_violation, field_range. rewrite Hattr.
    reflexivity. }
  assert (Hhours : forall months v,
    crm_element_value date_spec PCMK_XA_MONTHS = Some months ->
    pcmk__parse_ll_range months = None ->
    field_violation date_spec (date_spec_field now PCMK_XA_YEARS) = None ->
    field_violation date_spec (date_spec_field now PCMK_XA_MONTHDAYS) = None ->
    field_violation date_spec (date_spec_field now PCMK_XA_HOURS) = Some v ->
    pcmk__evaluate_date_spec (Some date_spec) (Some now) = v).
  { intros months v Hattr Hparse. unfold date_spec_field.
    destruct (date_spec_ranges_shape now)
      as (vy & vmo & vd & vh & ? & ? & ? & ? & ? & ? & ? & Hshape).
    rewrite Hshape. cbn [List.find attr]. simpl default.
    intros Hyears Hdays Hhours.
    eapply (Hfirst [Range PCMK_XA_YEARS vy; Range PCMK_XA_MONTHS vmo;
                    Range PCMK_XA_MONTHDAYS vd] (Range PCMK_XA_HOURS vh) _ v).
    + rewrite Hshape. reflexivity.
    + repeat constructor; try assumption.
      apply (Hmalformed _ months); assumption.
    + exact Hhours. }
  split; [| split; [exact Heval | split; [| split; [| split; [| split;
    [| split; [| split; [| split]]]]]]]].
  - destruct (date_spec_ranges_shape now)
      as (? & ? & ? & ? & ? & ? & ? & ? & ? & ? & ? & ->). reflexivity.
  - intros pre r post v Hranges Hpre Hv. split.
    + eapply Hfirst; eassumption.
    + eapply field_violation_cases; eassumption.
  - intros Hall. rewrite Heval.
    rewrite <- (app_nil_r (date_spec_ranges now)).
    rewrite (first_violation_passed _ _ _ Hall). reflexivity.
  - exact Hmalformed.
  - exact Hunset.
  - exact Hhours.
  - apply date_spec_ranges_components.
  - intros pre field post v Hfields Hpre Hv.
    apply (Hfirst (map (fun f => Range f (now_component now f)) pre)
             (Range field (now_component now field))
             (map (fun f => Range f (now_component now f)) post) v).
    + rewrite date_spec_ranges_components, Hfields, map_app. reflexivity.
    + apply Forall_map. exact Hpre.
    + exact Hv.
  - intros months hours low high Hyears Hmonths Hparse Hdays Hhour Hrange hour.
    assert (Hcomponent : now_component now PCMK_XA_HOURS = hour) by reflexivity.
    assert (Hy : field_violation date_spec (date_spec_field now PCMK_XA_YEARS) = None).
    { rewrite date_spec_field_component by compute_done.
      apply Hunset. exact Hyears. }
    assert (Hd : field_violation date_spec (date_spec_field now PCMK_XA_MONTHDAYS)
                 = None).
    { rewrite date_spec_field_component by compute_done.
      apply Hunset. exact Hdays. }
    assert (Hh : field_violation date_spec (date_spec_field now PCMK_XA_HOURS)
                 = if negb (low =? -1) && (hour <? low)
                   then Some pcmk_rc_before_range
                   else if negb (high =? -1) && (high <? hour)
                   then Some pcmk_rc_after_range
                   else None).
    { rewrite date_spec_field_component by compute_done.
      rewrite (field_violation_bounds _ _ _ _ _ _ Hhour Hrange), Hcomponent.
      reflexivity. }
    split; [exact Hcomponent | split].
    + intros Hlow Hbelow.
      apply Z.eqb_neq in Hlow. apply Z.ltb_lt in Hbelow.
      apply (Hhours months _ Hmonths Hparse Hy Hd).
      rewrite Hh, Hlow, Hbelow. reflexivity.
    + intros Hhigh Hlow Habove.
      apply Z.eqb_neq in Hhigh. apply Z.ltb_lt in Habove.
      assert (Hnot : negb (low =? -1) && (hour <? low) = false).
      { destruct Hlow as [-> | Hle]; [reflexivity |].
        apply andb_false_iff. right. apply Z.ltb_ge. exact Hle. }
      apply (Hhours months _ Hmonths Hparse Hy Hd).
      rewrite Hh, Hnot, Hhigh, Habove. reflexivity.
Qed.

End DateSpec.

Lemma date_spec_first_violation_witness :
  pcmk__evaluate_date_spec (iso := Fixture.iso8601) (strs := Fixture.strings)
    (Some Fixture.bad_months_late_hours) (Some Fixture.june_15)
  = pcmk_rc_before_range
  /\ date_spec_ranges (iso := Fixture.iso8601) Fixture.june_15
     = [ Range PCMK_XA_YEARS 2024; Range PCMK_XA_MONTHS 6;
         Range PCMK_XA_MONTHDAYS 15; Range PCMK_XA_HOURS 12;
         Range PCMK_XA_MINUTES 30; Range PCMK_XA_SECONDS 45;
         Range PCMK_XA_YEARDAYS 167; Range PCMK_XA_WEEKYEARS 2024;
         Range PCMK_XA_WEEKS 24; Range PCMK_XA_WEEKDAYS 6;
         Range PCMK__XA_MOON 2 ].
Proof.
  pose proof (@date_spec_first_violation Fixture.iso8601 Fixture.strings
                Fixture.bad_months_late_hours Fixture.june_15)
    as (_ & _ & _ & _ & _ & _ & _ & Hcomponents & _ & Hhours).
  split.
  - destruct (Hhours "x-y"%string "13-17"%string 13 17
                eq_refl eq_refl eq_refl eq_refl eq_refl eq_refl)
      as (_ & Hbefore & _).
    apply Hbefore; [discriminate | reflexivity].
  - rewrite Hcomponents. reflexivity.
Defined.

(** ** Typed comparison *)

Section Compare.
Context `{strs : Strings}.

(** Both values scan as integers: the numbers are compared. *)
Lemma cmp_by_type_integer_scanned l r (a b : Z) :
  pcmk__scan_ll (Some l) 0 = (pcmk_rc_ok, a) ->
  pcmk__scan_ll (Some r) 0 = (pcmk_rc_ok, b) ->
  pcmk__cmp_by_type (Some l) (Some r) pcmk__type_integer
  = match a ?= b with Lt => -1 | Eq => 0 | Gt => 1 end.
Proof.
  intros Hl Hr. unfold pcmk__cmp_by_type. rewrite Hl, Hr. simpl.
  rewrite Z.gtb_ltb.
  destruct (Z.compare_spec a b) as [Heq | Hlt | Hgt].
  - subst. rewrite Z.ltb_irrefl. reflexivity.
  - apply Z.ltb_lt in Hlt. rewrite Hlt. reflexivity.
  - assert (Hge : (a <? b) = false) by (apply Z.ltb_ge; lia).
    apply Z.ltb_lt in Hgt. rewrite Hge, Hgt. reflexivity.
Qed.

(** One value does not scan: the values are compared as strings. *)
Lemma cmp_by_type_integer_fallback l r :
  fst (pcmk__scan_ll (Some l) 0) <> pcmk_rc_ok
  \/ fst (pcmk__scan_ll (Some r) 0) <> pcmk_rc_ok ->
  pcmk__cmp_by_type (Some l) (Some r) pcmk__type_integer
  = pcmk__cmp_by_type (Some l) (Some r) pcmk__type_string.
Proof.
  intros Hfail. unfold pcmk__cmp_by_type.
  destruct (pcmk__scan_ll (Some l) 0) as [rc1 a].
  destruct (pcmk__scan_ll (Some r) 0) as [rc2 b]. simpl in Hfail.
  repeat case_bool_decide; simpl; try reflexivity.
  destruct Hfail; contradiction.
Qed.

(** C5 at the regression pair: as strings, "10" and "9" compare as the
    difference of their first bytes, -8, where the claim and the
    documentation of the function promise -1; as integers (with the
    decimal scanner of the fixture) they compare as 1. *)
Theorem cmp_by_type_10_9 :
  pcmk__cmp_by_type (Some "10"%string) (Some "9"%string) pcmk__type_string = -8
  /\ pcmk__cmp_by_type (Some "10"%string) (Some "9"%string) pcmk__type_string <> -1
  /\ pcmk__cmp_by_type (strs := Fixture.strings)
       (Some "10"%string) (Some "9"%string) pcmk__type_integer = 1.
Proof. repeat split. discriminate. Qed.

(** C6: the handling of absent values does not depend on the type: two
    absent values compare as 0, a present value is above an absent one
    (1) and an absent value below a present one (-1); so for the string
    type and the value "x". *)
Theorem cmp_by_type_absent (type : pcmk__type) (l r : string) :
  pcmk__cmp_by_type None None type = 0
  /\ pcmk__cmp_by_type (Some l) None type = 1
  /\ pcmk__cmp_by_type None (Some r) type = -1
  /\ pcmk__cmp_by_type None (Some "x"%string) pcmk__type_string = -1
  /\ pcmk__cmp_by_type (Some "x"%string) None pcmk__type_string = 1
  /\ pcmk__cmp_by_type None None pcmk__type_string = 0.
Proof. repeat split. Qed.

End Compare.

(** ** Durations *)

Section Duration.
Context `{iso : Iso8601} `{strs : Strings}.

Lemma add_time_from_xml_value t component duration :
  pcmk__add_time_from_xml t component duration =
    match component_value duration component with
    | inr v => (pcmk_rc_ok, crm_time_add component t v)
    | inl e => (e, t)
    end.
Proof.
  unfold pcmk__add_time_from_xml, component_value.
  destruct (pcmk__scan_ll _ 0) as [rc v].
  repeat case_bool_decide; try contradiction; try reflexivity.
  rewrite !Z.gtb_ltb.
  destruct (Z.ltb_spec v INT_MIN), (Z.leb_spec INT_MIN v); try lia;
    destruct (Z.ltb_spec INT_MAX v), (Z.leb_spec v INT_MAX); try lia;
    reflexivity.
Qed.

Lemma component_error_not_ok duration component e :
  component_value duration component = inl e -> e <> pcmk_rc_ok.
Proof.
  unfold component_value. destruct (pcmk__scan_ll _ 0) as [rc v].
  repeat case_match; intros; simplify_eq; discriminate.
Qed.

(** One [ADD_COMPONENT] adds a valid component and leaves the code and
    the log alone, or leaves the instant alone and records the error. *)
Lemma ADD_COMPONENT_value duration id component st :
  ADD_COMPONENT duration id component st =
    match component_value duration component with
    | inr v =>
        DurationState (ds_rc st) (crm_time_add component (ds_end st) v) (ds_log st)
    | inl e =>
        DurationState e (ds_end st)
          (ds_log st ++
             [warn_ignoring_component (pcmk__time_component_attr component) id])
    end.
Proof.
  unfold ADD_COMPONENT. rewrite add_time_from_xml_value.
  destruct (component_value duration component) as [e|v] eqn:Hvalue.
  - apply component_error_not_ok in Hvalue.
    case_bool_decide; [reflexivity | contradiction].
  - reflexivity.
Qed.

Lemma ADD_COMPONENT_fold duration id components st :
  fold_left (fun st component => ADD_COMPONENT duration id component st)
    components st
  = DurationState
      (default (ds_rc st) (last (map snd (component_errors duration components))))
      (best_effort_end duration components (ds_end st))
      (ds_log st ++
         map (fun e => warn_ignoring_component (pcmk__time_component_attr (fst e)) id)
           (component_errors duration components)).
Proof.
  revert st. unfold best_effort_end, component_errors.
  induction components as [|c rest IH]; intros st.
  - simpl. rewrite app_nil_r. destruct st; reflexivity.
  - cbn [fold_left omap list_omap]. rewrite IH, ADD_COMPONENT_value.
    destruct (component_value duration c) as [e|v]; cbn [ds_rc ds_end ds_log].
    + f_equal.
      * cbn [map snd]. rewrite last_cons.
        destruct (last (map snd _)); reflexivity.
      * cbn [map fst]. rewrite <- app_assoc. reflexivity.
    + reflexivity.
Qed.

(** C8: called with a duration, a start and an empty end slot,
    [pcmk__unpack_duration] works on a copy of the start and goes through
    the seven components in the order years, months, weeks, days, hours,
    minutes, seconds.  A valid component is added; an invalid one is
    recorded (a configuration warning naming it, and its error as return
    code) and skipped, and the remaining components are still applied.
    The function always leaves the best-effort end instant in the end
    slot, together with one recorded error per invalid component. *)
Theorem unpack_duration_best_effort duration (start : Z) :
  duration_components =
    [ pcmk__time_years; pcmk__time_months; pcmk__time_weeks; pcmk__time_days;
      pcmk__time_hours; pcmk__time_minutes; pcmk__time_seconds ]
  /\ pcmk__unpack_duration (Some duration) (Some start) (Some None) =
     ( default pcmk_rc_ok
         (last (map snd (component_errors duration duration_components))),
       Some (Some (best_effort_end duration duration_components start)),
       ((if pcmk__str_empty (pcmk__xe_id duration)
         then [warn_duration_without_id (loggable_parent_id (Some duration))]
         else []) ++
        map (fun e => warn_ignoring_component (pcmk__time_component_attr (fst e))
                        (loggable_id duration))
          (component_errors duration duration_components))%list )
  /\ (forall pre component post,
        duration_components = (pre ++ component :: post)%list ->
        best_effort_end duration duration_components start =
          best_effort_end duration post
            (match component_value duration component with
             | inr v => crm_time_add component (best_effort_end duration pre start) v
             | inl _ => best_effort_end duration pre start
             end)).
Proof.
  split; [reflexivity | split].
  - unfold pcmk__unpack_duration.
    set (st0 := DurationState pcmk_rc_ok start _).
    change (ADD_COMPONENT duration (loggable_id duration) pcmk__time_seconds _)
      with (fold_left
              (fun st component =>
                 ADD_COMPONENT duration (loggable_id duration) component st)
              duration_components st0).
    rewrite ADD_COMPONENT_fold. reflexivity.
  - intros pre component post ->. unfold best_effort_end.
    rewrite fold_left_app. reflexivity.
Qed.

End Duration.

(** On the fixture: one year and two hours are added to an instant although
    months and minutes are invalid; both are recorded. *)
Example unpack_duration_year_and_hours :
  pcmk__unpack_duration (iso := Fixture.iso8601) (strs := Fixture.strings)
    (Some Fixture.year_and_hours) (Some Fixture.june_15) (Some None)
  = (pcmk_rc_unpack_error,
     Some (Some (Fixture.june_15 + 365 * 86400 + 2 * 3600)),
     [warn_ignoring_component "months" "d1"; warn_ignoring_component "minutes" "d1"]).
Proof. vm_compute. reflexivity. Qed.

(** ** Submatch expansion *)

Lemma string_app_cons (x : ascii) (a b : string) :
  String x a +:+ b = String x (a +:+ b).
Proof. reflexivity. Qed.

Lemma string_app_assoc (a b c : string) : (a +:+ b) +:+ c = a +:+ (b +:+ c).
Proof.
  induction a as [|x a IH]; [reflexivity|].
  rewrite !string_app_cons, IH. reflexivity.
Qed.

Lemma string_app_nil_r (a : string) : a +:+ "" = a.
Proof.
  induction a as [|x a IH]; [reflexivity|].
  rewrite string_app_cons, IH. reflexivity.
Qed.

(** One iteration of the loop on a template of at least two characters. *)
Lemma process_submatches_loop_step c d rest' matched submatches nmatches st :
  process_submatches_loop (String c (String d rest')) matched submatches nmatches st =
    if bool_decide (c = "%"%char) && isdigit d then
      let m := submatch_at submatches (char_code d - char_code "0") in
      if (nmatches <=? char_code d - char_code "0")
         || (rm_so m <? 0) || (rm_eo m <=? rm_so m)
      then process_submatches_loop rest' matched submatches nmatches
             (SubmatchPass true (expansion st) (nbytes st))
      else process_submatches_loop rest' matched submatches nmatches
             (SubmatchPass true
                (expansion st +:+
                   substring (Z.to_nat (rm_so m)) (Z.to_nat (rm_eo m - rm_so m)) matched)
                (nbytes st + (rm_eo m - rm_so m)))
    else
      process_submatches_loop (String d rest') matched submatches nmatches
        (SubmatchPass (expanded st) (expansion st +:+ String c "") (nbytes st + 1)).
Proof.
  destruct (bool_decide (c = "%"%char)) eqn:Hpercent, (isdigit d) eqn:Hdigit;
    cbn [andb];
    change (process_submatches_loop (String c (String d rest')) matched submatches
              nmatches st)
      with (let as_is :=
              process_submatches_loop (String d rest') matched submatches nmatches
                (SubmatchPass (expanded st) (expansion st +:+ String c "")
                   (nbytes st + 1)) in
            if bool_decide (c = "%"%char) then
              if isdigit d then
                let m := submatch_at submatches (char_code d - char_code "0") in
                if (nmatches <=? char_code d - char_code "0")
                   || (rm_so m <? 0) || (rm_eo m <=? rm_so m)
                then process_submatches_loop rest' matched submatches nmatches
                       (SubmatchPass true (expansion st) (nbytes st))
                else process_submatches_loop rest' matched submatches nmatches
                       (SubmatchPass true
                          (expansion st +:+
                             substring (Z.to_nat (rm_so m))
                               (Z.to_nat (rm_eo m - rm_so m)) matched)
                          (nbytes st + (rm_eo m - rm_so m)))
              else as_is
            else as_is);
    cbv zeta; rewrite Hpercent, ?Hdigit; reflexivity.
Qed.

Lemma has_placeholder_step c d rest' :
  has_placeholder (String c (String d rest'))
  = (bool_decide (c = "%"%char) && isdigit d) || has_placeholder (String d rest').
Proof. reflexivity. Qed.

Lemma expand_template_step c d rest' matched submatches nmatches :
  expand_template (String c (String d rest')) matched submatches nmatches =
    if bool_decide (c = "%"%char) && isdigit d
    then group_text matched submatches nmatches (char_code d - char_code "0")
         +:+ expand_template rest' matched submatches nmatches
    else String c (expand_template (String d rest') matched submatches nmatches).
Proof. reflexivity. Qed.

Lemma string_length_app (a b : string) :
  String.length (a +:+ b) = (String.length a + String.length b)%nat.
Proof.
  induction a as [|x a IH]; [reflexivity|].
  rewrite string_app_cons. simpl. rewrite IH. reflexivity.
Qed.

Lemma string_length_substring (n m : nat) (s : string) :
  (n + m <= String.length s)%nat -> String.length (substring n m s) = m.
Proof.
  revert n m. induction s as [|c s IH]; intros n m Hlen; simpl in Hlen.
  - destruct n, m; simpl; try reflexivity; lia.
  - destruct n as [|n]; simpl.
    + destruct m as [|m]; simpl; [reflexivity|]. rewrite IH by lia. reflexivity.
    + apply IH. lia.
Qed.

Section Submatches.
Variable matched : string.
Variable submatches : list regmatch_t.
Variable nmatches : Z.

#[local] Abbreviation expand template :=
  (expansion (process_submatches template matched submatches nmatches)).

(** The loop extends what is already written by the expansion of the
    rest of the template, and raises the flag iff the rest holds a
    placeholder. *)
Lemma process_submatches_loop_spec (n : nat) :
  forall src st, (String.length src <= n)%nat ->
    expanded (process_submatches_loop src matched submatches nmatches st)
      = expanded st || has_placeholder src
    /\ expansion (process_submatches_loop src matched submatches nmatches st)
      = expansion st +:+ expand_template src matched submatches nmatches.
Proof.
  induction n as [|n IH]; intros src st Hlen.
  - destruct src; simpl in Hlen; [| lia]. simpl.
    rewrite orb_false_r, string_app_nil_r. split; reflexivity.
  - destruct src as [|c rest]; simpl in Hlen.
    { simpl. rewrite orb_false_r, string_app_nil_r. split; reflexivity. }
    destruct rest as [|d rest'].
    { simpl. case_bool_decide; simpl; rewrite orb_false_r; split; reflexivity. }
    simpl in Hlen.
    assert (IHe : forall src st, (String.length src <= n)%nat ->
      expanded (process_submatches_loop src matched submatches nmatches st)
      = expanded st || has_placeholder src) by (intros; apply IH; assumption).
    assert (IHx : forall src st, (String.length src <= n)%nat ->
      expansion (process_submatches_loop src matched submatches nmatches st)
      = expansion st +:+ expand_template src matched submatches nmatches)
      by (intros; apply IH; assumption).
    assert (Hrest : (String.length (String d rest') <= n)%nat) by (simpl; lia).
    assert (Hrest' : (String.length rest' <= n)%nat) by lia.
    rewrite process_submatches_loop_step, has_placeholder_step,
      expand_template_step.
    destruct (bool_decide (c = "%"%char) && isdigit d); cbv zeta; cbn [orb].
    + unfold group_text.
      destruct ((nmatches <=? char_code d - char_code "0")
                || (rm_so (submatch_at submatches (char_code d - char_code "0")) <? 0)
                || (rm_eo (submatch_at submatches (char_code d - char_code "0"))
                    <=? rm_so (submatch_at submatches (char_code d - char_code "0"))));
        rewrite (IHe _ _ Hrest'), (IHx _ _ Hrest'); cbn [expanded expansion];
        rewrite orb_true_r; split; try reflexivity.
      apply string_app_assoc.
    + rewrite (IHe _ _ Hrest), (IHx _ _ Hrest). cbn [expanded expansion].
      split; [reflexivity | rewrite string_app_assoc; reflexivity].
Qed.

Lemma process_submatches_expanded template :
  expanded (process_submatches template matched submatches nmatches)
  = has_placeholder template.
Proof.
  unfold process_submatches.
  destruct (process_submatches_loop_spec (String.length template) template
              (SubmatchPass false "" 1) ltac:(lia)) as [He _].
  exact He.
Qed.

Lemma process_submatches_expansion template :
  expand template = expand_template template matched submatches nmatches.
Proof.
  unfold process_submatches.
  destruct (process_submatches_loop_spec (String.length template) template
              (SubmatchPass false "" 1) ltac:(lia)) as [_ Hx].
  exact Hx.
Qed.

(** The first pass counts exactly the bytes the second pass writes, plus
    the terminator, when the offsets of the submatches lie inside the
    matched string, as regexec() leaves them: the buffer of [nbytes] bytes
    holds the expansion. *)
Lemma process_submatches_loop_nbytes (n : nat) :
  (forall k, 0 <= k < nmatches ->
     rm_eo (submatch_at submatches k) <= Z.of_nat (String.length matched)) ->
  forall src st, (String.length src <= n)%nat ->
    nbytes (process_submatches_loop src matched submatches nmatches st)
    = nbytes st
      + Z.of_nat (String.length (expand_template src matched submatches nmatches)).
Proof.
  intros Hinside. induction n as [|n IH]; intros src st Hlen.
  - destruct src; simpl in Hlen; [| lia]. simpl. lia.
  - destruct src as [|c rest]; simpl in Hlen; [simpl; lia|].
    destruct rest as [|d rest'].
    { simpl. case_bool_decide; simpl; lia. }
    simpl in Hlen.
    rewrite process_submatches_loop_step, expand_template_step.
    destruct (bool_decide (c = "%"%char) && isdigit d) eqn:Hplaceholder; cbv zeta.
    + unfold group_text. rewrite string_length_app.
      set (k := char_code d - char_code "0").
      destruct (Z.leb_spec nmatches k) as [Hk | Hk]; cbn [orb].
      { rewrite IH by lia. simpl. lia. }
      destruct (Z.ltb_spec (rm_so (submatch_at submatches k)) 0) as [Hso | Hso];
        cbn [orb].
      { rewrite IH by lia. simpl. lia. }
      destruct (Z.leb_spec (rm_eo (submatch_at submatches k))
                  (rm_so (submatch_at submatches k))) as [Heo | Heo].
      { rewrite IH by lia. simpl. lia. }
      assert (Hdigit : 0 <= k).
      { apply andb_true_iff in Hplaceholder as [_ Hdigit].
        unfold isdigit in Hdigit. apply andb_true_iff in Hdigit as [Hlow _].
        apply Z.leb_le in Hlow. unfold k. change (char_code "0") with 48. lia. }
      specialize (Hinside k ltac:(lia)).
      rewrite IH by lia. cbn [nbytes].
      rewrite string_length_substring by lia. lia.
    + rewrite IH by (simpl; lia). cbn [nbytes]. simpl String.length. lia.
Qed.

(** X27: when the offsets of the submatches lie inside the matched string,
    the size the first pass computes is the length of the expansion plus
    one for the terminator: the buffer [pcmk__replace_submatches]
    allocates fits the string the second pass writes. *)
Lemma process_submatches_nbytes template :
  (forall k, 0 <= k < nmatches ->
     rm_eo (submatch_at submatches k) <= Z.of_nat (String.length matched)) ->
  nbytes (process_submatches template matched submatches nmatches)
  = 1 + Z.of_nat (String.length (expand template)).
Proof.
  intros Hinside. rewrite process_submatches_expansion. unfold process_submatches.
  rewrite (process_submatches_loop_nbytes (String.length template) Hinside) by lia.
  reflexivity.
Qed.

Lemma expand_template_without_placeholder template :
  has_placeholder template = false ->
  expand_template template matched submatches nmatches = template.
Proof.
  induction template as [|c rest IH]; [reflexivity|].
  destruct rest as [|d rest']; [reflexivity|].
  rewrite has_placeholder_step, expand_template_step. intros Hnone.
  apply orb_false_iff in Hnone as [Hhere Hrest].
  rewrite Hhere, (IH Hrest). reflexivity.
Qed.

(** C7 (amended): in the expansion, a placeholder [%0]..[%9] whose group
    index is at least the submatch count, whose group did not take part
    in the match, or whose captured range is empty is deleted; any other
    placeholder becomes the captured text; every other character,
    including a [%] not followed by a digit, is copied.  The result is
    the no-expansion result [NULL] exactly when the template is absent,
    empty or without placeholder; a template with a placeholder always
    gives the allocated expansion. *)
Theorem replace_submatches_expansion :
  (forall d rest,
      isdigit d = true ->
      nmatches <= char_code d - char_code "0"
      \/ rm_so (submatch_at submatches (char_code d - char_code "0")) < 0
      \/ rm_eo (submatch_at submatches (char_code d - char_code "0"))
         <= rm_so (submatch_at submatches (char_code d - char_code "0")) ->
      expand (String "%" (String d rest)) = expand rest)
  /\ (forall d rest,
        isdigit d = true ->
        char_code d - char_code "0" < nmatches ->
        0 <= rm_so (submatch_at submatches (char_code d - char_code "0"))
             < rm_eo (submatch_at submatches (char_code d - char_code "0")) ->
        expand (String "%" (String d rest))
        = substring
            (Z.to_nat (rm_so (submatch_at submatches (char_code d - char_code "0"))))
            (Z.to_nat (rm_eo (submatch_at submatches (char_code d - char_code "0"))
                       - rm_so (submatch_at submatches (char_code d - char_code "0"))))
            matched
          +:+ expand rest)
  /\ (forall c rest,
        c <> "%"%char
        \/ match rest with
           | String d _ => isdigit d = false
           | EmptyString => True
           end ->
        expand (String c rest) = String c (expand rest))
  /\ (forall str,
        pcmk__replace_submatches str matched submatches nmatches =
          match str with
          | Some template =>
              if has_placeholder template then Some (expand template) else None
          | None => None
          end)
  /\ (forall template, has_placeholder template = false -> expand template = template).
Proof.
  split; [| split; [| split; [| split]]].
  - intros d rest Hdigit Hdeleted.
    rewrite !process_submatches_expansion.
    cbn [expand_template]. rewrite Hdigit. cbn [bool_decide andb]. simpl.
    unfold group_text.
    replace ((nmatches <=? char_code d - char_code "0")
             || (rm_so (submatch_at submatches (char_code d - char_code "0")) <? 0)
             || (rm_eo (submatch_at submatches (char_code d - char_code "0"))
                 <=? rm_so (submatch_at submatches (char_code d - char_code "0"))))
      with true; [reflexivity|].
    symmetry. rewrite !orb_true_iff, Z.leb_le, Z.ltb_lt, Z.leb_le. tauto.
  - intros d rest Hdigit Hindex Hrange.
    rewrite !process_submatches_expansion.
    cbn [expand_template]. rewrite Hdigit. simpl.
    unfold group_text.
    replace ((nmatches <=? char_code d - char_code "0")
             || (rm_so (submatch_at submatches (char_code d - char_code "0")) <? 0)
             || (rm_eo (submatch_at submatches (char_code d - char_code "0"))
                 <=? rm_so (submatch_at submatches (char_code d - char_code "0"))))
      with false; [reflexivity|].
    symmetry. rewrite !orb_false_iff, Z.leb_gt, Z.ltb_ge, Z.leb_gt. lia.
  - intros c rest Hplain. rewrite !process_submatches_expansion.
    destruct rest as [|d rest']; [reflexivity|].
    cbn [expand_template].
    destruct Hplain as [Hc | Hd].
    + rewrite bool_decide_eq_false_2 by exact Hc. reflexivity.
    + rewrite Hd, andb_false_r. reflexivity.
  - intros [template|]; [| reflexivity].
    unfold pcmk__replace_submatches.
    destruct template as [|c rest]; [reflexivity|].
    change (pcmk__str_empty (Some (String c rest))) with false.
    change (default ""%string (Some (String c rest))) with (String c rest).
    cbv iota. rewrite process_submatches_expanded.
    destruct (has_placeholder (String c rest)); reflexivity.
  - intros template Hnone. rewrite process_submatches_expansion.
    apply expand_template_without_placeholder. exact Hnone.
Qed.

End Submatches.

Lemma replace_submatches_expansion_witness :
  expansion (process_submatches "%5-%1" "db-prod" Fixture.db_prod_submatches 2)
  = expansion (process_submatches "-%1" "db-prod" Fixture.db_prod_submatches 2)
  /\ expansion (process_submatches "%1" "db-prod" Fixture.db_prod_submatches 2)
     = "prod"%string
  /\ pcmk__replace_submatches (Some "static text"%string) "db-prod"
       Fixture.db_prod_submatches 2 = None.
Proof.
  pose proof (replace_submatches_expansion "db-prod" Fixture.db_prod_submatches 2)
    as (Hdeleted & Hcaptured & _ & Hresult & _).
  split; [| split].
  - apply (Hdeleted "5"%char "-%1"%string); [reflexivity | left; vm_compute; discriminate].
  - rewrite (Hcaptured "1"%char ""%string); [reflexivity | reflexivity | reflexivity |].
    vm_compute. split; [discriminate | reflexivity].
  - rewrite Hresult. reflexivity.
Defined.

(** The examples of the specification. *)
Example replace_submatches_backup :
  pcmk__replace_submatches (Some "backup-%1"%string) "db-prod"
    Fixture.db_prod_submatches 2 = Some "backup-prod"%string
  /\ pcmk__replace_submatches (Some "static text"%string) "db-prod"
       Fixture.db_prod_submatches 2 = None
  /\ pcmk__replace_submatches (Some "50% of %x, %7%"%string) "db-prod"
       Fixture.db_prod_submatches 2 = Some "50% of %x, %"%string.
Proof. repeat split. Qed.

(** C7 as stated fails for a placeholder without effect: the template [%0],
    expanded for a match on the string [%0], stays what it was, and the
    result is an allocated copy of it and not [NULL]. *)
Lemma replace_submatches_copy_of_input :
  expansion (process_submatches "%0" "%0" [Regmatch 0 2] 1) = "%0"%string
  /\ pcmk__replace_submatches (Some "%0"%string) "%0" [Regmatch 0 2] 1
     = Some "%0"%string
  /\ pcmk__replace_submatches (Some "%0"%string) "%0" [Regmatch 0 2] 1 <> None.
Proof. repeat split. discriminate. Qed.

(** * Further properties of the evaluator *)

(** ** Comparison ignoring case *)

Lemma char_code_nonneg (c : ascii) : 0 <= char_code c.
Proof. unfold char_code. lia. Qed.

Lemma tolower_pos (c : ascii) : char_code c <> 0 -> 0 < tolower c.
Proof.
  pose proof (char_code_nonneg c). unfold tolower.
  destruct ((65 <=? char_code c) && (char_code c <=? 90)); lia.
Qed.

Lemma tolower_nul (c : ascii) : char_code c = 0 -> tolower c = 0.
Proof. intros Hnul. unfold tolower. rewrite Hnul. reflexivity. Qed.

Lemma strcasecmp_antisym (a b : string) : strcasecmp a b = - strcasecmp b a.
Proof.
  revert b. induction a as [|x a IH]; intros [|y b]; simpl; try lia.
  rewrite IH.
  destruct (Z.eqb_spec (tolower x - tolower y) 0),
           (Z.eqb_spec (tolower y - tolower x) 0); lia.
Qed.

(** Against a string without NUL byte, [strcasecmp] is 0 exactly for the
    C strings with the same bytes in lower case. *)
Lemma strcasecmp_zero_iff (a n : string) :
  has_nul n = false ->
  strcasecmp a n = 0 <-> c_str_lower a = c_str_lower n.
Proof.
  revert a. induction n as [|y n IH]; intros a Hnul.
  - destruct a as [|x a]; simpl; [tauto|].
    destruct (Z.eqb_spec (char_code x) 0) as [Hx | Hx].
    + rewrite (tolower_nul _ Hx). tauto.
    + pose proof (tolower_pos _ Hx). split; [lia | discriminate].
  - simpl in Hnul. apply orb_false_iff in Hnul as [Hy Hnul].
    apply Z.eqb_neq in Hy. pose proof (tolower_pos _ Hy) as Hypos.
    destruct a as [|x a]; simpl.
    + destruct (Z.eqb_spec (char_code y) 0); [contradiction|].
      split; [lia | discriminate].
    + destruct (Z.eqb_spec (char_code y) 0); [contradiction|].
      destruct (Z.eqb_spec (tolower x - tolower y) 0) as [Hd | Hd].
      * destruct (Z.eqb_spec (char_code x) 0) as [Hx | Hx].
        { rewrite (tolower_nul _ Hx) in Hd. lia. }
        rewrite (IH a Hnul). split.
        -- intros ->. f_equal. lia.
        -- intros Heq. injection Heq as _ Htail. exact Htail.
      * split; [contradiction|].
        destruct (Z.eqb_spec (char_code x) 0); [discriminate|].
        intros Heq. injection Heq as Hhead _. lia.
Qed.

(** [pcmk__str_eq] ignoring case against a name without NUL byte. *)
Lemma str_eq_casei_name (s n : string) :
  has_nul n = false ->
  pcmk__str_eq (Some s) (Some n) [pcmk__str_casei]
  = bool_decide (c_str_lower s = c_str_lower n).
Proof.
  intros Hnul. unfold pcmk__str_eq. simpl.
  destruct (Z.eqb_spec (strcasecmp s n) 0) as [Hz | Hz];
    rewrite (strcasecmp_zero_iff s n Hnul) in Hz; symmetry.
  - apply bool_decide_eq_true_2. exact Hz.
  - apply bool_decide_eq_false_2. exact Hz.
Qed.

(** ** The operations of a date expression *)

Section Operations.
Context `{iso : Iso8601} `{strs : Strings}.

(** The four tests of the dispatch, on the lower-case bytes of the
    operation. *)
Lemma date_expression_dispatch expr op now nc :
  crm_element_value expr PCMK_XA_OPERATION = Some op ->
  pcmk__evaluate_date_expression (Some expr) (Some now) nc =
    if bool_decide (c_str_lower op = c_str_lower PCMK_VALUE_IN_RANGE)
    then Returns (evaluate_in_range expr (loggable_id expr) now nc)
    else if bool_decide (c_str_lower op = c_str_lower PCMK_VALUE_DATE_SPEC) then
      match first_named_child expr PCMK_XE_DATE_SPEC with
      | None => Returns (pcmk_rc_undetermined, nc)
      | Some date_spec =>
          Returns (pcmk__evaluate_date_spec (Some date_spec) (Some now), nc)
      end
    else if bool_decide (c_str_lower op = c_str_lower PCMK_VALUE_GT)
    then Returns (evaluate_gt expr (loggable_id expr) now nc)
    else if bool_decide (c_str_lower op = c_str_lower PCMK_VALUE_LT)
    then Returns (evaluate_lt expr (loggable_id expr) now nc)
    else Undefined.
Proof.
  intros Hop. unfold pcmk__evaluate_date_expression. rewrite Hop.
  rewrite <- !str_eq_casei_name by reflexivity.
  unfold pcmk__str_eq at 1. cbn [pcmk_is_set].
  unfold pcmk__str_eq at 1. reflexivity.
Qed.

(** X1: the operation of a date expression is read ignoring case: an
    operation that [strcasecmp] equates with [in_range], [date_spec], [gt]
    or [lt] selects that evaluator (for [date_spec] the hint is left as it
    is, and the result is undetermined without a [date_spec] child).  Any
    other operation reaches the [pcmk__config_warn] call that lacks an
    argument: the evaluation has undefined behaviour and no result. *)
Theorem date_expression_operation_ignores_case expr op now nc :
  crm_element_value expr PCMK_XA_OPERATION = Some op ->
  (strcasecmp op PCMK_VALUE_IN_RANGE = 0 ->
   pcmk__evaluate_date_expression (Some expr) (Some now) nc
   = Returns (evaluate_in_range expr (loggable_id expr) now nc))
  /\ (strcasecmp op PCMK_VALUE_DATE_SPEC = 0 ->
      pcmk__evaluate_date_expression (Some expr) (Some now) nc
      = Returns (match first_named_child expr PCMK_XE_DATE_SPEC with
                 | None => pcmk_rc_undetermined
                 | Some date_spec =>
                     pcmk__evaluate_date_spec (Some date_spec) (Some now)
                 end, nc))
  /\ (strcasecmp op PCMK_VALUE_GT = 0 ->
      pcmk__evaluate_date_expression (Some expr) (Some now) nc
      = Returns (evaluate_gt expr (loggable_id expr) now nc))
  /\ (strcasecmp op PCMK_VALUE_LT = 0 ->
      pcmk__evaluate_date_expression (Some expr) (Some now) nc
      = Returns (evaluate_lt expr (loggable_id expr) now nc))
  /\ (strcasecmp op PCMK_VALUE_IN_RANGE <> 0 ->
      strcasecmp op PCMK_VALUE_DATE_SPEC <> 0 ->
      strcasecmp op PCMK_VALUE_GT <> 0 ->
      strcasecmp op PCMK_VALUE_LT <> 0 ->
      pcmk__evaluate_date_expression (Some expr) (Some now) nc = Undefined).
Proof.
  intros Hop. rewrite (date_expression_dispatch _ _ _ _ Hop).
  rewrite !strcasecmp_zero_iff by reflexivity.
  repeat split.
  - intros ->. reflexivity.
  - intros ->. cbn. destruct (first_named_child expr PCMK_XE_DATE_SPEC); reflexivity.
  - intros ->. reflexivity.
  - intros ->. reflexivity.
  - intros Hin Hspec Hgt Hlt.
    rewrite !bool_decide_eq_false_2 by assumption. reflexivity.
Qed.

End Operations.

Lemma date_expression_operation_ignores_case_witness :
  pcmk__evaluate_date_expression (iso := Fixture.iso8601) (strs := Fixture.strings)
    (Some Fixture2.upper_gt_1000) (Some 1500) (Some None)
  = Returns (pcmk_rc_within_range, Some None)
  /\ pcmk__evaluate_date_expression (iso := Fixture.iso8601) (strs := Fixture.strings)
       (Some Fixture2.between_1000_2000) (Some 1500) (Some None)
     = Undefined.
Proof.
  split.
  - pose proof (@date_expression_operation_ignores_case Fixture.iso8601
                  Fixture.strings Fixture2.upper_gt_1000 "GT" 1500 (Some None)
                  eq_refl) as (_ & _ & Hgt & _).
    rewrite Hgt; reflexivity.
  - pose proof (@date_expression_operation_ignores_case Fixture.iso8601
                  Fixture.strings Fixture2.between_1000_2000 "between" 1500
                  (Some None) eq_refl) as (_ & _ & _ & _ & Hother).
    apply Hother; discriminate.
Defined.

(** ** [lt], and [gt] or [lt] without their instant *)

Section LessThan.
Context `{iso : Iso8601} `{strs : Strings}.

Lemma date_expression_lt expr now nc :
  crm_element_value expr PCMK_XA_OPERATION = Some PCMK_VALUE_LT ->
  pcmk__evaluate_date_expression (Some expr) (Some now) nc
  = Returns (evaluate_lt expr (loggable_id expr) now nc).
Proof.
  intros Hop. unfold pcmk__evaluate_date_expression. rewrite Hop. reflexivity.
Qed.

(** X2: an [lt] expression with a valid end is within range exactly when
    [now] is strictly before the end, and then the end itself is the
    candidate merged into the hint; from the end on it is after range and
    the hint is left as it is.  It is never before range. *)
Theorem lt_strictly_before_end expr now nc (e : Z) :
  crm_element_value expr PCMK_XA_OPERATION = Some PCMK_VALUE_LT ->
  pcmk__xe_get_datetime expr PCMK_XA_END = (pcmk_rc_ok, Some e) ->
  pcmk__evaluate_date_expression (Some expr) (Some now) nc
  = Returns (if now <? e
             then (pcmk_rc_within_range, pcmk__set_time_if_earlier nc (Some e))
             else (pcmk_rc_after_range, nc))
  /\ verdict_of (pcmk__evaluate_date_expression (Some expr) (Some now) nc)
     <> Returns pcmk_rc_before_range.
Proof.
  intros Hop Hend.
  assert (Heval : pcmk__evaluate_date_expression (Some expr) (Some now) nc
                  = Returns (if now <? e
                             then (pcmk_rc_within_range,
                                   pcmk__set_time_if_earlier nc (Some e))
                             else (pcmk_rc_after_range, nc))).
  { rewrite (date_expression_lt _ _ _ Hop). unfold evaluate_lt.
    rewrite Hend. simpl. rewrite crm_time_compare_lt. reflexivity. }
  split; [exact Heval |].
  rewrite Heval. destruct (now <? e); discriminate.
Qed.

(** X3: a [gt] expression whose start is unset or no instant, and an [lt]
    expression whose end is unset or no instant, are undetermined at every
    [now] and leave the hint as it is. *)
Theorem gt_lt_without_instant expr now nc :
  (crm_element_value expr PCMK_XA_OPERATION = Some PCMK_VALUE_GT ->
   snd (pcmk__xe_get_datetime expr PCMK_XA_START) = None ->
   pcmk__evaluate_date_expression (Some expr) (Some now) nc
   = Returns (pcmk_rc_undetermined, nc))
  /\ (crm_element_value expr PCMK_XA_OPERATION = Some PCMK_VALUE_LT ->
      snd (pcmk__xe_get_datetime expr PCMK_XA_END) = None ->
      pcmk__evaluate_date_expression (Some expr) (Some now) nc
      = Returns (pcmk_rc_undetermined, nc)).
Proof.
  split; intros Hop Hnone.
  - rewrite (date_expression_gt _ _ _ Hop). f_equal. unfold evaluate_gt.
    destruct (pcmk__xe_get_datetime expr PCMK_XA_START) as [rc start].
    simpl in Hnone. subst start. case_bool_decide; reflexivity.
  - rewrite (date_expression_lt _ _ _ Hop). f_equal. unfold evaluate_lt.
    destruct (pcmk__xe_get_datetime expr PCMK_XA_END) as [rc end_].
    simpl in Hnone. subst end_. case_bool_decide; reflexivity.
Qed.

End LessThan.

Lemma lt_strictly_before_end_witness :
  pcmk__evaluate_date_expression (iso := Fixture.iso8601) (strs := Fixture.strings)
    (Some Fixture2.lt_2000) (Some 1999) (Some (Some 5000))
  = Returns (pcmk_rc_within_range, Some (Some 2000))
  /\ pcmk__evaluate_date_expression (iso := Fixture.iso8601) (strs := Fixture.strings)
       (Some Fixture2.lt_2000) (Some 2000) (Some (Some 5000))
     = Returns (pcmk_rc_after_range, Some (Some 5000)).
Proof.
  split.
  - apply (@lt_strictly_before_end Fixture.iso8601 Fixture.strings
             Fixture2.lt_2000 1999 (Some (Some 5000)) 2000 eq_refl eq_refl).
  - apply (@lt_strictly_before_end Fixture.iso8601 Fixture.strings
             Fixture2.lt_2000 2000 (Some (Some 5000)) 2000 eq_refl eq_refl).
Defined.

Lemma gt_lt_without_instant_witness :
  pcmk__evaluate_date_expression (iso := Fixture.iso8601) (strs := Fixture.strings)
    (Some Fixture2.gt_without_start) (Some 1500) (Some (Some 5000))
  = Returns (pcmk_rc_undetermined, Some (Some 5000)).
Proof.
  pose proof (@gt_lt_without_instant Fixture.iso8601 Fixture.strings
                Fixture2.gt_without_start 1500 (Some (Some 5000))) as [Hgt _].
  apply Hgt; reflexivity.
Defined.

(** ** [in_range] with an end *)

Section InRange.
Context `{iso : Iso8601} `{strs : Strings}.

(** The end slot after [pcmk__unpack_duration]. *)
Lemma unpack_duration_end duration (start : Z) :
  snd (fst (pcmk__unpack_duration (Some duration) (Some start) (Some None)))
  = Some (Some (best_effort_end duration duration_components start)).
Proof.
  unfold pcmk__unpack_duration.
  set (st0 := DurationState pcmk_rc_ok start _).
  change (ADD_COMPONENT duration (loggable_id duration) pcmk__time_seconds _)
    with (fold_left
            (fun st component =>
               ADD_COMPONENT duration (loggable_id duration) component st)
            duration_components st0).
  rewrite ADD_COMPONENT_fold. reflexivity.
Qed.

Lemma set_time_if_earlier_no_hint (candidate : option Z) :
  pcmk__set_time_if_earlier None candidate = None.
Proof. reflexivity. Qed.

(** [evaluate_in_range] once the start and the end in force are known. *)
Lemma evaluate_in_range_bounds (start : option Z) (e : Z) now nc :
  (if match start with
      | Some s => crm_time_compare now s <? 0
      | None => false
      end
   then (pcmk_rc_before_range, pcmk__set_time_if_earlier nc start)
   else
     if crm_time_compare now e >? 0 then (pcmk_rc_after_range, nc)
     else
       match nc with
       | Some _ =>
           (pcmk_rc_within_range,
            pcmk__set_time_if_earlier nc (Some (crm_time_add_seconds e 1)))
       | None => (pcmk_rc_within_range, nc)
       end)
  = if match start with Some s => now <? s | None => false end
    then (pcmk_rc_before_range, pcmk__set_time_if_earlier nc start)
    else if e <? now then (pcmk_rc_after_range, nc)
    else (pcmk_rc_within_range,
          pcmk__set_time_if_earlier nc (Some (crm_time_add_seconds e 1))).
Proof.
  rewrite crm_time_compare_gt.
  destruct start as [s|]; [rewrite crm_time_compare_lt|];
    destruct nc as [cur|]; reflexivity.
Qed.

(** X4: an [in_range] expression with a valid start and a valid end is
    before range when [now] is before the start (the start is merged into
    the hint), after range when [now] is after the end (the hint is left
    as it is), and within range from the start to the end, both included
    (the end plus one second is merged into the hint).  A duration child
    plays no part when the end is given. *)
Theorem in_range_start_and_end expr now nc (s e : Z) :
  crm_element_value expr PCMK_XA_OPERATION = Some PCMK_VALUE_IN_RANGE ->
  pcmk__xe_get_datetime expr PCMK_XA_START = (pcmk_rc_ok, Some s) ->
  pcmk__xe_get_datetime expr PCMK_XA_END = (pcmk_rc_ok, Some e) ->
  pcmk__evaluate_date_expression (Some expr) (Some now) nc
  = Returns
      (if now <? s
       then (pcmk_rc_before_range, pcmk__set_time_if_earlier nc (Some s))
       else if e <? now then (pcmk_rc_after_range, nc)
       else (pcmk_rc_within_range,
             pcmk__set_time_if_earlier nc (Some (crm_time_add_seconds e 1)))).
Proof.
  intros Hop Hstart Hend. rewrite (date_expression_in_range _ _ _ Hop). f_equal.
  unfold evaluate_in_range. rewrite Hstart, Hend.
  apply (evaluate_in_range_bounds (Some s) e).
Qed.

(** X5: an [in_range] expression with a valid end and a start that is
    unset or no instant has no lower bound: it is within range up to the
    end, included, and after range later; it is never before range. *)
Theorem in_range_end_only expr now nc (e : Z) :
  crm_element_value expr PCMK_XA_OPERATION = Some PCMK_VALUE_IN_RANGE ->
  snd (pcmk__xe_get_datetime expr PCMK_XA_START) = None ->
  pcmk__xe_get_datetime expr PCMK_XA_END = (pcmk_rc_ok, Some e) ->
  pcmk__evaluate_date_expression (Some expr) (Some now) nc
  = Returns
      (if e <? now then (pcmk_rc_after_range, nc)
       else (pcmk_rc_within_range,
             pcmk__set_time_if_earlier nc (Some (crm_time_add_seconds e 1)))).
Proof.
  intros Hop Hstart Hend. rewrite (date_expression_in_range _ _ _ Hop). f_equal.
  unfold evaluate_in_range.
  destruct (pcmk__xe_get_datetime expr PCMK_XA_START) as [rc start].
  simpl in Hstart. subst start. rewrite Hend.
  apply (evaluate_in_range_bounds None e).
Qed.

(** X6: when the end of an [in_range] expression is unset or no instant
    and the expression has a duration child, the end in force is the
    best-effort sum of the start and the duration, also when components of
    the duration are invalid; the expression is then evaluated like one
    with that end. *)
Theorem in_range_end_from_duration expr duration now nc (s : Z) :
  crm_element_value expr PCMK_XA_OPERATION = Some PCMK_VALUE_IN_RANGE ->
  pcmk__xe_get_datetime expr PCMK_XA_START = (pcmk_rc_ok, Some s) ->
  snd (pcmk__xe_get_datetime expr PCMK_XA_END) = None ->
  first_named_child expr PCMK_XE_DURATION = Some duration ->
  pcmk__evaluate_date_expression (Some expr) (Some now) nc
  = let e := best_effort_end duration duration_components s in
    Returns
      (if now <? s
       then (pcmk_rc_before_range, pcmk__set_time_if_earlier nc (Some s))
       else if e <? now then (pcmk_rc_after_range, nc)
       else (pcmk_rc_within_range,
             pcmk__set_time_if_earlier nc (Some (crm_time_add_seconds e 1)))).
Proof.
  intros Hop Hstart Hend Hduration. rewrite (date_expression_in_range _ _ _ Hop).
  cbv zeta. f_equal.
  unfold evaluate_in_range. rewrite Hstart, Hduration.
  destruct (pcmk__xe_get_datetime expr PCMK_XA_END) as [rc end_].
  simpl in Hend. subst end_.
  pose proof (unpack_duration_end duration s) as Hunpack.
  destruct (pcmk__unpack_duration (Some duration) (Some s) (Some None))
    as [[rc' end'] log]. simpl in Hunpack. subst end'.
  apply (evaluate_in_range_bounds (Some s)).
Qed.

(** X7: an [in_range] expression is undetermined exactly when neither its
    start nor its end gives an instant; a duration child alone does not
    help, and the hint is left as it is. *)
Theorem in_range_undetermined expr id now nc :
  (snd (pcmk__xe_get_datetime expr PCMK_XA_START) = None ->
   snd (pcmk__xe_get_datetime expr PCMK_XA_END) = None ->
   evaluate_in_range expr id now nc = (pcmk_rc_undetermined, nc))
  /\ (fst (evaluate_in_range expr id now nc) = pcmk_rc_undetermined ->
      snd (pcmk__xe_get_datetime expr PCMK_XA_START) = None
      /\ snd (pcmk__xe_get_datetime expr PCMK_XA_END) = None).
Proof.
  unfold evaluate_in_range.
  destruct (pcmk__xe_get_datetime expr PCMK_XA_START) as [rc1 start].
  destruct (pcmk__xe_get_datetime expr PCMK_XA_END) as [rc2 end_].
  cbn [snd]. split.
  - intros -> ->. reflexivity.
  - destruct start as [s|], end_ as [e|]; [| | | auto];
      repeat case_match; cbn [fst]; discriminate.
Qed.

End InRange.

Lemma in_range_start_and_end_witness :
  pcmk__evaluate_date_expression (iso := Fixture.iso8601) (strs := Fixture.strings)
    (Some Fixture2.window_1000_2000) (Some 2000) (Some None)
  = Returns (pcmk_rc_within_range, Some (Some 2001)).
Proof.
  apply (@in_range_start_and_end Fixture.iso8601 Fixture.strings
           Fixture2.window_1000_2000 2000 (Some None) 1000 2000
           eq_refl eq_refl eq_refl).
Defined.

Lemma in_range_end_only_witness :
  pcmk__evaluate_date_expression (iso := Fixture.iso8601) (strs := Fixture.strings)
    (Some Fixture2.until_2000) (Some 2001) (Some None)
  = Returns (pcmk_rc_after_range, Some None).
Proof.
  apply (@in_range_end_only Fixture.iso8601 Fixture.strings
           Fixture2.until_2000 2001 (Some None) 2000 eq_refl eq_refl eq_refl).
Defined.

Lemma in_range_end_from_duration_witness :
  pcmk__evaluate_date_expression (iso := Fixture.iso8601) (strs := Fixture.strings)
    (Some Fixture2.start_and_duration) (Some 31544200) (Some None)
  = Returns (pcmk_rc_within_range, Some (Some 31544201)).
Proof.
  apply (@in_range_end_from_duration Fixture.iso8601 Fixture.strings
           Fixture2.start_and_duration Fixture.year_and_hours 31544200 (Some None)
           1000 eq_refl eq_refl eq_refl eq_refl).
Defined.

Lemma in_range_undetermined_witness :
  evaluate_in_range (iso := Fixture.iso8601) (strs := Fixture.strings)
    Fixture2.duration_only "e-dur" 1500 (Some None)
  = (pcmk_rc_undetermined, Some None).
Proof.
  pose proof (@in_range_undetermined Fixture.iso8601 Fixture.strings
                Fixture2.duration_only "e-dur" 1500 (Some None)) as [Hnone _].
  apply Hnone; reflexivity.
Defined.

(** ** Verdict and hint across evaluations *)

Lemma set_time_if_earlier_comm (nc : option (option Z)) (a b : option Z) :
  pcmk__set_time_if_earlier (pcmk__set_time_if_earlier nc a) b
  = pcmk__set_time_if_earlier (pcmk__set_time_if_earlier nc b) a.
Proof.
  destruct nc as [[h|]|], a as [a|], b as [b|]; simpl; try reflexivity;
    rewrite ?crm_time_compare_lt;
    repeat (match goal with
            | |- context [?x <? ?y] => destruct (Z.ltb_spec x y)
            end; simpl; rewrite ?crm_time_compare_lt);
    try reflexivity; try lia; repeat f_equal; lia.
Qed.

Section Merging.
Context `{iso : Iso8601} `{strs : Strings}.

(** Every evaluation that returns is a verdict and at most one candidate
    for the hint, both independent of the hint passed in; whether it
    returns does not depend on the hint either. *)
Lemma date_expression_candidate expr now :
  (forall nc, pcmk__evaluate_date_expression expr now nc = Undefined)
  \/ exists rc candidate, forall nc,
       pcmk__evaluate_date_expression expr now nc
       = Returns (rc, pcmk__set_time_if_earlier nc candidate).
Proof.
  assert (Hreturns : forall f : option (option Z) -> pcmk_rc * option (option Z),
    (exists rc candidate, forall nc,
       f nc = (rc, pcmk__set_time_if_earlier nc candidate)) ->
    (forall nc, Returns (f nc) = @Undefined (pcmk_rc * option (option Z)))
    \/ exists rc candidate, forall nc,
         Returns (f nc) = Returns (rc, pcmk__set_time_if_earlier nc candidate)).
  { intros f (rc & candidate & Hf). right. exists rc, candidate.
    intros nc. rewrite Hf. reflexivity. }
  assert (Hnone : forall rc : pcmk_rc, exists rc' candidate,
            forall nc : option (option Z),
            (rc, nc) = (rc', pcmk__set_time_if_earlier nc candidate)).
  { intros rc. exists rc, None. intros [[h|]|]; reflexivity. }
  assert (Hsome : forall (rc : pcmk_rc) (c : Z), exists rc' candidate,
            forall nc : option (option Z),
            (rc, pcmk__set_time_if_earlier nc (Some c))
            = (rc', pcmk__set_time_if_earlier nc candidate)).
  { intros rc c. exists rc, (Some c). reflexivity. }
  destruct expr as [expr|], now as [now|];
    try (apply (Hreturns (fun nc => (EINVAL, nc))), Hnone).
  unfold pcmk__evaluate_date_expression. cbv zeta.
  destruct (pcmk__str_eq _ (Some PCMK_VALUE_IN_RANGE) _).
  { apply (Hreturns (fun nc => evaluate_in_range expr (loggable_id expr) now nc)).
    unfold evaluate_in_range.
    destruct (pcmk__xe_get_datetime expr PCMK_XA_START) as [rc1 start].
    destruct (pcmk__xe_get_datetime expr PCMK_XA_END) as [rc2 end_].
    assert (Hbounds : forall (e : Z), exists rc candidate, forall nc,
      (if match start with
          | Some s => crm_time_compare now s <? 0
          | None => false
          end
       then (pcmk_rc_before_range, pcmk__set_time_if_earlier nc start)
       else
         if crm_time_compare now e >? 0 then (pcmk_rc_after_range, nc)
         else
           match nc with
           | Some _ =>
               (pcmk_rc_within_range,
                pcmk__set_time_if_earlier nc (Some (crm_time_add_seconds e 1)))
           | None => (pcmk_rc_within_range, nc)
           end)
      = (rc, pcmk__set_time_if_earlier nc candidate)).
    { intros e.
      destruct (match start with
                | Some s => crm_time_compare now s <? 0
                | None => false
                end) eqn:Hbefore.
      - exists pcmk_rc_before_range, start. reflexivity.
      - destruct (crm_time_compare now e >? 0) eqn:Hafter.
        + apply Hnone.
        + exists pcmk_rc_within_range, (Some (crm_time_add_seconds e 1)).
          intros [cur|]; reflexivity. }
    destruct start as [s|], end_ as [e|]; try apply Hbounds; try apply Hnone.
    destruct (first_named_child expr PCMK_XE_DURATION) as [duration|].
    - destruct (pcmk__unpack_duration (Some duration) (Some s) (Some None))
        as [[rc' [[e|]|]] log]; cbn [default from_option id];
        try apply Hbounds.
      + destruct (crm_time_compare now s <? 0); [apply Hsome | apply Hnone].
      + destruct (crm_time_compare now s <? 0); [apply Hsome | apply Hnone].
    - destruct (crm_time_compare now s <? 0); [apply Hsome | apply Hnone]. }
  destruct (pcmk__str_eq _ (Some PCMK_VALUE_DATE_SPEC) _).
  { destruct (first_named_child expr PCMK_XE_DATE_SPEC) as [date_spec|].
    - apply (Hreturns (fun nc => (pcmk__evaluate_date_spec (Some date_spec)
                                    (Some now), nc))), Hnone.
    - apply (Hreturns (fun nc => (pcmk_rc_undetermined, nc))), Hnone. }
  destruct (pcmk__str_eq _ (Some PCMK_VALUE_GT) _).
  { apply (Hreturns (fun nc => evaluate_gt expr (loggable_id expr) now nc)).
    unfold evaluate_gt.
    destruct (pcmk__xe_get_datetime expr PCMK_XA_START) as [rc1 [s|]];
      case_bool_decide; try apply Hnone.
    destruct (crm_time_compare now s >? 0); [apply Hnone | apply Hsome]. }
  destruct (pcmk__str_eq _ (Some PCMK_VALUE_LT) _).
  { apply (Hreturns (fun nc => evaluate_lt expr (loggable_id expr) now nc)).
    unfold evaluate_lt.
    destruct (pcmk__xe_get_datetime expr PCMK_XA_END) as [rc1 [e|]];
      case_bool_decide; try apply Hnone.
    destruct (crm_time_compare now e <? 0); [apply Hsome | apply Hnone]. }
  left. reflexivity.
Qed.

(** X8: the verdict of a date expression (and whether its evaluation
    returns one) does not depend on the hint passed in, and the hint left
    by two evaluations in a row does not depend on their order. *)
Theorem next_change_order_independent e1 t1 e2 t2 nc nc' :
  verdict_of (pcmk__evaluate_date_expression e1 t1 nc)
  = verdict_of (pcmk__evaluate_date_expression e1 t1 nc')
  /\ hint_of (then_evaluate (pcmk__evaluate_date_expression e1 t1 nc)
                (pcmk__evaluate_date_expression e2 t2))
     = hint_of (then_evaluate (pcmk__evaluate_date_expression e2 t2 nc)
                  (pcmk__evaluate_date_expression e1 t1)).
Proof.
  destruct (date_expression_candidate e1 t1) as [H1 | (rc1 & c1 & H1)];
    destruct (date_expression_candidate e2 t2) as [H2 | (rc2 & c2 & H2)];
    (split; [rewrite !H1; reflexivity |]).
  - rewrite H1, H2. reflexivity.
  - rewrite H1, H2. cbn [then_evaluate]. rewrite H1. reflexivity.
  - rewrite H1, H2. cbn [then_evaluate]. rewrite H2. reflexivity.
  - rewrite H1, H2. cbn [then_evaluate snd]. rewrite H1, H2. cbn [hint_of snd].
    f_equal. apply set_time_if_earlier_comm.
Qed.

End Merging.

(** ** Date specifications with one field, and the moon *)

Section DateSpecFields.
Context `{iso : Iso8601} `{strs : Strings}.

Lemma first_violation_cons date_spec r rest :
  first_violation date_spec (r :: rest) =
    match field_violation date_spec r with
    | Some v => v
    | None => first_violation date_spec rest
    end.
Proof.
  unfold first_violation. cbn [omap list_omap].
  destruct (field_violation date_spec r); reflexivity.
Qed.

Lemma field_violation_unset date_spec r :
  crm_element_value date_spec (attr r) = None -> field_violation date_spec r = None.
Proof.
  intros Hunset. unfold field_violation, field_range. rewrite Hunset. reflexivity.
Qed.

Lemma first_violation_all_unset date_spec (l : list range) :
  (forall r, r ∈ l -> crm_element_value date_spec (attr r) = None) ->
  first_violation date_spec l = pcmk_rc_ok.
Proof.
  induction l as [|r rest IH]; intros Hunset; [reflexivity|].
  rewrite first_violation_cons, field_violation_unset.
  - apply IH. intros r' Hin. apply Hunset. right. exact Hin.
  - apply Hunset. left.
Qed.

(** With a single field set, the first violation is that of this field. *)
Lemma first_violation_single date_spec field (l : list range) :
  NoDup (map attr l) ->
  (forall r, r ∈ l -> attr r <> field -> crm_element_value date_spec (attr r) = None) ->
  forall r0, r0 ∈ l -> attr r0 = field ->
    first_violation date_spec l
    = default pcmk_rc_ok (field_violation date_spec r0).
Proof.
  induction l as [|r rest IH]; intros Hnodup Hunset r0 Hin Hattr.
  - inversion Hin.
  - cbn [map] in Hnodup. apply NoDup_cons in Hnodup as [Hfresh Hnodup].
    rewrite first_violation_cons.
    apply elem_of_cons in Hin as [-> | Hin].
    + destruct (field_violation date_spec r) as [v|]; [reflexivity|].
      apply first_violation_all_unset. intros r' Hin'.
      apply Hunset; [right; exact Hin' |].
      intros Hsame. apply Hfresh. rewrite Hattr, <- Hsame.
      apply list_elem_of_fmap_2. exact Hin'.
    + rewrite field_violation_unset.
      * apply IH; try assumption.
        intros r' Hin'. apply Hunset. right. exact Hin'.
      * apply Hunset; [left |].
        intros Hsame. apply Hfresh. rewrite Hsame, <- Hattr.
        apply list_elem_of_fmap_2. exact Hin.
Qed.

Lemma find_by_attr (l : list range) field :
  field ∈ map attr l ->
  exists r0, List.find (fun r => bool_decide (attr r = field)) l = Some r0
             /\ r0 ∈ l /\ attr r0 = field.
Proof.
  induction l as [|r rest IH]; intros Hin; [inversion Hin|].
  cbn [List.find]. case_bool_decide as Hr.
  - exists r. repeat split; [left | exact Hr].
  - cbn [map] in Hin. apply elem_of_cons in Hin as [Heq | Hin]; [congruence|].
    destruct (IH Hin) as (r0 & Hfind & Hin0 & Hattr).
    exists r0. repeat split; [exact Hfind | right; exact Hin0 | exact Hattr].
Qed.

Lemma date_spec_ranges_attrs now : map attr (date_spec_ranges now) = date_spec_fields.
Proof.
  destruct (date_spec_ranges_shape now)
    as (? & ? & ? & ? & ? & ? & ? & ? & ? & ? & ? & ->). reflexivity.
Qed.

(** X9: a date specification in which a single field is set, to a valid
    range, is decided by that field alone: before range when the
    component of [now] the field is about ([now_component]: the month for
    months, the ISO week for weeks, and so on) is below a given low bound,
    after range when it is above a given high bound, [ok] otherwise. *)
Theorem date_spec_single_field date_spec now field text (low high : Z) :
  field ∈ date_spec_fields ->
  crm_element_value date_spec field = Some text ->
  pcmk__parse_ll_range text = Some (low, high) ->
  (forall f, f ∈ date_spec_fields -> f <> field ->
     crm_element_value date_spec f = None) ->
  pcmk__evaluate_date_spec (Some date_spec) (Some now)
  = let v := now_component now field in
    if negb (low =? -1) && (v <? low) then pcmk_rc_before_range
    else if negb (high =? -1) && (high <? v) then pcmk_rc_after_range
    else pcmk_rc_ok.
Proof.
  intros Hfield Htext Hparse Hothers.
  assert (Hvalue : now_component now field = value (date_spec_field now field)).
  { rewrite date_spec_field_component by exact Hfield. reflexivity. }
  rewrite Hvalue.
  change (pcmk__evaluate_date_spec (Some date_spec) (Some now))
    with (check_ranges date_spec (loggable_id date_spec) (date_spec_ranges now)).
  rewrite check_ranges_first_violation.
  rewrite <- (date_spec_ranges_attrs now) in Hfield.
  destruct (find_by_attr _ _ Hfield) as (r0 & Hfind & Hin & Hattr).
  unfold date_spec_field. rewrite Hfind. cbn [default from_option id].
  rewrite (first_violation_single date_spec field _) with (r0 := r0); try assumption.
  - rewrite <- (check_range_violation date_spec (loggable_id date_spec)).
    unfold check_range. rewrite Hattr, Htext, Hparse, Z.gtb_ltb. reflexivity.
  - rewrite date_spec_ranges_attrs. compute_done.
  - intros r Hr Hne. apply Hothers; [| exact Hne].
    rewrite <- (date_spec_ranges_attrs now). apply list_elem_of_fmap_2. exact Hr.
Qed.

(** X10: the phase of the moon is one of the eight phases 0 to 7 at every
    instant, and it is the value the moon field is tested against. *)
Theorem phase_of_the_moon_bounds now :
  0 <= phase_of_the_moon now <= 7
  /\ value (date_spec_field now PCMK__XA_MOON) = phase_of_the_moon now.
Proof.
  assert (Hbounds : 0 <= phase_of_the_moon now <= 7).
  { unfold phase_of_the_moon. destruct (crm_time_get_ordinal now) as [y diy].
    cbv zeta.
    match goal with
    | |- 0 <= Z.land ?x 7 <= 7 =>
        change 7 with (Z.ones 3) at 1 2; rewrite (Z.land_ones x 3) by lia;
        pose proof (Z.mod_pos_bound x (2 ^ 3) ltac:(lia))
    end.
    change (Z.ones 3) with 7. lia. }
  split; [exact Hbounds |].
  unfold date_spec_field.
  destruct (date_spec_ranges_shape now)
    as (? & ? & ? & ? & ? & ? & ? & ? & ? & ? & vmoon & Hshape).
  pose proof Hshape as Hmoon. unfold date_spec_ranges in Hmoon.
  destruct (crm_time_get_gregorian now) as [[? ?] ?].
  destruct (crm_time_get_timeofday now) as [[? ?] ?].
  destruct (crm_time_get_ordinal now) as [? ?] eqn:Hordinal.
  destruct (crm_time_get_isoweek now) as [[? ?] ?].
  injection Hmoon as _ _ _ _ _ _ _ _ _ _ Hmoon.
  rewrite Hshape. cbn [List.find attr]. simpl default. subst vmoon.
  unfold u32. apply Z.mod_small. lia.
Qed.

End DateSpecFields.

Lemma date_spec_single_field_witness :
  pcmk__evaluate_date_spec (iso := Fixture.iso8601) (strs := Fixture.strings)
    (Some Fixture2.summer) (Some Fixture.june_15)
  = (if negb (6 =? -1)
        && (now_component (iso := Fixture.iso8601) Fixture.june_15 "months" <? 6)
     then pcmk_rc_before_range
     else if negb (8 =? -1)
             && (8 <? now_component (iso := Fixture.iso8601) Fixture.june_15 "months")
     then pcmk_rc_after_range
     else pcmk_rc_ok).
Proof.
  apply (@date_spec_single_field Fixture.iso8601 Fixture.strings
           Fixture2.summer Fixture.june_15 "months" "6-8" 6 8).
  - compute_done.
  - reflexivity.
  - reflexivity.
  - intros f Hin Hne. unfold date_spec_fields in Hin.
    repeat (apply elem_of_cons in Hin as [-> | Hin];
            [first [reflexivity | contradiction] |]).
    inversion Hin.
Defined.

(** The months example of the specification, in three different years. *)
Example date_spec_summer_months :
  map (fun t => pcmk__evaluate_date_spec (iso := Fixture.iso8601)
                  (strs := Fixture.strings) (Some Fixture2.summer) (Some t))
    [ Fixture.days_from_civil 2024 6 15 * 86400;
      Fixture.days_from_civil 1999 5 31 * 86400 + 86399;
      Fixture.days_from_civil 2031 9 1 * 86400 ]
  = [pcmk_rc_ok; pcmk_rc_before_range; pcmk_rc_after_range].
Proof. vm_compute. reflexivity. Qed.

(** ** The return code of a duration *)

Lemma last_map_some {A B : Type} (f : A -> B) (l : list A) (x : A) :
  last l = Some x -> last (map f l) = Some (f x).
Proof.
  induction l as [|y [|z rest] IH]; intros Hlast.
  - discriminate.
  - injection Hlast as ->. reflexivity.
  - apply IH. exact Hlast.
Qed.

Section DurationCode.
Context `{iso : Iso8601} `{strs : Strings}.

Lemma unpack_duration_rc duration (start : Z) :
  fst (fst (pcmk__unpack_duration (Some duration) (Some start) (Some None)))
  = default pcmk_rc_ok
      (last (map snd (component_errors duration duration_components))).
Proof.
  unfold pcmk__unpack_duration.
  set (st0 := DurationState pcmk_rc_ok start _).
  change (ADD_COMPONENT duration (loggable_id duration) pcmk__time_seconds _)
    with (fold_left
            (fun st component =>
               ADD_COMPONENT duration (loggable_id duration) component st)
            duration_components st0).
  rewrite ADD_COMPONENT_fold. reflexivity.
Qed.

Lemma component_errors_not_ok duration components e :
  e ∈ map snd (component_errors duration components) -> e <> pcmk_rc_ok.
Proof.
  unfold component_errors. induction components as [|c rest IH]; [inversion 1|].
  cbn [omap list_omap].
  destruct (component_value duration c) as [e'|v] eqn:Hvalue; [| exact IH].
  cbn [map snd]. intros Hin. apply elem_of_cons in Hin as [-> | Hin].
  - eapply component_error_not_ok. exact Hvalue.
  - apply IH. exact Hin.
Qed.

Lemma component_errors_nil duration components :
  component_errors duration components = [] <->
  forall c, c ∈ components -> exists v, component_value duration c = inr v.
Proof.
  unfold component_errors. induction components as [|c rest IH].
  - split; [intros _ c Hin; inversion Hin | reflexivity].
  - cbn [omap list_omap].
    destruct (component_value duration c) as [e|v] eqn:Hvalue.
    + split; [discriminate |]. intros Hall.
      destruct (Hall c ltac:(left)) as [v Hv]. congruence.
    + rewrite IH. split.
      * intros Hall c' Hin. apply elem_of_cons in Hin as [-> | Hin]; eauto.
      * intros Hall c' Hin. apply Hall. right. exact Hin.
Qed.

(** X11: [pcmk__unpack_duration] returns [pcmk_rc_ok] exactly when each of
    the seven components is valid; otherwise it returns the error of the
    last invalid component, and in both cases the end slot holds an
    instant. *)
Theorem unpack_duration_ok_iff duration (start : Z) :
  (fst (fst (pcmk__unpack_duration (Some duration) (Some start) (Some None)))
     = pcmk_rc_ok
   <-> forall component, exists v, component_value duration component = inr v)
  /\ (forall e,
        last (component_errors duration duration_components) = Some e ->
        fst (fst (pcmk__unpack_duration (Some duration) (Some start) (Some None)))
        = snd e)
  /\ is_Some (default None
               (snd (fst (pcmk__unpack_duration (Some duration) (Some start)
                            (Some None))))).
Proof.
  split; [| split].
  - rewrite unpack_duration_rc.
    assert (Hall : (forall component, exists v,
                      component_value duration component = inr v)
                   <-> component_errors duration duration_components = []).
    { rewrite component_errors_nil. split.
      - intros Hvalid c _. apply Hvalid.
      - intros Hvalid c. apply Hvalid. destruct c; compute_done. }
    rewrite Hall. split.
    + intros Hok.
      destruct (component_errors duration duration_components) as [|e rest] eqn:Herrs;
        [reflexivity|].
      exfalso.
      destruct (last (map snd (e :: rest))) as [e'|] eqn:Hlast.
      * apply (component_errors_not_ok duration duration_components e').
        -- rewrite Herrs. apply last_Some_elem_of. exact Hlast.
        -- exact Hok.
      * apply last_None in Hlast. discriminate.
    + intros ->. reflexivity.
  - intros e Hlast. rewrite unpack_duration_rc.
    rewrite (last_map_some snd _ _ Hlast). reflexivity.
  - rewrite unpack_duration_end. cbn. eauto.
Qed.

End DurationCode.

Lemma unpack_duration_ok_iff_witness :
  fst (fst (pcmk__unpack_duration (iso := Fixture.iso8601) (strs := Fixture.strings)
              (Some Fixture.year_and_hours) (Some Fixture.june_15) (Some None)))
  = pcmk_rc_unpack_error.
Proof.
  pose proof (@unpack_duration_ok_iff Fixture.iso8601 Fixture.strings
                Fixture.year_and_hours Fixture.june_15) as (_ & Hlast & _).
  apply (Hlast (pcmk__time_minutes, pcmk_rc_unpack_error)). reflexivity.
Defined.

(** ** Typed comparison: symmetry, case, integers *)

Section CompareMore.
Context `{strs : Strings}.

(** X12: for the types string, integer and unknown, swapping the two
    values negates the result of the comparison, absent values included. *)
Theorem cmp_by_type_swap (l r : option string) :
  pcmk__cmp_by_type l r pcmk__type_string = - pcmk__cmp_by_type r l pcmk__type_string
  /\ pcmk__cmp_by_type l r pcmk__type_integer
     = - pcmk__cmp_by_type r l pcmk__type_integer
  /\ pcmk__cmp_by_type l r pcmk__type_unknown
     = - pcmk__cmp_by_type r l pcmk__type_unknown.
Proof.
  destruct l as [l|], r as [r|]; repeat split; try reflexivity.
  - apply strcasecmp_antisym.
  - unfold pcmk__cmp_by_type.
    destruct (pcmk__scan_ll (Some l) 0) as [rc1 a].
    destruct (pcmk__scan_ll (Some r) 0) as [rc2 b].
    repeat case_bool_decide; cbn [andb]; try apply strcasecmp_antisym.
    rewrite !Z.gtb_ltb.
    destruct (Z.ltb_spec a b), (Z.ltb_spec b a); lia.
Qed.

(** X13: compared as strings, a value and a C string are equal (result 0)
    exactly when their bytes agree after lowering the letters A to Z: the
    comparison ignores case and nothing else. *)
Theorem cmp_by_type_string_equal (l r : string) :
  has_nul r = false ->
  pcmk__cmp_by_type (Some l) (Some r) pcmk__type_string = 0
  <-> c_str_lower l = c_str_lower r.
Proof. intros Hnul. apply strcasecmp_zero_iff. exact Hnul. Qed.

(** X14: compared as integers, two values that both scan are ordered as
    numbers, with result -1, 0 or 1; if one of them does not scan, the
    result is that of the comparison as strings. *)
Theorem cmp_by_type_integer (l r : string) :
  (forall a b,
     pcmk__scan_ll (Some l) 0 = (pcmk_rc_ok, a) ->
     pcmk__scan_ll (Some r) 0 = (pcmk_rc_ok, b) ->
     pcmk__cmp_by_type (Some l) (Some r) pcmk__type_integer
     = match a ?= b with Lt => -1 | Eq => 0 | Gt => 1 end)
  /\ (fst (pcmk__scan_ll (Some l) 0) <> pcmk_rc_ok
      \/ fst (pcmk__scan_ll (Some r) 0) <> pcmk_rc_ok ->
      pcmk__cmp_by_type (Some l) (Some r) pcmk__type_integer
      = pcmk__cmp_by_type (Some l) (Some r) pcmk__type_string).
Proof.
  split.
  - intros a b. apply cmp_by_type_integer_scanned.
  - apply cmp_by_type_integer_fallback.
Qed.

End CompareMore.

Lemma cmp_by_type_string_equal_witness :
  pcmk__cmp_by_type (strs := Fixture.strings)
    (Some "Node-A"%string) (Some "node-a"%string) pcmk__type_string = 0.
Proof.
  apply (@cmp_by_type_string_equal Fixture.strings "Node-A" "node-a" eq_refl).
  reflexivity.
Defined.

Lemma cmp_by_type_integer_witness :
  pcmk__cmp_by_type (strs := Fixture.strings)
    (Some "-7"%string) (Some "10"%string) pcmk__type_integer = -1
  /\ pcmk__cmp_by_type (strs := Fixture.strings)
       (Some "abc"%string) (Some "9"%string) pcmk__type_integer = 40.
Proof.
  split.
  - pose proof (@cmp_by_type_integer Fixture.strings "-7" "10") as [Hscan _].
    apply (Hscan (-7) 10); reflexivity.
  - pose proof (@cmp_by_type_integer Fixture.strings "abc" "9") as [_ Hfallback].
    rewrite Hfallback; [reflexivity | left; discriminate].
Defined.

(** ** Parsing operators and types *)

Lemma parse_comparison_lower (s : string) :
  pcmk__parse_comparison (Some s) =
    if bool_decide (c_str_lower s = c_str_lower PCMK_VALUE_DEFINED)
    then pcmk__comparison_defined
    else if bool_decide (c_str_lower s = c_str_lower PCMK_VALUE_NOT_DEFINED)
    then pcmk__comparison_undefined
    else if bool_decide (c_str_lower s = c_str_lower PCMK_VALUE_EQ)
    then pcmk__comparison_eq
    else if bool_decide (c_str_lower s = c_str_lower PCMK_VALUE_NE)
    then pcmk__comparison_ne
    else if bool_decide (c_str_lower s = c_str_lower PCMK_VALUE_LT)
    then pcmk__comparison_lt
    else if bool_decide (c_str_lower s = c_str_lower PCMK_VALUE_LTE)
    then pcmk__comparison_lte
    else if bool_decide (c_str_lower s = c_str_lower PCMK_VALUE_GT)
    then pcmk__comparison_gt
    else if bool_decide (c_str_lower s = c_str_lower PCMK_VALUE_GTE)
    then pcmk__comparison_gte
    else pcmk__comparison_unknown.
Proof.
  unfold pcmk__parse_comparison.
  rewrite !str_eq_casei_name by reflexivity. reflexivity.
Qed.

(** X15: [pcmk__parse_comparison] gives an operator other than unknown
    exactly for the strings that [strcasecmp] equates with the name of that
    operator, so the eight names are told apart whatever the case of their
    letters, and each name parses to its operator; an absent string is
    unknown. *)
Theorem parse_comparison_names :
  pcmk__parse_comparison None = pcmk__comparison_unknown
  /\ (forall c name s,
        comparison_name c = Some name ->
        pcmk__parse_comparison (Some s) = c <-> strcasecmp s name = 0)
  /\ (forall c name,
        comparison_name c = Some name -> pcmk__parse_comparison (Some name) = c).
Proof.
  split; [reflexivity |].
  assert (Hiff : forall c name s,
    comparison_name c = Some name ->
    pcmk__parse_comparison (Some s) = c <-> strcasecmp s name = 0).
  { intros c name s Hname. rewrite parse_comparison_lower.
    destruct c; simpl in Hname; simplify_eq;
      rewrite strcasecmp_zero_iff by reflexivity;
      (split;
       [ repeat case_bool_decide; intros; try discriminate; assumption
       | intros ->; reflexivity ]). }
  split; [exact Hiff |].
  intros c name Hname. destruct c; simpl in Hname; simplify_eq; reflexivity.
Qed.

Lemma parse_type_lower (s : string) op v1 v2 :
  pcmk__parse_type (Some s) op v1 v2 =
    if bool_decide (c_str_lower s = c_str_lower PCMK_VALUE_STRING)
    then pcmk__type_string
    else if bool_decide (c_str_lower s = c_str_lower PCMK_VALUE_INTEGER)
    then pcmk__type_integer
    else if bool_decide (c_str_lower s = c_str_lower PCMK_VALUE_NUMBER)
    then pcmk__type_number
    else if bool_decide (c_str_lower s = c_str_lower PCMK_VALUE_VERSION)
    then pcmk__type_version
    else pcmk__type_unknown.
Proof.
  unfold pcmk__parse_type.
  rewrite !str_eq_casei_name by reflexivity. reflexivity.
Qed.

(** X16: an explicit type decides alone: [pcmk__parse_type] gives a type
    other than unknown exactly for the strings that [strcasecmp] equates
    with the name of that type, whatever the operator and the values.
    Without explicit type the result is never unknown and never version: it
    is string unless the operator is an ordering, and then number exactly
    when one of the values holds a dot, integer otherwise. *)
Theorem parse_type_names op (v1 v2 : option string) :
  (forall t name s,
     type_name t = Some name ->
     pcmk__parse_type (Some s) op v1 v2 = t <-> strcasecmp s name = 0)
  /\ pcmk__parse_type None op v1 v2 <> pcmk__type_unknown
  /\ pcmk__parse_type None op v1 v2 <> pcmk__type_version
  /\ (pcmk__parse_type None op v1 v2 = pcmk__type_string <-> is_ordering op = false)
  /\ (pcmk__parse_type None op v1 v2 = pcmk__type_number
      <-> is_ordering op = true
          /\ ((exists v, v1 = Some v /\ strchr v "." = true)
              \/ (exists v, v2 = Some v /\ strchr v "." = true))).
Proof.
  split.
  { intros t name s Hname. rewrite parse_type_lower.
    destruct t; simpl in Hname; simplify_eq;
      rewrite strcasecmp_zero_iff by reflexivity;
      (split;
       [ repeat case_bool_decide; intros; try discriminate; assumption
       | intros ->; reflexivity ]). }
  assert (Hdot : forall v : option string,
    match v with Some s => strchr s "." | None => false end = true
    <-> exists s, v = Some s /\ strchr s "." = true).
  { intros [s|]; split.
    - intros Hs. exists s. split; [reflexivity | exact Hs].
    - intros (s' & Heq & Hs). injection Heq as ->. exact Hs.
    - discriminate.
    - intros (s' & Heq & _). discriminate. }
  unfold pcmk__parse_type.
  destruct (match v1 with Some s => strchr s "." | None => false end) eqn:H1,
           (match v2 with Some s => strchr s "." | None => false end) eqn:H2;
    cbn [orb];
    (destruct op; cbn [is_ordering];
     repeat split; try discriminate; try reflexivity; try tauto;
     try (intros [? ?]; discriminate);
     try (intros _; split; [reflexivity |]);
     try (left; apply Hdot; exact H1);
     try (right; apply Hdot; exact H2);
     try (intros [_ [Hv | Hv]]; apply Hdot in Hv; congruence)).
Qed.

Section DefaultType.
Context `{strs : Strings}.

(** X17: with an ordering operator and no explicit type, two values
    without a dot that both scan as integers are compared as numbers. *)
Theorem default_type_orders_integers op (l r : string) (a b : Z) :
  is_ordering op = true ->
  strchr l "." = false ->
  strchr r "." = false ->
  pcmk__scan_ll (Some l) 0 = (pcmk_rc_ok, a) ->
  pcmk__scan_ll (Some r) 0 = (pcmk_rc_ok, b) ->
  pcmk__cmp_by_type (Some l) (Some r) (pcmk__parse_type None op (Some l) (Some r))
  = match a ?= b with Lt => -1 | Eq => 0 | Gt => 1 end.
Proof.
  intros Hop Hl Hr Hscan_l Hscan_r.
  assert (Htype : pcmk__parse_type None op (Some l) (Some r) = pcmk__type_integer).
  { unfold pcmk__parse_type. rewrite Hl, Hr.
    destruct op; try discriminate; reflexivity. }
  rewrite Htype. apply cmp_by_type_integer_scanned; assumption.
Qed.

End DefaultType.

Lemma parse_comparison_names_witness :
  pcmk__parse_comparison (Some "GTE"%string) = pcmk__comparison_gte.
Proof.
  pose proof parse_comparison_names as (_ & Hiff & _).
  apply (Hiff pcmk__comparison_gte PCMK_VALUE_GTE "GTE"%string eq_refl).
  reflexivity.
Defined.

Lemma parse_type_names_witness :
  pcmk__parse_type (Some "Integer"%string) pcmk__comparison_eq None None
  = pcmk__type_integer.
Proof.
  pose proof (parse_type_names pcmk__comparison_eq None None) as (Hiff & _).
  apply (Hiff pcmk__type_integer PCMK_VALUE_INTEGER "Integer"%string eq_refl).
  reflexivity.
Defined.

Lemma default_type_orders_integers_witness :
  pcmk__cmp_by_type (strs := Fixture.strings) (Some "10"%string) (Some "9"%string)
    (pcmk__parse_type None pcmk__comparison_gt (Some "10"%string) (Some "9"%string))
  = 1.
Proof.
  apply (@default_type_orders_integers Fixture.strings pcmk__comparison_gt
           "10" "9" 10 9); reflexivity.
Defined.

(** ** Submatch expansion: what is read, and concatenation *)

Lemma isdigit_index (d : ascii) : isdigit d = true -> 0 <= char_code d - char_code "0".
Proof.
  unfold isdigit. intros Hdigit. apply andb_true_iff in Hdigit as [Hlow _].
  apply Z.leb_le in Hlow. change (char_code "0") with 48. lia.
Qed.

(** The result of [pcmk__replace_submatches] in terms of the expansion. *)
Lemma replace_submatches_template str matched submatches nmatches :
  pcmk__replace_submatches str matched submatches nmatches =
    match str with
    | Some template =>
        if has_placeholder template
        then Some (expand_template template matched submatches nmatches)
        else None
    | None => None
    end.
Proof.
  destruct str as [template|]; [| reflexivity].
  unfold pcmk__replace_submatches.
  destruct template as [|c rest]; [reflexivity|].
  change (pcmk__str_empty (Some (String c rest))) with false.
  change (default ""%string (Some (String c rest))) with (String c rest).
  cbv iota. rewrite process_submatches_expanded, process_submatches_expansion.
  destruct (has_placeholder (String c rest)); reflexivity.
Qed.

Lemma group_text_ext matched (s1 s2 : list regmatch_t) nmatches k :
  0 <= k ->
  (forall i, 0 <= i < nmatches -> submatch_at s1 i = submatch_at s2 i) ->
  group_text matched s1 nmatches k = group_text matched s2 nmatches k.
Proof.
  intros Hk Hsame. unfold group_text.
  destruct (Z.leb_spec nmatches k) as [Hout | Hin]; [reflexivity|].
  rewrite (Hsame k) by lia. reflexivity.
Qed.

Lemma expand_template_ext matched (s1 s2 : list regmatch_t) nmatches (n : nat) :
  (forall i, 0 <= i < nmatches -> submatch_at s1 i = submatch_at s2 i) ->
  forall template, (String.length template <= n)%nat ->
    expand_template template matched s1 nmatches
    = expand_template template matched s2 nmatches.
Proof.
  intros Hsame. induction n as [|n IH]; intros template Hlen.
  - destruct template; simpl in Hlen; [reflexivity | lia].
  - destruct template as [|c [|d rest]]; try reflexivity.
    simpl in Hlen. rewrite !expand_template_step.
    destruct (bool_decide (c = "%"%char) && isdigit d) eqn:Hplaceholder.
    + apply andb_true_iff in Hplaceholder as [_ Hdigit].
      rewrite (group_text_ext matched s1 s2 nmatches _ (isdigit_index d Hdigit) Hsame).
      rewrite (IH rest) by lia. reflexivity.
    + rewrite (IH (String d rest)) by (simpl; lia). reflexivity.
Qed.

Lemma submatch_at_take (submatches : list regmatch_t) (nmatches i : Z) :
  0 <= i < nmatches ->
  submatch_at (take (Z.to_nat nmatches) submatches) i = submatch_at submatches i.
Proof.
  intros Hi. unfold submatch_at.
  rewrite !nth_lookup, lookup_take_lt by lia. reflexivity.
Qed.

(** X18: [pcmk__replace_submatches] reads the first [nmatches] entries of
    the array of submatches and nothing behind them: two arrays that agree
    on these entries give the same result. *)
Theorem replace_submatches_reads_nmatches str matched
    (s1 s2 : list regmatch_t) (nmatches : Z) :
  take (Z.to_nat nmatches) s1 = take (Z.to_nat nmatches) s2 ->
  pcmk__replace_submatches str matched s1 nmatches
  = pcmk__replace_submatches str matched s2 nmatches.
Proof.
  intros Htake. rewrite !replace_submatches_template.
  destruct str as [template|]; [| reflexivity].
  rewrite (expand_template_ext matched s1 s2 nmatches (String.length template));
    [reflexivity | | lia].
  intros i Hi.
  rewrite <- (submatch_at_take s1 nmatches i Hi), Htake.
  apply submatch_at_take. exact Hi.
Qed.

Lemma string_app_nil_l (b : string) : "" +:+ b = b.
Proof. reflexivity. Qed.

Lemma ends_with_percent_cons c d rest :
  ends_with_percent (String c (String d rest)) = ends_with_percent (String d rest).
Proof. reflexivity. Qed.

Lemma expand_template_app_bounded matched submatches nmatches (n : nat) :
  forall a b, (String.length a <= n)%nat ->
    ends_with_percent a && begins_with_digit b = false ->
    expand_template (a +:+ b) matched submatches nmatches
    = expand_template a matched submatches nmatches
      +:+ expand_template b matched submatches nmatches
    /\ has_placeholder (a +:+ b) = has_placeholder a || has_placeholder b.
Proof.
  induction n as [|n IH]; intros a b Hlen Hcut.
  - destruct a; simpl in Hlen; [split; reflexivity | lia].
  - destruct a as [|c [|d a']].
    + split; reflexivity.
    + rewrite string_app_cons, string_app_nil_l.
      destruct b as [|d b']; [split; reflexivity|].
      simpl in Hcut.
      rewrite expand_template_step, has_placeholder_step, Hcut.
      split; reflexivity.
    + simpl in Hlen. rewrite ends_with_percent_cons in Hcut.
      rewrite !string_app_cons.
      rewrite !expand_template_step, !has_placeholder_step.
      destruct (bool_decide (c = "%"%char) && isdigit d).
      * assert (Hcut' : ends_with_percent a' && begins_with_digit b = false).
        { destruct a' as [|x a'']; [reflexivity | exact Hcut]. }
        destruct (IH a' b ltac:(lia) Hcut') as [Hx _].
        rewrite Hx, string_app_assoc. split; reflexivity.
      * destruct (IH (String d a') b ltac:(simpl; lia) Hcut) as [Hx Hp].
        rewrite <- string_app_cons, Hx, Hp. split; reflexivity.
Qed.

(** X19: expansion distributes over the concatenation of two templates,
    unless the cut separates a [%] from its digit: if the first template
    does not end in [%] or the second does not begin with a digit, the
    second pass writes for the concatenation the expansion of the first
    followed by the expansion of the second, and an expansion is needed
    exactly when one of them needs it. *)
Theorem expansion_of_concatenation matched submatches nmatches (a b : string) :
  ends_with_percent a && begins_with_digit b = false ->
  expansion (process_submatches (a +:+ b) matched submatches nmatches)
  = expansion (process_submatches a matched submatches nmatches)
    +:+ expansion (process_submatches b matched submatches nmatches)
  /\ expanded (process_submatches (a +:+ b) matched submatches nmatches)
     = expanded (process_submatches a matched submatches nmatches)
       || expanded (process_submatches b matched submatches nmatches).
Proof.
  intros Hcut.
  rewrite !process_submatches_expansion, !process_submatches_expanded.
  apply (expand_template_app_bounded matched submatches nmatches (String.length a));
    [lia | exact Hcut].
Qed.

Lemma replace_submatches_reads_nmatches_witness :
  pcmk__replace_submatches (Some "backup-%1-%2"%string) "db-prod"
    [Regmatch 0 7; Regmatch 3 7; Regmatch 0 2] 2
  = pcmk__replace_submatches (Some "backup-%1-%2"%string) "db-prod"
      Fixture.db_prod_submatches 2.
Proof.
  apply replace_submatches_reads_nmatches. reflexivity.
Defined.

Lemma expansion_of_concatenation_witness :
  expansion (process_submatches ("%1-" +:+ "%1") "db-prod" Fixture.db_prod_submatches 2)
  = ("prod-" +:+ "prod")%string.
Proof.
  pose proof (expansion_of_concatenation "db-prod" Fixture.db_prod_submatches 2
                "%1-" "%1" eq_refl) as [Hx _].
  rewrite Hx. reflexivity.
Defined.

Lemma process_submatches_nbytes_witness :
  nbytes (process_submatches "backup-%1" "db-prod" Fixture.db_prod_submatches 2) = 12.
Proof.
  rewrite (process_submatches_nbytes "db-prod" Fixture.db_prod_submatches 2).
  - reflexivity.
  - intros k Hk. assert (Hcases : k = 0 \/ k = 1) by lia.
    destruct Hcases as [-> | ->]; vm_compute; discriminate.
Defined.

(** A cut between [%] and its digit: the parts expand to themselves, the
    whole to the group. *)
Example expansion_cut_in_placeholder :
  expansion (process_submatches ("%" +:+ "1") "db-prod" Fixture.db_prod_submatches 2)
    = "prod"%string
  /\ (expansion (process_submatches "%" "db-prod" Fixture.db_prod_submatches 2)
      +:+ expansion (process_submatches "1" "db-prod" Fixture.db_prod_submatches 2))
     = "%1"%string.
Proof. split; reflexivity. Qed.

(** ** Expression types *)

(** X20: the type of a rule subexpression is decided by its tag, and for
    the tag [expression] by the value of its [attribute]: location exactly
    for the three reserved node attributes, written exactly so, attribute
    otherwise; unknown exactly for no element or any other tag.  Nothing
    else of the element is looked at. *)
Theorem expression_type_by_tag (e e' : xmlNode) :
  pcmk__expression_type None = pcmk__subexpr_unknown
  /\ (pcmk__expression_type (Some e) = pcmk__subexpr_location
      <-> xml_name e = PCMK_XE_EXPRESSION
          /\ exists a, crm_element_value e PCMK_XA_ATTRIBUTE = Some a
                       /\ (a = CRM_ATTR_UNAME \/ a = CRM_ATTR_KIND \/ a = CRM_ATTR_ID))
  /\ (pcmk__expression_type (Some e) = pcmk__subexpr_unknown
      <-> xml_name e <> PCMK_XE_DATE_EXPRESSION
          /\ xml_name e <> PCMK_XE_RSC_EXPRESSION
          /\ xml_name e <> PCMK_XE_OP_EXPRESSION
          /\ xml_name e <> PCMK_XE_RULE
          /\ xml_name e <> PCMK_XE_EXPRESSION)
  /\ (xml_name e = xml_name e' ->
      crm_element_value e PCMK_XA_ATTRIBUTE = crm_element_value e' PCMK_XA_ATTRIBUTE ->
      pcmk__expression_type (Some e) = pcmk__expression_type (Some e'))
  /\ (pcmk__expression_type (Some e) = pcmk__subexpr_attribute
      <-> xml_name e = PCMK_XE_EXPRESSION
          /\ forall a, crm_element_value e PCMK_XA_ATTRIBUTE = Some a ->
                a <> CRM_ATTR_UNAME /\ a <> CRM_ATTR_KIND /\ a <> CRM_ATTR_ID).
Proof.
  split; [reflexivity |].
  unfold pcmk__expression_type, pcmk__xe_is, pcmk__str_any_of. cbn [mbind option_bind].
  split; [| split; [| split]].
  - split.
    + repeat case_bool_decide; cbn [negb]; try discriminate.
      destruct (crm_element_value e PCMK_XA_ATTRIBUTE) as [a|]; [| discriminate].
      case_bool_decide as Hin; [| discriminate]. intros _.
      split; [assumption |]. exists a. split; [reflexivity |].
      set_unfold in Hin. tauto.
    + intros (Hname & a & Hattr & Hreserved). rewrite Hname, Hattr.
      destruct Hreserved as [-> | [-> | ->]]; reflexivity.
  - split.
    + repeat case_bool_decide; cbn [negb]; try discriminate; [| auto].
      destruct (crm_element_value e PCMK_XA_ATTRIBUTE) as [a|]; [| discriminate].
      case_bool_decide; discriminate.
    + intros (H1 & H2 & H3 & H4 & H5).
      rewrite !bool_decide_eq_false_2 by assumption. reflexivity.
  - intros -> ->. reflexivity.
  - split.
    + repeat case_bool_decide; cbn [negb]; try discriminate.
      destruct (crm_element_value e PCMK_XA_ATTRIBUTE) as [a|].
      * case_bool_decide as Hin; [discriminate |]. intros _.
        split; [assumption |]. intros a' Ha. injection Ha as <-.
        set_unfold in Hin. tauto.
      * intros _. split; [assumption |]. intros a' Ha. discriminate.
    + intros (Hname & Hattr). rewrite Hname.
      destruct (crm_element_value e PCMK_XA_ATTRIBUTE) as [a|]; [| reflexivity].
      destruct (Hattr a eq_refl) as (Huname & Hkind & Hid).
      rewrite (bool_decide_eq_false_2
                 (a ∈ [CRM_ATTR_UNAME; CRM_ATTR_KIND; CRM_ATTR_ID]));
        [reflexivity |].
      set_unfold. tauto.
Qed.

Lemma expression_type_by_tag_witness :
  pcmk__expression_type
    (Some (Fixture.element "expression" [("id", "x"); ("attribute", "#uname")]))
  = pcmk__subexpr_location
  /\ pcmk__expression_type
       (Some (Fixture.element "expression" [("id", "y"); ("attribute", "#UNAME")]))
     = pcmk__subexpr_attribute.
Proof.
  split.
  - pose proof (expression_type_by_tag
                  (Fixture.element "expression" [("id", "x"); ("attribute", "#uname")])
                  (Fixture.element "expression" [("id", "x"); ("attribute", "#uname")]))
      as (_ & Hlocation & _).
    apply Hlocation. split; [reflexivity |].
    exists "#uname"%string. split; [reflexivity | left; reflexivity].
  - pose proof (expression_type_by_tag
                  (Fixture.element "expression" [("id", "y"); ("attribute", "#UNAME")])
                  (Fixture.element "expression" [("id", "y"); ("attribute", "#UNAME")]))
      as (_ & _ & _ & _ & Hattribute).
    apply Hattribute. split; [reflexivity |].
    intros a Ha. injection Ha as <-. repeat split; discriminate.
Defined.

(** * Properties of the metadata cache *)

Lemma flags_set_after_lor (flag_group flags : Z) :
  Metadata.pcmk_all_flags_set (Z.lor flag_group flags) flags = true.
Proof.
  unfold Metadata.pcmk_all_flags_set. apply Z.eqb_eq. apply Z.bits_inj'.
  intros n _. rewrite Z.land_spec, Z.lor_spec.
  destruct (Z.testbit flag_group n), (Z.testbit flags n); reflexivity.
Qed.

Section MetadataCache.
Context `{lib : Metadata.AgentLib}.

Lemma ra_param_from_xml_unnamed param :
  crm_element_value param "name" = None -> Metadata.ra_param_from_xml param = None.
Proof. intros Hname. unfold Metadata.ra_param_from_xml. rewrite Hname. reflexivity. Qed.

Lemma ra_param_from_xml_named param name :
  crm_element_value param "name" = Some name ->
  exists p, Metadata.ra_param_from_xml param = Some p
            /\ Metadata.rap_name p = name
            /\ is_private p = Metadata.crm_is_true (crm_element_value param "private")
            /\ is_unique p = Metadata.crm_is_true (crm_element_value param "unique").
Proof.
  intros Hname. unfold Metadata.ra_param_from_xml. rewrite Hname.
  eexists. split; [reflexivity |].
  destruct (Metadata.crm_is_true (crm_element_value param "unique")),
           (Metadata.crm_is_true (crm_element_value param "private"));
    repeat split.
Qed.

(** The loop over the parameters never jumps to [err]; it prepends the
    declared parameters and notes whether one of them is private. *)
Lemma build_params_declared (params : list xmlNode) acc any_private :
  Metadata.build_params params acc any_private
  = Some ((reverse (omap Metadata.ra_param_from_xml params) ++ acc)%list,
          any_private || existsb is_private (omap Metadata.ra_param_from_xml params)).
Proof.
  revert acc any_private.
  induction params as [|param rest IH]; intros acc any_private.
  - simpl. rewrite orb_false_r. reflexivity.
  - cbn [Metadata.build_params omap list_omap].
    destruct (crm_element_value param "name") as [name|] eqn:Hname.
    + destruct (ra_param_from_xml_named _ _ Hname) as (p & -> & _).
      rewrite IH, reverse_cons, <- app_assoc. cbn [existsb app].
      fold (is_private p).
      destruct (is_private p), any_private; reflexivity.
    + rewrite (ra_param_from_xml_unnamed _ Hname). apply IH.
Qed.

Lemma check_actions_reload (actions : list xmlNode) md :
  Metadata.check_actions actions md
  = if existsb names_reload actions
    then Metadata.controld_set_ra_flags md Metadata.ra_supports_reload
    else md.
Proof.
  induction actions as [|action rest IH]; [reflexivity|].
  cbn [Metadata.check_actions existsb]. fold (names_reload action).
  destruct (names_reload action); [reflexivity | exact IH].
Qed.

(** An update with a key and a valid document stores the record of the
    document under the key. *)
Lemma metadata_cache_update_record versioned table rsc text key metadata :
  Metadata.crm_generate_ra_key (Metadata.rsc_standard rsc) (Metadata.rsc_provider rsc)
    (Metadata.rsc_type rsc) = Some key ->
  Metadata.string2xml text = Some metadata ->
  Metadata.metadata_cache_update versioned (Some table) (Some rsc) (Some text)
  = (Some (agent_record versioned metadata),
     Some (<[key := agent_record versioned metadata]> table)).
Proof.
  intros Hkey Hxml. unfold Metadata.metadata_cache_update.
  rewrite Hkey, Hxml, check_actions_reload, build_params_declared.
  unfold agent_record, declared_params, parameter_elements, action_elements.
  destruct versioned,
    (existsb names_reload
       (Metadata.named_children (first_named_child metadata "actions") "action")),
    (existsb is_private
       (omap Metadata.ra_param_from_xml
          (Metadata.named_children (first_named_child metadata "parameters")
             "parameter")));
    cbn [orb negb Metadata.ra_params Metadata.ra_version Metadata.ra_flags
         Metadata.controld_set_ra_flags];
    rewrite app_nil_r; reflexivity.
Qed.

End MetadataCache.

Lemma map_reverse {A B : Type} (f : A -> B) (l : list A) :
  map f (reverse l) = reverse (map f l).
Proof.
  induction l as [|x l IH]; [reflexivity|].
  cbn [map]. rewrite !reverse_cons, map_app, IH. reflexivity.
Qed.

Section MetadataProperties.
Context `{lib : Metadata.AgentLib}.

(** A successful update had a key and a valid document, and built the
    record of the document. *)
Lemma metadata_cache_update_inv versioned table rsc text md cache' :
  Metadata.metadata_cache_update versioned (Some table) (Some rsc) (Some text)
  = (Some md, cache') ->
  exists key metadata,
    Metadata.crm_generate_ra_key (Metadata.rsc_standard rsc)
      (Metadata.rsc_provider rsc) (Metadata.rsc_type rsc) = Some key
    /\ Metadata.string2xml text = Some metadata
    /\ md = agent_record versioned metadata
    /\ cache' = Some (<[key := md]> table).
Proof.
  intros Hupdate.
  destruct (Metadata.crm_generate_ra_key (Metadata.rsc_standard rsc)
              (Metadata.rsc_provider rsc) (Metadata.rsc_type rsc))
    as [key|] eqn:Hkey.
  - destruct (Metadata.string2xml text) as [metadata|] eqn:Hxml.
    + rewrite (metadata_cache_update_record _ _ _ _ _ _ Hkey Hxml) in Hupdate.
      injection Hupdate as <- <-. exists key, metadata. auto.
    + unfold Metadata.metadata_cache_update in Hupdate.
      rewrite Hkey, Hxml in Hupdate. discriminate.
  - unfold Metadata.metadata_cache_update in Hupdate.
    rewrite Hkey in Hupdate. discriminate.
Qed.

(** X21: after a successful update, looking up the same agent gives the
    record the update returned, and looking up an agent with another key
    gives what it gave before. *)
Theorem metadata_cache_update_get versioned table rsc text md cache' :
  Metadata.metadata_cache_update versioned (Some table) (Some rsc) (Some text)
  = (Some md, cache') ->
  Metadata.metadata_cache_get cache' (Some rsc) = Some md
  /\ (forall rsc',
        Metadata.crm_generate_ra_key (Metadata.rsc_standard rsc')
          (Metadata.rsc_provider rsc') (Metadata.rsc_type rsc')
        <> Metadata.crm_generate_ra_key (Metadata.rsc_standard rsc)
             (Metadata.rsc_provider rsc) (Metadata.rsc_type rsc) ->
        Metadata.metadata_cache_get cache' (Some rsc')
        = Metadata.metadata_cache_get (Some table) (Some rsc')).
Proof.
  intros Hupdate.
  destruct (metadata_cache_update_inv _ _ _ _ _ _ Hupdate)
    as (key & metadata & Hkey & _ & _ & ->).
  unfold Metadata.metadata_cache_get. rewrite Hkey. split.
  - apply lookup_insert_eq.
  - intros rsc' Hother.
    destruct (Metadata.crm_generate_ra_key (Metadata.rsc_standard rsc')
                (Metadata.rsc_provider rsc') (Metadata.rsc_type rsc'))
      as [key'|]; [| reflexivity].
    apply lookup_insert_ne. congruence.
Qed.

(** X22: an update fails (returns [NULL]) exactly when the table, the agent
    or the metadata is missing, no key can be made, or the metadata is not
    valid XML; a failed update leaves the table as it was. *)
Theorem metadata_cache_update_failure versioned mdc rsc text :
  (fst (Metadata.metadata_cache_update versioned mdc rsc text) = None ->
   snd (Metadata.metadata_cache_update versioned mdc rsc text) = mdc)
  /\ (fst (Metadata.metadata_cache_update versioned mdc rsc text) = None
      <-> mdc = None \/ rsc = None \/ text = None
          \/ (exists r, rsc = Some r
                /\ Metadata.crm_generate_ra_key (Metadata.rsc_standard r)
                     (Metadata.rsc_provider r) (Metadata.rsc_type r) = None)
          \/ (exists t, text = Some t /\ Metadata.string2xml t = None)).
Proof.
  destruct mdc as [table|], rsc as [r|], text as [t|];
    try (split; [reflexivity | split; [intros _; tauto | reflexivity]]).
  destruct (Metadata.crm_generate_ra_key (Metadata.rsc_standard r)
              (Metadata.rsc_provider r) (Metadata.rsc_type r))
    as [key|] eqn:Hkey.
  - destruct (Metadata.string2xml t) as [metadata|] eqn:Hxml.
    + rewrite (metadata_cache_update_record _ _ _ _ _ _ Hkey Hxml). cbn [fst snd].
      split; [discriminate |]. split; [discriminate |].
      intros [H | [H | [H | [(r' & Hr & Hnone) | (t' & Ht & Hnone)]]]];
        try discriminate.
      * injection Hr as <-. congruence.
      * injection Ht as <-. congruence.
    + unfold Metadata.metadata_cache_update. rewrite Hkey, Hxml. cbn [fst snd].
      split; [reflexivity |]. split; [| reflexivity].
      intros _. do 4 right. exists t. auto.
  - unfold Metadata.metadata_cache_update. rewrite Hkey. cbn [fst snd].
    split; [reflexivity |]. split; [| reflexivity].
    intros _. do 3 right. left. exists r. auto.
Qed.

Lemma declared_param_names (params : list xmlNode) :
  map Metadata.rap_name (omap Metadata.ra_param_from_xml params)
  = omap (fun param => crm_element_value param "name") params.
Proof.
  induction params as [|param rest IH]; [reflexivity|].
  cbn [omap list_omap].
  destruct (crm_element_value param "name") as [name|] eqn:Hname.
  - destruct (ra_param_from_xml_named _ _ Hname) as (p & -> & Hp & _).
    cbn [map]. rewrite Hp, IH. reflexivity.
  - rewrite (ra_param_from_xml_unnamed _ Hname). exact IH.
Qed.

Lemma mark_common_private_names (params : list Metadata.ra_param_s) :
  map Metadata.rap_name (Metadata.mark_common_private params)
  = map Metadata.rap_name params.
Proof.
  unfold Metadata.mark_common_private. rewrite map_map. apply map_ext.
  intros p. destruct (pcmk__str_any_of _ _); reflexivity.
Qed.

(** X23: the parameter list of a record holds the parameters of the
    metadata that have a name, in reverse document order; parameters
    without name are left out. *)
Theorem metadata_params_named versioned table rsc text md cache' metadata :
  Metadata.metadata_cache_update versioned (Some table) (Some rsc) (Some text)
  = (Some md, cache') ->
  Metadata.string2xml text = Some metadata ->
  map Metadata.rap_name (Metadata.ra_params md)
  = reverse (omap (fun param => crm_element_value param "name")
               (parameter_elements metadata)).
Proof.
  intros Hupdate Hxml.
  destruct (metadata_cache_update_inv _ _ _ _ _ _ Hupdate)
    as (key & metadata' & _ & Hxml' & -> & _).
  assert (metadata' = metadata) as -> by congruence.
  unfold agent_record. cbn [Metadata.ra_params].
  destruct (existsb is_private (declared_params metadata));
    rewrite ?mark_common_private_names, map_reverse;
    unfold declared_params; rewrite declared_param_names; reflexivity.
Qed.

(** X24: when the metadata declares a private parameter, the flags of the
    record are those the metadata declares.  When it declares none, the
    parameters named [password], [passwd] or [user], written exactly so,
    are private in the record and no other parameter is. *)
Theorem metadata_params_private versioned table rsc text md cache' metadata :
  Metadata.metadata_cache_update versioned (Some table) (Some rsc) (Some text)
  = (Some md, cache') ->
  Metadata.string2xml text = Some metadata ->
  (existsb is_private (declared_params metadata) = true ->
   Metadata.ra_params md = reverse (declared_params metadata))
  /\ (existsb is_private (declared_params metadata) = false ->
      forall p, p ∈ Metadata.ra_params md ->
        is_private p = true
        <-> Metadata.rap_name p ∈ ["password"%string; "passwd"%string; "user"%string]).
Proof.
  intros Hupdate Hxml.
  destruct (metadata_cache_update_inv _ _ _ _ _ _ Hupdate)
    as (key & metadata' & _ & Hxml' & -> & _).
  assert (metadata' = metadata) as -> by congruence.
  unfold agent_record. cbn [Metadata.ra_params]. split.
  - intros ->. reflexivity.
  - intros Hnone. rewrite Hnone. intros p Hin.
    unfold Metadata.mark_common_private in Hin.
    apply list_elem_of_In, in_map_iff in Hin as (q & <- & Hq).
    rewrite <- list_elem_of_In, elem_of_reverse, list_elem_of_In in Hq.
    assert (Hq_private : is_private q = false).
    { destruct (is_private q) eqn:Hprivate; [| reflexivity].
      assert (Hex : existsb is_private (declared_params metadata) = true).
      { apply existsb_exists. exists q. split; assumption. }
      congruence. }
    unfold pcmk__str_any_of. case_bool_decide as Hcommon.
    + split; [intros _; exact Hcommon |]. intros _.
      unfold is_private, Metadata.controld_set_ra_param_flags.
      cbn [Metadata.rap_flags]. apply flags_set_after_lor.
    + rewrite Hq_private. split; [discriminate | contradiction].
Qed.

Lemma names_reload_iff (action : xmlNode) :
  names_reload action = true
  <-> exists name, crm_element_value action "name" = Some name
                   /\ strcasecmp name "reload" = 0.
Proof.
  unfold names_reload, pcmk__str_eq.
  destruct (crm_element_value action "name") as [name|]; simpl.
  - rewrite Z.eqb_eq. split.
    + intros Hzero. exists name. auto.
    + intros (name' & Heq & Hzero). injection Heq as <-. exact Hzero.
  - split; [discriminate |]. intros (name' & Heq & _). discriminate.
Qed.

(** X25: the record has the reload flag exactly when the metadata lists an
    action whose name is [reload], in any case of the letters. *)
Theorem metadata_supports_reload versioned table rsc text md cache' metadata :
  Metadata.metadata_cache_update versioned (Some table) (Some rsc) (Some text)
  = (Some md, cache') ->
  Metadata.string2xml text = Some metadata ->
  Metadata.pcmk_all_flags_set (Metadata.ra_flags md) Metadata.ra_supports_reload = true
  <-> exists action name,
        action ∈ action_elements metadata
        /\ crm_element_value action "name" = Some name
        /\ strcasecmp name "reload" = 0.
Proof.
  intros Hupdate Hxml.
  destruct (metadata_cache_update_inv _ _ _ _ _ _ Hupdate)
    as (key & metadata' & _ & Hxml' & -> & _).
  assert (metadata' = metadata) as -> by congruence.
  unfold agent_record. cbn [Metadata.ra_flags].
  destruct (existsb names_reload (action_elements metadata)) eqn:Hreload.
  - split; [intros _ | reflexivity].
    apply existsb_exists in Hreload as (action & Hin & Hnames).
    apply names_reload_iff in Hnames as (name & Hname & Hzero).
    exists action, name. repeat split; try assumption.
    apply list_elem_of_In. exact Hin.
  - split; [discriminate |].
    intros (action & name & Hin & Hname & Hzero). exfalso.
    assert (Hex : existsb names_reload (action_elements metadata) = true).
    { apply existsb_exists. exists action. split.
      - apply list_elem_of_In. exact Hin.
      - apply names_reload_iff. exists name. auto. }
    congruence.
Qed.

(** X26: where versioned attributes are built in, the version of a record
    always has the form of dot-separated numbers: it is the version the
    metadata gives when that has this form, and 0.1 when the metadata gives
    none or another form.  Elsewhere the record has no version. *)
Theorem metadata_version_format versioned table rsc text md cache' metadata :
  Metadata.metadata_cache_update versioned (Some table) (Some rsc) (Some text)
  = (Some md, cache') ->
  Metadata.string2xml text = Some metadata ->
  (versioned = false -> Metadata.ra_version md = None)
  /\ (versioned = true ->
      Metadata.valid_version_format (Metadata.ra_version md) = true
      /\ (Metadata.valid_version_format
            (crm_element_value metadata Metadata.XML_ATTR_VERSION) = true ->
          Metadata.ra_version md = crm_element_value metadata Metadata.XML_ATTR_VERSION)
      /\ (Metadata.valid_version_format
            (crm_element_value metadata Metadata.XML_ATTR_VERSION) = false ->
          Metadata.ra_version md = Some Metadata.PCMK_DEFAULT_AGENT_VERSION)).
Proof.
  intros Hupdate Hxml.
  destruct (metadata_cache_update_inv _ _ _ _ _ _ Hupdate)
    as (key & metadata' & _ & Hxml' & -> & _).
  assert (metadata' = metadata) as -> by congruence.
  unfold agent_record. cbn [Metadata.ra_version]. split.
  - intros ->. reflexivity.
  - intros ->. unfold Metadata.ra_version_from_xml.
    destruct (crm_element_value metadata Metadata.XML_ATTR_VERSION) as [v|];
      [destruct (Metadata.valid_version_format (Some v)) eqn:Hvalid |];
      cbn [negb]; (split; [| split]);
      first [exact Hvalid | reflexivity | discriminate | (intros _; reflexivity)].
Qed.

End MetadataProperties.

(** The update of the empty cache with the metadata of the fixture. *)
Example metadata_cache_update_ipaddr2 :
  Metadata.metadata_cache_update (lib := AgentFixture.lib) true
    (Some Metadata.metadata_cache_new) (Some AgentFixture.ipaddr2)
    (Some AgentFixture.agent_metadata_text)
  = (Some AgentFixture.ipaddr2_record,
     Some (<["ocf:heartbeat:IPaddr2"%string := AgentFixture.ipaddr2_record]> ∅)).
Proof. vm_compute. reflexivity. Qed.

Example version_formats :
  map (fun v => Metadata.valid_version_format (Some v))
    ["1.0"; "10"; "1.2.3"; ""; "1."; ".1"; "1..2"; "1.0a"; "v1"]%string
  = [true; true; true; false; false; false; false; false; false].
Proof. reflexivity. Qed.

Lemma metadata_cache_update_get_witness :
  Metadata.metadata_cache_get (lib := AgentFixture.lib)
    (Some (<["ocf:heartbeat:IPaddr2"%string := AgentFixture.ipaddr2_record]> ∅))
    (Some AgentFixture.ipaddr2)
  = Some AgentFixture.ipaddr2_record
  /\ Metadata.metadata_cache_get (lib := AgentFixture.lib)
       (Some (<["ocf:heartbeat:IPaddr2"%string := AgentFixture.ipaddr2_record]> ∅))
       (Some AgentFixture.dummy)
     = None.
Proof.
  pose proof (@metadata_cache_update_get AgentFixture.lib true ∅ AgentFixture.ipaddr2
                AgentFixture.agent_metadata_text AgentFixture.ipaddr2_record
                (Some (<["ocf:heartbeat:IPaddr2"%string := AgentFixture.ipaddr2_record]> ∅))
                eq_refl) as [Hsame Hother].
  split; [exact Hsame |].
  rewrite (Hother AgentFixture.dummy); [reflexivity | discriminate].
Defined.

Lemma metadata_cache_update_failure_witness :
  Metadata.metadata_cache_update (lib := AgentFixture.lib) true
    (Some (<["ocf:heartbeat:IPaddr2"%string := AgentFixture.ipaddr2_record]> ∅))
    (Some AgentFixture.dummy) (Some "<resource-agent"%string)
  = (None, Some (<["ocf:heartbeat:IPaddr2"%string := AgentFixture.ipaddr2_record]> ∅)).
Proof.
  pose proof (@metadata_cache_update_failure AgentFixture.lib true
                (Some (<["ocf:heartbeat:IPaddr2"%string := AgentFixture.ipaddr2_record]> ∅))
                (Some AgentFixture.dummy) (Some "<resource-agent"%string))
    as [Hkept Hfails].
  assert (Hnone : fst (Metadata.metadata_cache_update (lib := AgentFixture.lib) true
                         (Some (<["ocf:heartbeat:IPaddr2"%string :=
                                    AgentFixture.ipaddr2_record]> ∅))
                         (Some AgentFixture.dummy) (Some "<resource-agent"%string))
                  = None).
  { apply Hfails. do 4 right. exists "<resource-agent"%string.
    split; reflexivity. }
  specialize (Hkept Hnone).
  destruct (Metadata.metadata_cache_update _ _ _ _) as [md cache'].
  cbn [fst snd] in *. subst. reflexivity.
Defined.

Lemma metadata_params_named_witness :
  map Metadata.rap_name (Metadata.ra_params AgentFixture.ipaddr2_record)
  = ["password"; "ip"]%string.
Proof.
  rewrite (@metadata_params_named AgentFixture.lib true ∅ AgentFixture.ipaddr2
             AgentFixture.agent_metadata_text AgentFixture.ipaddr2_record
             (Some (<["ocf:heartbeat:IPaddr2"%string := AgentFixture.ipaddr2_record]> ∅))
             AgentFixture.agent_metadata eq_refl eq_refl).
  reflexivity.
Defined.

Lemma metadata_params_private_witness :
  is_private (Metadata.RaParam "password" 2) = true
  /\ (is_private (Metadata.RaParam "ip" 1) = true -> False).
Proof.
  pose proof (@metadata_params_private AgentFixture.lib true ∅ AgentFixture.ipaddr2
                AgentFixture.agent_metadata_text AgentFixture.ipaddr2_record
                (Some (<["ocf:heartbeat:IPaddr2"%string := AgentFixture.ipaddr2_record]> ∅))
                AgentFixture.agent_metadata eq_refl eq_refl) as [_ Hcommon].
  specialize (Hcommon eq_refl). split.
  - apply (Hcommon (Metadata.RaParam "password" 2)); [left | left].
  - intros Hprivate.
    apply (Hcommon (Metadata.RaParam "ip" 1)) in Hprivate;
      [| right; left].
    cbn [Metadata.rap_name] in Hprivate.
    repeat (apply elem_of_cons in Hprivate as [Hprivate | Hprivate];
            [discriminate |]).
    inversion Hprivate.
Defined.

Lemma metadata_supports_reload_witness :
  Metadata.pcmk_all_flags_set (Metadata.ra_flags AgentFixture.ipaddr2_record)
    Metadata.ra_supports_reload = true.
Proof.
  apply (@metadata_supports_reload AgentFixture.lib true ∅ AgentFixture.ipaddr2
           AgentFixture.agent_metadata_text AgentFixture.ipaddr2_record
           (Some (<["ocf:heartbeat:IPaddr2"%string := AgentFixture.ipaddr2_record]> ∅))
           AgentFixture.agent_metadata eq_refl eq_refl).
  exists (AgentFixture.leaf "action" [("name", "Reload")]), "Reload"%string.
  repeat split. right. left.
Defined.

Lemma metadata_version_format_witness :
  Metadata.valid_version_format (Metadata.ra_version AgentFixture.ipaddr2_record) = true
  /\ Metadata.ra_version AgentFixture.ipaddr2_record = Some "1.0"%string.
Proof.
  pose proof (@metadata_version_format AgentFixture.lib true ∅ AgentFixture.ipaddr2
                AgentFixture.agent_metadata_text AgentFixture.ipaddr2_record
                (Some (<["ocf:heartbeat:IPaddr2"%string := AgentFixture.ipaddr2_record]> ∅))
                AgentFixture.agent_metadata eq_refl eq_refl) as [_ Hversioned].
  destruct (Hversioned eq_refl) as (Hvalid & Hgiven & _).
  split; [exact Hvalid | apply Hgiven; reflexivity].
Defined.
